(** * AnveshAI Chess Arena: the move-decision core

    A shallow embedding of the three server services of the repository,

    - [server/services/stockfish.ts] (module [Stockfish]): the client of
      the engine subprocess,
    - [server/services/learning.ts] (module [Learning]): the opening book
      and the position database,
    - [server/services/chess.ts] (module [ChessGame]): the game service
      with its move-selection operation,

    with the properties of them that the specification states, and of
    the code around them: the learning service as a whole (module
    [LearningStore]), the engine client over a sequence of calls and
    output (module [StockfishSession]), the storage of games and moves,
    [server/storage.ts] (module [Storage]), and the routes that play a
    move, create a game and end one, [server/routes.ts] (module
    [Routes]).

    JavaScript values are modelled as the code has them: a [number] is a
    binary64 floating-point value (the kernel's primitive floats), a
    string is a [string], [undefined]/[null] are [None], an array is a
    [list] and a [Map] keyed by strings is a [gmap string]. *)

From Stdlib Require Import ZArith QArith Floats Ascii String DecimalString Lia.
From stdpp Require Import gmap strings list.

Set Warnings "-inexact-float".

Local Open Scope string_scope.
Local Open Scope Z_scope.

(* ===================================================================== *)
(** * JavaScript strings                                                   *)
(* ===================================================================== *)

Module JSString.

(** [s.split(sep)] for a separator of one character. The result is never
    empty: the empty string splits into one empty field. *)
Fixpoint split (sep : ascii) (s : string) : list string :=
  match s with
  | EmptyString => [""]
  | String c rest =>
      if Ascii.eqb c sep then "" :: split sep rest
      else match split sep rest with
           | field :: fields => String c field :: fields
           | [] => [String c ""]
           end
  end.

(** [parts.join(sep)]. *)
Fixpoint join (sep : string) (parts : list string) : string :=
  match parts with
  | [] => ""
  | [p] => p
  | p :: ps => p ++ sep ++ join sep ps
  end.

(** [parts.slice(from, to)] for in-range non-negative indices. *)
Definition slice {A} (from to : nat) (parts : list A) : list A :=
  drop from (take to parts).

(** [parts.slice(from)]. *)
Definition slice_from {A} (from : nat) (parts : list A) : list A :=
  drop from parts.

(** [s.startsWith(p)]. *)
Fixpoint startsWith (p s : string) : bool :=
  match p, s with
  | EmptyString, _ => true
  | String a p', String b s' => Ascii.eqb a b && startsWith p' s'
  | String _ _, EmptyString => false
  end.

(** The white space that [trim] and [parseInt] strip, restricted to the
    ASCII range: TAB, LF, VT, FF, CR and SPACE. *)
Definition isWhiteSpace (c : ascii) : bool :=
  let n := nat_of_ascii c in
  ((9 <=? n)%nat && (n <=? 13)%nat) || (n =? 32)%nat.

Fixpoint trimStart (s : string) : string :=
  match s with
  | String c rest => if isWhiteSpace c then trimStart rest else s
  | EmptyString => s
  end.

Fixpoint rev_string (acc s : string) : string :=
  match s with
  | EmptyString => acc
  | String c rest => rev_string (String c acc) rest
  end.

Definition trimEnd (s : string) : string :=
  rev_string "" (trimStart (rev_string "" s)).

(** [s.trim()]. *)
Definition trim (s : string) : string := trimEnd (trimStart s).

(** A string holds no occurrence of the character [sep]. *)
Fixpoint free_of (sep : ascii) (s : string) : bool :=
  match s with
  | EmptyString => true
  | String c rest => negb (Ascii.eqb c sep) && free_of sep rest
  end.

End JSString.

(* ===================================================================== *)
(** * JavaScript numbers                                                   *)
(* ===================================================================== *)

Module JSNumber.

(** A JavaScript [number] is an IEEE 754 binary64 value. *)
Abbreviation number := float.

Definition NaN : number := PrimFloat.nan.

(** The number nearest to the integer [z] (round to nearest, ties to even),
    which is [z] itself below 2^53. *)
Definition of_Z (z : Z) : number := SF2Prim (binary_normalize prec emax z 0 false).

Definition of_nat (n : nat) : number := of_Z (Z.of_nat n).

(** [Number.isNaN]. *)
Definition isNaN (x : number) : bool := PrimFloat.is_nan x.

(** [Math.min(a, b)] and [Math.max(a, b)]: NaN when an argument is. *)
Definition Math_min (a b : number) : number :=
  if isNaN a || isNaN b then NaN else if (a <=? b)%float then a else b.

Definition Math_max (a b : number) : number :=
  if isNaN a || isNaN b then NaN else if (a <=? b)%float then b else a.

(** The exact rational value of a finite number. *)
Definition cond_Qopp (s : bool) (q : Q) : Q := if s then Qopp q else q.

Definition SF2Q (x : spec_float) : option Q :=
  match x with
  | S754_zero _ => Some 0%Q
  | S754_finite s m e => Some (cond_Qopp s (inject_Z (Zpos m) * Qpower 2 e)%Q)
  | S754_infinity _ | S754_nan => None
  end.

Definition exactValue (x : number) : option Q := SF2Q (Prim2SF x).

(** [Math.floor(x)] as an integer, for a finite [x]. *)
Definition floorZ (x : number) : option Z :=
  match Prim2SF x with
  | S754_zero _ => Some 0
  | S754_finite s m e =>
      let v := if s then Zneg m else Zpos m in
      Some (if (0 <=? e)%Z then Z.shiftl v e else Z.shiftr v (- e))
  | S754_infinity _ | S754_nan => None
  end.

(** ** [parseInt] *)

(** The value of a digit in radix up to 36. *)
Definition digitValue (c : ascii) : option Z :=
  let n := Z.of_nat (nat_of_ascii c) in
  if ((48 <=? n) && (n <=? 57))%Z then Some (n - 48)
  else if ((97 <=? n) && (n <=? 122))%Z then Some (n - 87)
  else if ((65 <=? n) && (n <=? 90))%Z then Some (n - 55)
  else None.

(** The longest prefix of digits of [s] in [radix], read as an integer;
    [acc] is [None] while no digit has been read. *)
Fixpoint parseDigits (radix : Z) (acc : option Z) (s : string) : option Z :=
  match s with
  | String c rest =>
      match digitValue c with
      | Some d =>
          if (d <? radix)%Z
          then parseDigits radix (Some (radix * default 0 acc + d)) rest
          else acc
      | None => acc
      end
  | EmptyString => acc
  end.

(** [parseInt(arg)] without a radix argument: leading white space and a
    sign are skipped, a prefix 0x or 0X selects radix 16, and the result is
    NaN when no digit follows. [None] is the argument [undefined], whose
    string form starts with no digit. *)
Definition parseInt (arg : option string) : number :=
  match arg with
  | None => NaN
  | Some s =>
      let s := JSString.trimStart s in
      let '(neg, s) :=
        match s with
        | String "-" rest => (true, rest)
        | String "+" rest => (false, rest)
        | _ => (false, s)
        end in
      let '(radix, s) :=
        match s with
        | String "0" (String "x" rest) => (16, rest)
        | String "0" (String "X" rest) => (16, rest)
        | _ => (10, s)
        end in
      match parseDigits radix None s with
      | None => NaN
      | Some v => if neg then (- of_Z v)%float else of_Z v
      end
  end.

End JSNumber.

(* ===================================================================== *)
(** * The engine client: [server/services/stockfish.ts]                    *)
(* ===================================================================== *)

Module Stockfish.
Import JSString JSNumber.

(** [interface EngineEvaluation]. *)
Record EngineEvaluation := mkEvaluation {
  score : number;            (* pawns *)
  mate : option number;      (* moves to mate, when reported *)
  bestMove : string;
  pv : list string;          (* principal variation *)
  depth : number
}.

(** What a pending promise is resolved with. *)
Inductive Resolution :=
| BestMoveValue (token : option string)
| EvaluationValue (evaluation : EngineEvaluation).

(** The commands the client writes to the subprocess, one line each. *)
Inductive Command :=
| Uci
| IsReady
| PositionFen (fen : string)
| GoMovetime (timeMs : number)
| GoDepth (searchDepth : number).

(** The child process, as far as the client sees it: the lines written to
    its standard input. *)
Record ChildProcess := mkProcess { stdin : list Command }.

(** [class StockfishEngine]. A resolver stored in [resolveMap] is the
    identity of the promise it settles; [settled] lists the resolver calls
    made so far, oldest first, and [fresh] numbers the promises. *)
Record StockfishEngine := mkEngine {
  engine : option ChildProcess;
  isReady : bool;
  resolveMap : gmap string nat;
  settled : list (nat * Resolution);
  fresh : nat
}.

(** The result of an [async] method as its caller sees it. *)
Inductive Completion (A : Type) :=
| Returned (value : A)      (* the promise is already resolved with [value] *)
| Pending (promise : nat)   (* resolved when the resolver [promise] is called *)
| AwaitingReady.            (* polling [isReady] in [waitForReady] *)
Arguments Returned {A} value.
Arguments Pending {A} promise.
Arguments AwaitingReady {A}.

(** [sendCommand]. *)
Definition sendCommand (st : StockfishEngine) (command : Command) : StockfishEngine :=
  match engine st with
  | Some p =>
      mkEngine (Some (mkProcess (stdin p ++ [command])%list))
               (isReady st) (resolveMap st) (settled st) (fresh st)
  | None => st
  end.

(** The fields the loop of [parseEvaluation] assigns. *)
Record InfoFields := mkInfo {
  info_depth : number;
  info_score : number;
  info_mate : option number;
  info_pv : list string
}.

Definition initialInfo : InfoFields := mkInfo 0%float 0%float None [].

(** The loop of [parseEvaluation] from index [i] on, where [parts] is the
    rest of the array from [parts[i]]: [parts[i + 1]] is its second
    element. The token [pv] ends the loop. *)
Fixpoint scanInfo (parts : list string) (acc : InfoFields) : InfoFields :=
  match parts with
  | [] => acc
  | p :: rest =>
      if String.eqb p "depth" then
        scanInfo rest (mkInfo (parseInt (rest !! 0%nat)) (info_score acc)
                              (info_mate acc) (info_pv acc))
      else if String.eqb p "score" then
        match rest !! 0%nat with
        | Some "cp" =>
            scanInfo rest (mkInfo (info_depth acc) (parseInt (rest !! 1%nat))
                                  (info_mate acc) (info_pv acc))
        | Some "mate" =>
            scanInfo rest (mkInfo (info_depth acc) (info_score acc)
                                  (Some (parseInt (rest !! 1%nat))) (info_pv acc))
        | _ => scanInfo rest acc
        end
      else if String.eqb p "pv" then
        mkInfo (info_depth acc) (info_score acc) (info_mate acc) rest
      else scanInfo rest acc
  end.

Definition parseInfo (line : string) : InfoFields :=
  scanInfo (split " " line) initialInfo.

(** The evaluation [parseEvaluation] builds from a line. *)
Definition frameEvaluation (line : string) : EngineEvaluation :=
  let f := parseInfo line in
  mkEvaluation (info_score f / 100)%float
               (info_mate f)
               (match info_pv f with m :: _ => m | [] => "" end)
               (info_pv f)
               (info_depth f).

(** The depth [parseEvaluation] reads from a line. *)
Definition frameDepth (line : string) : number := info_depth (parseInfo line).

(** [parseEvaluation]. *)
Definition parseEvaluation (st : StockfishEngine) (line : string) : StockfishEngine :=
  match resolveMap st !! "evaluation" with
  | Some resolver =>
      if (10 <=? frameDepth line)%float then
        mkEngine (engine st) (isReady st)
                 (delete "evaluation" (resolveMap st))
                 (settled st ++ [(resolver, EvaluationValue (frameEvaluation line))])%list
                 (fresh st)
      else st
  | None => st
  end.

(** The body of the loop of [handleEngineOutput], for one line. *)
Definition handleLine (st : StockfishEngine) (line : string) : StockfishEngine :=
  if String.eqb line "uciok" then sendCommand st IsReady
  else if String.eqb line "readyok" then
    mkEngine (engine st) true (resolveMap st) (settled st) (fresh st)
  else if startsWith "bestmove" line then
    let parts := split " " line in
    let bestMove := parts !! 1%nat in
    match resolveMap st !! "bestmove" with
    | Some resolver =>
        mkEngine (engine st) (isReady st)
                 (delete "bestmove" (resolveMap st))
                 (settled st ++ [(resolver, BestMoveValue bestMove)])%list
                 (fresh st)
    | None => st
    end
  else if startsWith "info" line then parseEvaluation st line
  else st.

(** The lines of the output are handled in order. *)
Definition feed (st : StockfishEngine) (lines : list string) : StockfishEngine :=
  foldl handleLine st lines.

(** [handleEngineOutput]. *)
Definition handleEngineOutput (st : StockfishEngine) (output : string) : StockfishEngine :=
  feed st (split "010" (trim output)).

(** The state the field initialisers of the class give. *)
Definition newEngine : StockfishEngine := mkEngine None false ∅ [] 0.

(** [initEngine], run by the constructor. [spawned] is the result of
    [spawn]: the child process, or [None] when [spawn] throws, which the
    [catch] turns into the fallback. *)
Definition initEngine (spawned : option ChildProcess) : StockfishEngine :=
  let st := newEngine in
  match spawned with
  | Some p =>
      let st := mkEngine (Some p) (isReady st) (resolveMap st) (settled st) (fresh st) in
      sendCommand (sendCommand st Uci) IsReady
  | None => mkEngine (engine st) true (resolveMap st) (settled st) (fresh st)
  end.

(** The handler of the ['error'] event of the child process. *)
Definition onError (st : StockfishEngine) : StockfishEngine :=
  mkEngine (engine st) true (resolveMap st) (settled st) (fresh st).

(** [getBestMove]. *)
Definition getBestMove (st : StockfishEngine) (fen : string) (timeMs : number)
  : Completion string * StockfishEngine :=
  if negb (isReady st) then (AwaitingReady, st)
  else match engine st with
       | None => (Returned "e2e4", st)
       | Some _ =>
           let st1 := mkEngine (engine st) (isReady st)
                               (<["bestmove" := fresh st]> (resolveMap st))
                               (settled st) (S (fresh st)) in
           (Pending (fresh st),
            sendCommand (sendCommand st1 (PositionFen fen)) (GoMovetime timeMs))
       end.

(** What the promise [promise] has been resolved with, once its resolver
    has been called. *)
Definition resolution (st : StockfishEngine) (promise : nat) : option Resolution :=
  snd <$> List.find (fun call => Nat.eqb (fst call) promise) (settled st).

(** [await] on a pending promise of the client. The chunks that the
    subprocess writes to its standard output are handled in order, each
    by the ['data'] handler, until the resolver of the promise has been
    called; the chunk in which it is called is handled to its end. The
    result is the value of the promise, or [None] when the chunks end
    before the resolver is called, and the client as the handled chunks
    leave it. *)
Fixpoint awaitPromise (st : StockfishEngine) (promise : nat) (chunks : list string)
  : option Resolution * StockfishEngine :=
  match resolution st promise with
  | Some value => (Some value, st)
  | None =>
      match chunks with
      | [] => (None, st)
      | data :: rest => awaitPromise (handleEngineOutput st data) promise rest
      end
  end.

(** [evaluatePosition]. *)
Definition evaluatePosition (st : StockfishEngine) (fen : string) (searchDepth : number)
  : Completion EngineEvaluation * StockfishEngine :=
  if negb (isReady st) then (AwaitingReady, st)
  else match engine st with
       | None => (Returned (mkEvaluation 0%float None "e2e4" ["e2e4"] 1%float), st)
       | Some _ =>
           let st1 := mkEngine (engine st) (isReady st)
                               (<["evaluation" := fresh st]> (resolveMap st))
                               (settled st) (S (fresh st)) in
           (Pending (fresh st),
            sendCommand (sendCommand st1 (PositionFen fen)) (GoDepth searchDepth))
       end.

(** The classifications [classifyMove] returns. *)
Inductive Classification := best | excellent | good | inaccuracy | mistake | blunder.

(** [classifyMove]. *)
Definition classifyMove (evaluation bestEval : EngineEvaluation) : Classification :=
  let diff := PrimFloat.abs (score evaluation - score bestEval)%float in
  if (diff <=? 0.1)%float then best
  else if (diff <=? 0.25)%float then excellent
  else if (diff <=? 0.5)%float then good
  else if (diff <=? 1.0)%float then inaccuracy
  else if (diff <=? 2.0)%float then mistake
  else blunder.

End Stockfish.

(* ===================================================================== *)
(** * The rules engine consumed by the services: [chess.js]                *)
(* ===================================================================== *)

Module Rules.

(** The move object of the rules engine, with the fields the services
    read. *)
Record MoveObject := mkMoveObject {
  mo_san : string;
  mo_from : string;
  mo_to : string;
  mo_promotion : option string;
  mo_after : option string
}.

(** How a call [chess.move(m)] ends. The engine is a library outside the
    repository; the code is written for both ways it can turn a move
    down (it tests the result against null and encloses the call in
    [try]), so both are kept apart here, each with the state of the
    instance after the call. *)
Inductive MoveResult (Chess : Type) :=
| Moved (obj : MoveObject) (after : Chess)   (* the move was played *)
| Refused (after : Chess)                    (* the call returned null *)
| Thrown (after : Chess).                    (* the call threw *)
Arguments Moved {Chess} obj after.
Arguments Refused {Chess} after.
Arguments Thrown {Chess} after.

(** The capabilities of a [Chess] instance that the services use. *)
Class RulesEngine (Chess : Type) := {
  newChess : option string -> Chess;            (* new Chess(fen?) *)
  chess_fen : Chess -> string;
  chess_pgn : Chess -> string;
  chess_turn : Chess -> string;
  chess_history : Chess -> list MoveObject;     (* history({ verbose: true }) *)
  chess_moves : Chess -> list string;           (* moves() *)
  chess_move : Chess -> string -> MoveResult Chess;
  chess_isGameOver : Chess -> bool;
  chess_isCheck : Chess -> bool;
  chess_isCheckmate : Chess -> bool;
  chess_isStalemate : Chess -> bool;
  chess_isDraw : Chess -> bool
}.

End Rules.

(* ===================================================================== *)
(** * The learning service: [server/services/learning.ts]                  *)
(* ===================================================================== *)

Module Learning.
Import JSString JSNumber Rules.

(** The operations of the running statistics. [binary64] is the
    arithmetic of the code; what does not depend on the arithmetic is
    stated for any instance. *)
Class Arithmetic (num : Type) := {
  zero : num;
  one : num;
  half : num;                     (* the literal 0.5 *)
  add : num -> num -> num;
  sub : num -> num -> num;
  mul : num -> num -> num;
  div : num -> num -> num;
  ofCount : nat -> num            (* a counter, as a number *)
}.

#[export] Instance binary64 : Arithmetic float := {
  zero := 0%float;
  one := 1%float;
  half := 0.5%float;
  add := PrimFloat.add;
  sub := PrimFloat.sub;
  mul := PrimFloat.mul;
  div := PrimFloat.div;
  ofCount := JSNumber.of_nat
}.

(** [interface OpeningMove]. The counters are natural numbers: the code
    increments a number by one, which is exact below 2^53. *)
Record OpeningMove (num : Type) := mkOpeningMove {
  om_fen : string;
  om_move : string;
  om_count : nat;
  om_winRate : num;
  om_avgEvaluation : num
}.
Arguments mkOpeningMove {num}.
Arguments om_fen {num}.
Arguments om_move {num}.
Arguments om_count {num}.
Arguments om_winRate {num}.
Arguments om_avgEvaluation {num}.

(** [interface PositionData]. *)
Record PositionData (num : Type) := mkPositionData {
  pd_fen : string;
  pd_bestMoves : list string;
  pd_evaluation : num;
  pd_gamesPlayed : nat
}.
Arguments mkPositionData {num}.
Arguments pd_fen {num}.
Arguments pd_bestMoves {num}.
Arguments pd_evaluation {num}.
Arguments pd_gamesPlayed {num}.

(** The two maps of [class ChessLearningService]. *)
Record ChessLearningService (num : Type) := mkService {
  openingBook : gmap string (list (OpeningMove num));
  positionDatabase : gmap string (PositionData num)
}.
Arguments mkService {num}.
Arguments openingBook {num}.
Arguments positionDatabase {num}.

Definition emptyService {num} : ChessLearningService num := mkService ∅ ∅.

(** Learn first 15 moves as opening theory. *)
Definition maxOpeningMoves : nat := 15.

(** A row of the table [moves], with the columns the service reads. *)
Record MoveRow := mkMoveRow {
  row_side : string;
  row_san : string;
  row_uci : string;
  row_evaluation : option string
}.

(** [normalizePosition]. *)
Definition normalizePosition (fen : string) : string :=
  let parts := split " " fen in
  join " " (slice 0 4 parts).

(** The first element of an array that satisfies [p] is replaced by its
    image under [f]: the effect of mutating the object [find] returned. *)
Fixpoint updateFirst {A} (p : A -> bool) (f : A -> A) (l : list A) : list A :=
  match l with
  | [] => []
  | x :: rest => if p x then f x :: rest else x :: updateFirst p f rest
  end.

Section Ingestion.
Context {num : Type} `{Arithmetic num}.

(** The value [wins] (and [winRate] of a new entry) in [addToOpeningBook]:
    the three assignments in their order. *)
Definition winsFor (side : string) (whiteWon blackWon draw : bool) : num :=
  let wins := zero in
  let wins := if String.eqb side "white" && whiteWon then one else wins in
  let wins := if String.eqb side "black" && blackWon then one else wins in
  if draw then half else wins.

(** The running mean [(avg * (n - 1) + value) / n]. *)
Definition fold_mean (avg : num) (n : nat) (value : num) : num :=
  div (add (mul avg (sub (ofCount n) one)) value) (ofCount n).

(** [addToOpeningBook]. *)
Definition addToOpeningBook (book : gmap string (list (OpeningMove num)))
    (fen move : string) (whiteWon blackWon draw : bool) (side : string)
    (evaluation : num) : gmap string (list (OpeningMove num)) :=
  let movesForPosition := default [] (book !! fen) in
  let isMove := fun m : OpeningMove num => String.eqb (om_move m) move in
  let movesForPosition :=
    match List.find isMove movesForPosition with
    | Some _ =>
        updateFirst isMove
          (fun existingMove =>
             let totalGames := S (om_count existingMove) in
             let wins := winsFor side whiteWon blackWon draw in
             mkOpeningMove (om_fen existingMove) (om_move existingMove)
               totalGames
               (fold_mean (om_winRate existingMove) totalGames wins)
               (fold_mean (om_avgEvaluation existingMove) totalGames evaluation))
          movesForPosition
    | None =>
        (movesForPosition ++
          [mkOpeningMove fen move 1 (winsFor side whiteWon blackWon draw) evaluation])%list
    end in
  <[fen := movesForPosition]> book.

(** [addToPositionDatabase]. *)
Definition addToPositionDatabase (db : gmap string (PositionData num))
    (fen move : string) (evaluation : num) : gmap string (PositionData num) :=
  match db !! fen with
  | Some posData =>
      let bestMoves :=
        if existsb (String.eqb move) (pd_bestMoves posData)
        then pd_bestMoves posData
        else (pd_bestMoves posData ++ [move])%list in
      let gamesPlayed := S (pd_gamesPlayed posData) in
      <[fen := mkPositionData (pd_fen posData) bestMoves
                 (fold_mean (pd_evaluation posData) gamesPlayed evaluation)
                 gamesPlayed]> db
  | None => <[fen := mkPositionData fen [move] evaluation 1]> db
  end.

(** [parseFloat] is the host's; only its value at ["0"] matters below. *)
Variable parseFloat : string -> num.

(** [parseFloat(move.evaluation || '0')]. *)
Definition evaluationOf (move : MoveRow) : num :=
  parseFloat (match row_evaluation move with
              | Some s => if String.eqb s "" then "0" else s
              | None => "0"
              end).

Context {Chess : Type} `{RulesEngine Chess}.

(** The two stores after the body of the loop of
    [processGameForLearning] up to the call of [chess.move], for the move
    of index [i]. *)
Definition ingestMove (svc : ChessLearningService num) (result : string)
    (chess : Chess) (i : nat) (move : MoveRow) : ChessLearningService num :=
  let whiteWon := String.eqb result "1-0" in
  let blackWon := String.eqb result "0-1" in
  let draw := String.eqb result "1/2-1/2" in
  let positionKey := normalizePosition (chess_fen chess) in
  let book :=
    if (i <? maxOpeningMoves)%nat
    then addToOpeningBook (openingBook svc) positionKey (row_uci move)
           whiteWon blackWon draw (row_side move) (evaluationOf move)
    else openingBook svc in
  mkService book
    (addToPositionDatabase (positionDatabase svc) positionKey (row_uci move)
       (evaluationOf move)).

(** The loop of [processGameForLearning] from index [i] on. An exception
    of [chess.move] ends the processing of the game (it is caught and
    logged); its result is not looked at. *)
Fixpoint processMoves (svc : ChessLearningService num) (result : string)
    (chess : Chess) (i : nat) (gameMoves : list MoveRow)
  : ChessLearningService num :=
  match gameMoves with
  | [] => svc
  | move :: rest =>
      let svc := ingestMove svc result chess i move in
      match chess_move chess (row_san move) with
      | Moved _ chess => processMoves svc result chess (S i) rest
      | Refused chess => processMoves svc result chess (S i) rest
      | Thrown _ => svc
      end
  end.

(** [processGameForLearning], given the rows of the game in the order of
    their move numbers. *)
Definition processGameForLearning (svc : ChessLearningService num)
    (result : string) (gameMoves : list MoveRow) : ChessLearningService num :=
  processMoves svc result (newChess None) 0 gameMoves.

End Ingestion.

(** [hasLearnedPosition]. *)
Definition hasLearnedPosition {num} (svc : ChessLearningService num) (fen : string) : bool :=
  bool_decide (is_Some (positionDatabase svc !! normalizePosition fen)).

(** [getCommonMoves]. *)
Definition getCommonMoves {num} (svc : ChessLearningService num) (fen : string) : list string :=
  match positionDatabase svc !! normalizePosition fen with
  | Some posData => pd_bestMoves posData
  | None => []
  end.

(** An element of [scoredMoves] in [getBookMove]. *)
Record ScoredMove := mkScored { sm_move : string; sm_score : number }.

(** [scoredMoves.sort((a, b) => b.score - a.score)]: a stable sort, here
    by insertion; [a] stays ahead of a later [b] unless the comparator is
    positive. This is the order of the host when no score is NaN; with a
    NaN score the comparator is not consistent and the host may order
    the array in another way. *)
Fixpoint insertScored (a : ScoredMove) (sorted : list ScoredMove) : list ScoredMove :=
  match sorted with
  | [] => [a]
  | b :: rest =>
      if (0 <? sm_score b - sm_score a)%float
      then b :: insertScored a rest
      else a :: sorted
  end.

Definition sortScored (l : list ScoredMove) : list ScoredMove :=
  foldr insertScored [] l.

(** The choice among the ranked moves that ends [getBookMove], for the
    value [rand] of [Math.random()]. *)
Definition pickRanked (scoredMoves : list ScoredMove) (rand : number) : option string :=
  match (if (rand <? 0.7)%float then scoredMoves !! 0%nat else None) with
  | Some m => Some (sm_move m)
  | None =>
      match (if (rand <? 0.9)%float then scoredMoves !! 1%nat else None) with
      | Some m => Some (sm_move m)
      | None =>
          match scoredMoves !! 2%nat with
          | Some m => Some (sm_move m)
          | None =>
              (* scoredMoves[0]?.move || null *)
              match scoredMoves !! 0%nat with
              | Some m => if String.eqb (sm_move m) "" then None else Some (sm_move m)
              | None => None
              end
          end
      end
  end.

Section BookMove.
(** [Math.tanh], which the host approximates. *)
Variable tanh : number -> number.

(** The score [getBookMove] gives a move. *)
Definition scoreOf (m : OpeningMove number) : ScoredMove :=
  mkScored (om_move m)
    ((om_winRate m * 0.5)
     + (Math_min (JSNumber.of_nat (om_count m) / 10) 1 * 0.3)
     + (tanh (om_avgEvaluation m / 2) * 0.2))%float.

(** The ranked candidates of a position. *)
Definition rankedMoves (svc : ChessLearningService number) (fen : string) : list ScoredMove :=
  match openingBook svc !! normalizePosition fen with
  | Some movesForPosition => sortScored (map scoreOf movesForPosition)
  | None => []
  end.

(** [getBookMove]; [rand] is the value of [Math.random()]. *)
Definition getBookMove (svc : ChessLearningService number) (fen : string)
    (rand : number) : option string :=
  let normalizedFen := normalizePosition fen in
  match openingBook svc !! normalizedFen with
  | None | Some [] => None
  | Some movesForPosition =>
      let scoredMoves := sortScored (map scoreOf movesForPosition) in
      pickRanked scoredMoves rand
  end.

End BookMove.

End Learning.

(* ===================================================================== *)
(** * The game service: [server/services/chess.ts]                         *)
(* ===================================================================== *)

Module ChessGame.
Import JSString JSNumber Rules Learning.

(** [interface GameMove]; the optional fields are never set by the
    service. *)
Record GameMove := mkGameMove {
  san : string;
  uci : string;
  fen : string
}.

(** [interface GameState]. *)
Record GameState := mkGameState {
  gs_fen : string;
  gs_pgn : string;
  gs_isGameOver : bool;
  gs_isCheck : bool;
  gs_isCheckmate : bool;
  gs_isStalemate : bool;
  gs_isDraw : bool;
  gs_turn : string;
  gs_moves : list GameMove
}.

(** The values of [Math.random()] at its three places in the service:
    in [getBookMove], for [useLearnedMove] and in the random fallback. *)
Record Draws := mkDraws {
  bookDraw : number;
  learnedDraw : number;
  fallbackDraw : number
}.

(** How the promise of [makeAIMove] ends. *)
Inductive AIMoveOutcome :=
| Fulfilled (result : option GameMove)   (* resolved with a move or null *)
| Failed                                 (* rejected: an error reaches the caller *)
| Unsettled.                             (* still waiting for the engine *)

(** How the body of the [try] of [makeAIMove] ends. *)
Inductive Attempt (Chess : Type) :=
| Done (outcome : AIMoveOutcome) (chess : Chess) (sf : Stockfish.StockfishEngine)
| Raised (chess : Chess) (sf : Stockfish.StockfishEngine).
Arguments Done {Chess} outcome chess sf.
Arguments Raised {Chess} chess sf.

Section Service.
Context {Chess : Type} `{RulesEngine Chess}.

(** [move.from + move.to + (move.promotion || '')]. *)
Definition uciOf (obj : MoveObject) : string :=
  mo_from obj ++ mo_to obj ++ default "" (mo_promotion obj).

(** [getGameState]. *)
Definition getGameState (chess : Chess) : GameState :=
  mkGameState (chess_fen chess) (chess_pgn chess)
    (chess_isGameOver chess) (chess_isCheck chess) (chess_isCheckmate chess)
    (chess_isStalemate chess) (chess_isDraw chess) (chess_turn chess)
    (map (fun move =>
            mkGameMove (mo_san move) (uciOf move)
              (match mo_after move with
               | Some after => if String.eqb after "" then chess_fen chess else after
               | None => chess_fen chess
               end))
         (chess_history chess)).

(** [makeMove]: the result and the instance after the call. *)
Definition makeMove (chess : Chess) (move : string) : option GameMove * Chess :=
  match chess_move chess move with
  | Moved moveObj chess => (Some (mkGameMove (mo_san moveObj) (uciOf moveObj) (chess_fen chess)), chess)
  | Refused chess => (None, chess)
  | Thrown chess => (None, chess)
  end.

(** [isLegalMove]: the move is tried on a copy. *)
Definition isLegalMove (chess : Chess) (move : string) : bool :=
  match chess_move (newChess (Some (chess_fen chess))) move with
  | Moved _ _ => true
  | Refused _ | Thrown _ => false
  end.

Section AIMove.
Variable tanh : number -> number.
Variable learningService : ChessLearningService number.
(** What the engine process writes to its standard output while the
    request with a given promise is pending: the chunks of the ['data']
    events, in order. *)
Variable answer : nat -> list string.
Variable difficulty : number.
Variable draws : Draws.

(** The last part of the [try]: the engine is asked ([currentFen] is the
    position read at the start of the operation) and its promise is
    awaited. A call that finds the client not ready, or whose promise is
    not resolved by the output of the process, is still waiting. A
    promise resolved with [undefined] (a [bestmove] line without a second
    field) hands [undefined] to [chess.move]; chess.js 1.x turns a value
    that is no move down with an exception and leaves the board as it
    is. *)
Definition fromEngine (currentFen : string) (chess : Chess)
    (sf : Stockfish.StockfishEngine) : Attempt Chess :=
  let thinkingTime := Math_max 500 (Math_min 3000 difficulty) in
  let '(completion, sf) := Stockfish.getBestMove sf currentFen thinkingTime in
  let '(value, sf) :=
    match completion with
    | Stockfish.Returned bestMove =>
        (Some (Stockfish.BestMoveValue (Some bestMove)), sf)
    | Stockfish.Pending promise =>
        Stockfish.awaitPromise sf promise (answer promise)
    | Stockfish.AwaitingReady => (None, sf)
    end in
  match value with
  | None => Done Unsettled chess sf
  | Some (Stockfish.BestMoveValue (Some bestMove)) =>
      match chess_move chess bestMove with
      | Moved moveObj chess =>
          Done (Fulfilled (Some (mkGameMove (mo_san moveObj) bestMove (chess_fen chess)))) chess sf
      | Refused chess => Done (Fulfilled None) chess sf
      | Thrown chess => Raised chess sf
      end
  | Some _ => Raised chess sf
  end.

(** The loop over [commonMoves]: the first move the rules engine plays is
    returned; [None] when the loop ends without one. *)
Fixpoint tryLearned (chess : Chess) (commonMoves : list string)
  : option (option GameMove) * Chess + Chess :=
  match commonMoves with
  | [] => inl (None, chess)
  | learnedMove :: rest =>
      match chess_move chess learnedMove with
      | Moved moveObj chess =>
          inl (Some (Some (mkGameMove (mo_san moveObj) learnedMove (chess_fen chess))), chess)
      | Refused chess => tryLearned chess rest
      | Thrown chess => inr chess
      end
  end.

(** The middle part of the [try]: the position database, then the
    engine. *)
Definition fromStore (currentFen : string) (chess : Chess)
    (sf : Stockfish.StockfishEngine) : Attempt Chess :=
  if hasLearnedPosition learningService currentFen then
    let commonMoves := getCommonMoves learningService currentFen in
    let useLearnedMove := (learnedDraw draws <? difficulty / 2000)%float in
    if useLearnedMove && negb (bool_decide (commonMoves = [])) then
      match tryLearned chess commonMoves with
      | inl (Some result, chess) => Done (Fulfilled result) chess sf
      | inl (None, chess) => fromEngine currentFen chess sf
      | inr chess => Raised chess sf
      end
    else fromEngine currentFen chess sf
  else fromEngine currentFen chess sf.

(** The body of the [try]: the opening book, then the rest. *)
Definition fromBook (chess : Chess) (sf : Stockfish.StockfishEngine) : Attempt Chess :=
  let currentFen := chess_fen chess in
  let moveCount := length (chess_history chess) in
  if (moveCount <? 15)%nat then
    match getBookMove tanh learningService currentFen (bookDraw draws) with
    | Some bookMove =>
        if String.eqb bookMove "" then fromStore currentFen chess sf
        else match chess_move chess bookMove with
             | Moved moveObj chess =>
                 Done (Fulfilled (Some (mkGameMove (mo_san moveObj) bookMove (chess_fen chess)))) chess sf
             | Refused chess => fromStore currentFen chess sf
             | Thrown chess => Raised chess sf
             end
    | None => fromStore currentFen chess sf
    end
  else fromStore currentFen chess sf.

(** [moves[Math.floor(Math.random() * moves.length)]]. *)
Definition randomMove (moves : list string) : option string :=
  match floorZ (fallbackDraw draws * JSNumber.of_nat (length moves))%float with
  | Some i => if (0 <=? i)%Z then moves !! Z.to_nat i else None
  | None => None
  end.

(** The [catch] of [makeAIMove]: a random legal move. When the rules
    engine does not play the chosen move, nothing catches the error. *)
Definition randomFallback (chess : Chess) : AIMoveOutcome * Chess :=
  let moves := chess_moves chess in
  if bool_decide (moves = []) then (Fulfilled None, chess)
  else match randomMove moves with
       | Some move =>
           match chess_move chess move with
           | Moved moveObj chess =>
               (Fulfilled (Some (mkGameMove (mo_san moveObj) (uciOf moveObj) (chess_fen chess))), chess)
           | Refused chess => (Failed, chess)
           | Thrown chess => (Failed, chess)
           end
       | None => (Failed, chess)
       end.

(** The [try]/[catch] of [makeAIMove]: an exception raised in the body
    leads to the random fallback. *)
Definition withFallback (attempt : Attempt Chess)
  : AIMoveOutcome * Chess * Stockfish.StockfishEngine :=
  match attempt with
  | Done outcome chess sf => (outcome, chess, sf)
  | Raised chess sf =>
      let '(outcome, chess) := randomFallback chess in (outcome, chess, sf)
  end.

(** [makeAIMove]: the outcome, the instance and the engine client after
    the call. *)
Definition makeAIMove (chess : Chess) (sf : Stockfish.StockfishEngine)
  : AIMoveOutcome * Chess * Stockfish.StockfishEngine :=
  withFallback (fromBook chess sf).

End AIMove.
End Service.

End ChessGame.

(* ===================================================================== *)
(** * A small rules engine, for the examples                               *)
(* ===================================================================== *)

Module Toy.
Import JSString JSNumber Rules.

(** A game on which four first moves exist, each playable once, in any
    order, by either side. It stands in for [chess.js] where an example
    needs a rules engine that runs. *)
Definition catalogue : list MoveObject :=
  [ mkMoveObject "e4" "e2" "e4" None None;
    mkMoveObject "d4" "d2" "d4" None None;
    mkMoveObject "Nf3" "g1" "f3" None None;
    mkMoveObject "c4" "c2" "c4" None None ].

(** The instance: the moves played so far, oldest first. *)
Record Board := mkBoard { played : list MoveObject }.

Definition names (obj : MoveObject) : list string :=
  [mo_san obj; (mo_from obj ++ mo_to obj)%string].

Definition isPlayed (b : Board) (obj : MoveObject) : bool :=
  existsb (fun p => String.eqb (mo_san p) (mo_san obj)) (played b).

(** The moves still open. *)
Definition openMoves (b : Board) : list MoveObject :=
  List.filter (fun obj => negb (isPlayed b obj)) catalogue.

(** The position string: the moves played, the side to move, no castling
    right, no en-passant square, and the two counters. *)
Definition counter (n : nat) : string :=
  NilEmpty.string_of_uint (Nat.to_uint n).

Definition boardFen (b : Board) : string :=
  join " " [ join "/" ("toy" :: map mo_san (played b));
             if Nat.even (length (played b)) then "w" else "b";
             "-"; "-"; "0"; counter (S (Nat.div2 (length (played b)))) ].

(** [move]: a move of the catalogue, by its SAN or by its squares, is
    played when it is still open. Another one is turned down, by an
    exception when [throwing] and by null otherwise; the instance is left
    as it was. *)
Definition boardMove (throwing : bool) (b : Board) (m : string) : MoveResult Board :=
  match List.find (fun obj => existsb (String.eqb m) (names obj)) (openMoves b) with
  | Some obj =>
      let b' := mkBoard (played b ++ [obj]) in
      Moved (mkMoveObject (mo_san obj) (mo_from obj) (mo_to obj) None (Some (boardFen b'))) b'
  | None => if throwing then Thrown b else Refused b
  end.

Definition engine (throwing : bool) : RulesEngine Board := {|
  newChess := fun _ => mkBoard [];
  chess_fen := boardFen;
  chess_pgn := fun b => join " " (map mo_san (played b));
  chess_turn := fun b => if Nat.even (length (played b)) then "w" else "b";
  chess_history := played;
  chess_moves := fun b => map mo_san (openMoves b);
  chess_move := boardMove throwing;
  chess_isGameOver := fun b => bool_decide (openMoves b = []);
  chess_isCheck := fun _ => false;
  chess_isCheckmate := fun _ => false;
  chess_isStalemate := fun b => bool_decide (openMoves b = []);
  chess_isDraw := fun b => bool_decide (openMoves b = [])
|}.

(** The instance before the first move and its position string. *)
Definition start : Board := mkBoard [].

(** A stand-in for [Math.tanh] in the examples: x(27 + x^2)/(27 + 9x^2),
    kept within [-1, 1]. *)
Definition tanhApprox (x : number) : number :=
  let y := (x * (27 + x * x) / (27 + 9 * (x * x)))%float in
  Math_max (-1) (Math_min 1 y).

(** A stand-in for [parseFloat] in the examples: an unsigned decimal
    numeral with at most one point, as the quotient of two integers. *)
Definition digitsOnly (s : string) : bool :=
  negb (String.eqb s "") &&
  forallb (fun c => let n := nat_of_ascii c in (48 <=? n)%nat && (n <=? 57)%nat)
          (list_ascii_of_string s).

Definition parseDecimal (s : string) : number :=
  match split "." s with
  | [whole] =>
      if digitsOnly whole then parseInt (Some whole) else NaN
  | [whole; fraction] =>
      if digitsOnly whole && digitsOnly fraction
      then (parseInt (Some (whole ++ fraction)%string)
            / JSNumber.of_Z (10 ^ Z.of_nat (String.length fraction)))%float
      else NaN
  | _ => NaN
  end.

End Toy.

(* ===================================================================== *)
(** * The engine client over time                                          *)
(* ===================================================================== *)

Module StockfishSession.
Import JSString JSNumber Stockfish.

(** What happens to the client after its construction: a call of one of
    its two asynchronous methods, at the point where the body goes on
    after the wait for readiness (a call that finds the client not ready
    keeps waiting and is listed again when it goes on), a chunk of the
    standard output of the child process, or its ['error'] event. *)
Inductive Event :=
| CallBestMove (fen : string) (timeMs : number)
| CallEvaluate (fen : string) (searchDepth : number)
| Stdout (data : string)
| ProcessError.

(** The client after an event. *)
Definition react (st : StockfishEngine) (ev : Event) : StockfishEngine :=
  match ev with
  | CallBestMove fen timeMs => snd (getBestMove st fen timeMs)
  | CallEvaluate fen searchDepth => snd (evaluatePosition st fen searchDepth)
  | Stdout data => handleEngineOutput st data
  | ProcessError => onError st
  end.

(** The client after its construction and a sequence of events. *)
Definition session (spawned : option ChildProcess) (events : list Event) : StockfishEngine :=
  foldl react (initEngine spawned) events.

(** The promises resolved so far, oldest first. *)
Definition resolvedPromises (st : StockfishEngine) : list nat := (settled st).*1.

(** The calls of best-move resolvers so far, oldest first. *)
Definition bestMovesSettled (st : StockfishEngine) : list (nat * option string) :=
  omap (fun call => match call with
                    | (k, BestMoveValue token) => Some (k, token)
                    | (_, EvaluationValue _) => None
                    end) (settled st).

(** The resolver of the pending [getBestMove] call, if one is pending. *)
Definition pendingBestMove (st : StockfishEngine) : option nat :=
  resolveMap st !! "bestmove".

(** A line that [handleEngineOutput] takes for the answer to a best-move
    request, and the token it resolves the request with. *)
Definition isBestMoveLine (line : string) : bool := startsWith "bestmove" line.

Definition bestMoveToken (line : string) : option string := split " " line !! 1%nat.

(** The commands written to the child process so far. *)
Definition written (st : StockfishEngine) : list Command :=
  match engine st with
  | Some p => stdin p
  | None => []
  end.

(** The bookkeeping of the promises is consistent: the resolvers in the
    map and the promises resolved so far were all numbered before
    [fresh], no promise was resolved twice, no resolver in the map
    belongs to a resolved promise, and the two kinds of request do not
    share a resolver. *)
Record consistent (st : StockfishEngine) : Prop := mkConsistent {
  pending_numbered : forall kind k, resolveMap st !! kind = Some k -> (k < fresh st)%nat;
  resolved_numbered : forall k, k ∈ resolvedPromises st -> (k < fresh st)%nat;
  resolved_once : NoDup (resolvedPromises st);
  pending_unresolved : forall kind k, resolveMap st !! kind = Some k -> k ∉ resolvedPromises st;
  pending_distinct : forall kind1 kind2 k,
    resolveMap st !! kind1 = Some k -> resolveMap st !! kind2 = Some k -> kind1 = kind2
}.

(** A promise that no resolver in the map can resolve any more. *)
Definition orphaned (k : nat) (st : StockfishEngine) : Prop :=
  (k < fresh st)%nat /\ forall kind, resolveMap st !! kind <> Some k.

(** A chunk of output made of whole lines, each ended by a line feed. *)
Definition lineFeed : string := String "010" EmptyString.

Definition chunkOf (lines : list string) : string :=
  (join lineFeed lines ++ lineFeed)%string.

(** A client whose process started and completed the handshake. *)
Definition started : list Event := [Stdout (chunkOf ["uciok"; "readyok"])].

(** The evaluation [evaluatePosition] returns without a process. *)
Definition fallbackEvaluation : EngineEvaluation :=
  mkEvaluation 0%float None "e2e4" ["e2e4"] 1%float.

End StockfishSession.

(* ===================================================================== *)
(** * The learning service: queries, statistics and loading                *)
(* ===================================================================== *)

Module LearningStore.
Import JSString JSNumber Rules Learning.

(** The truth value of a number: false for 0, -0 and NaN. *)
Definition truthy (x : number) : bool := negb (isNaN x || PrimFloat.is_zero x).

(** [getLearnedEvaluation]: [posData?.evaluation || null]. *)
Definition getLearnedEvaluation (svc : ChessLearningService number) (fen : string)
  : option number :=
  match positionDatabase svc !! normalizePosition fen with
  | Some posData =>
      if truthy (pd_evaluation posData) then Some (pd_evaluation posData) else None
  | None => None
  end.

(** The object [getStatistics] returns. *)
Record Statistics := mkStatistics {
  openingBookSize : nat;
  positionDatabaseSize : nat;
  totalOpeningMoves : nat
}.

(** [getStatistics]: the sizes of the two maps, and the sum of the lengths
    of the arrays of the opening book. *)
Definition getStatistics {num} (svc : ChessLearningService num) : Statistics :=
  mkStatistics (size (openingBook svc)) (size (positionDatabase svc))
    (map_fold (fun _ moves sum => (sum + length moves)%nat) 0%nat (openingBook svc)).

(** A completed game as [loadLearningData] reads it: its result and its
    rows of the table [moves], in the order of their move numbers. *)
Record Game := mkGame {
  game_result : option string;
  game_moves : list MoveRow
}.

Section Loading.
Context {num : Type} `{Arithmetic num}.
Variable parseFloat : string -> num.
Context {Chess : Type} `{RulesEngine Chess}.

(** [game.result || '1/2-1/2']. *)
Definition resultOf (game : Game) : string :=
  match game_result game with
  | Some r => if String.eqb r "" then "1/2-1/2" else r
  | None => "1/2-1/2"
  end.

(** [loadLearningData], given the completed games the query returns. *)
Definition loadLearningData (svc : ChessLearningService num)
    (completedGames : list Game) : ChessLearningService num :=
  foldl (fun svc game =>
           processGameForLearning parseFloat svc (resultOf game) (game_moves game))
        svc completedGames.

(** [reload]: both maps are cleared, then loaded. *)
Definition reload (svc : ChessLearningService num) (completedGames : list Game)
  : ChessLearningService num :=
  loadLearningData (mkService ∅ ∅) completedGames.

(** The instance that [processGameForLearning] has reached after the rows
    [rows], from the instance [chess]; [None] when [chess.move] threw on
    one of them. *)
Fixpoint replay (chess : Chess) (rows : list MoveRow) : option Chess :=
  match rows with
  | [] => Some chess
  | row :: rest =>
      match chess_move chess (row_san row) with
      | Moved _ next => replay next rest
      | Refused next => replay next rest
      | Thrown _ => None
      end
  end.

End Loading.

(** ** The shape of the two maps *)

Section Shape.
Context {num : Type}.

(** The entries of a position in the opening book: at least one, for
    different moves, each filed under the key of the position and counted
    at least once. *)
Definition entriesShaped (key : string) (entries : list (OpeningMove num)) : Prop :=
  entries <> [] /\
  NoDup (om_move <$> entries) /\
  Forall (fun m => om_fen m = key /\ (1 <= om_count m)%nat) entries.

(** The record of a position in the position database: filed under its
    key, with its moves listed once each and no more moves than games. *)
Definition recordShaped (key : string) (posData : PositionData num) : Prop :=
  pd_fen posData = key /\
  pd_bestMoves posData <> [] /\
  NoDup (pd_bestMoves posData) /\
  (length (pd_bestMoves posData) <= pd_gamesPlayed posData)%nat.

(** Every key of the two maps is a position key, and every value has the
    shape above. *)
Definition shaped (svc : ChessLearningService num) : Prop :=
  (forall key entries,
     openingBook svc !! key = Some entries ->
     normalizePosition key = key /\ entriesShaped key entries) /\
  (forall key posData,
     positionDatabase svc !! key = Some posData ->
     normalizePosition key = key /\ recordShaped key posData).

End Shape.

End LearningStore.

(* ===================================================================== *)
(** * The storage of games and moves: [server/storage.ts]                  *)
(* ===================================================================== *)

Module Storage.
Import JSString JSNumber.

(** A row of the table [games], with the columns the routes read and
    write; the time columns are left out. A nullable column is an
    option. *)
Record Game := mkGame {
  g_id : string;
  g_whitePlayerId : option string;
  g_blackPlayerId : option string;
  g_guestId : option string;
  g_isGuestGame : bool;
  g_status : string;
  g_result : option string;
  g_playerColor : string;
  g_aiDifficulty : number;
  g_currentFen : string;
  g_pgn : string
}.

(** [InsertGame], as the route that creates a game fills it. *)
Record InsertGame := mkInsertGame {
  ig_whitePlayerId : option string;
  ig_blackPlayerId : option string;
  ig_guestId : option string;
  ig_isGuestGame : bool;
  ig_status : string;
  ig_playerColor : string;
  ig_aiDifficulty : number;
  ig_currentFen : string;
  ig_pgn : string
}.

(** [Partial<Game>], with the columns the routes update; [None] is a
    column that the update does not name. *)
Record GameUpdate := mkGameUpdate {
  u_currentFen : option string;
  u_pgn : option string;
  u_status : option string;
  u_result : option string
}.

(** [InsertMove], with the columns the routes fill; the other columns
    ([evaluation], [bestMove], [classification], [timeSpent]) are not
    set by them. *)
Record InsertMove := mkInsertMove {
  im_gameId : string;
  im_moveNumber : nat;
  im_side : string;
  im_san : string;
  im_uci : string;
  im_fen : string
}.

(** A row of the table [moves]. *)
Record Move := mkMove {
  m_id : string;
  m_gameId : string;
  m_moveNumber : nat;
  m_side : string;
  m_san : string;
  m_uci : string;
  m_fen : string;
  m_evaluation : option string
}.

(** [interface IStorage], the operations on games and moves. Every
    operation returns a promise: [None] stands for a promise that is
    rejected. *)
Class IStorage (S : Type) := {
  createGame : S -> InsertGame -> option (Game * S);
  getGame : S -> string -> option (option Game);
  updateGame : S -> string -> GameUpdate -> option (Game * S);
  addMove : S -> InsertMove -> option (Move * S);
  getGameMoves : S -> string -> option (list Move)
}.

(** [{ ...game, ...updates }]. *)
Definition applyUpdate (game : Game) (updates : GameUpdate) : Game :=
  mkGame (g_id game) (g_whitePlayerId game) (g_blackPlayerId game)
    (g_guestId game) (g_isGuestGame game)
    (default (g_status game) (u_status updates))
    (match u_result updates with
     | Some r => Some r
     | None => g_result game
     end)
    (g_playerColor game) (g_aiDifficulty game)
    (default (g_currentFen game) (u_currentFen updates))
    (default (g_pgn game) (u_pgn updates)).

(** [x || null] for a string that may be null. *)
Definition orNull (x : option string) : option string :=
  match x with
  | Some s => if String.eqb s "" then None else Some s
  | None => None
  end.

(** ** [class MemStorage] *)

(** The maps of games and of moves, and the number of identifiers drawn
    from [nanoid] so far. *)
Record MemStorage := mkMemStorage {
  games : gmap string Game;
  moves : gmap string (list Move);
  drawn : nat
}.

Section Mem.
(** [nanoid()]: the identifier it gives at its n-th call. *)
Variable nanoid : nat -> string.

Definition mem_createGame (st : MemStorage) (game : InsertGame)
  : option (Game * MemStorage) :=
  let newGame :=
    mkGame (nanoid (drawn st))
      (orNull (ig_whitePlayerId game)) (orNull (ig_blackPlayerId game))
      (orNull (ig_guestId game)) (ig_isGuestGame game) (ig_status game) None
      (ig_playerColor game)
      (if isNaN (ig_aiDifficulty game) || PrimFloat.is_zero (ig_aiDifficulty game)
       then 1600%float else ig_aiDifficulty game)
      (ig_currentFen game) (ig_pgn game) in
  Some (newGame,
        mkMemStorage (<[g_id newGame := newGame]> (games st)) (moves st)
          (S (drawn st))).

Definition mem_getGame (st : MemStorage) (id : string) : option (option Game) :=
  Some (games st !! id).

(** [updateGame] throws when the game is not there. *)
Definition mem_updateGame (st : MemStorage) (id : string) (updates : GameUpdate)
  : option (Game * MemStorage) :=
  match games st !! id with
  | None => None
  | Some game =>
      let updatedGame := applyUpdate game updates in
      Some (updatedGame,
            mkMemStorage (<[id := updatedGame]> (games st)) (moves st) (drawn st))
  end.

Definition mem_addMove (st : MemStorage) (move : InsertMove)
  : option (Move * MemStorage) :=
  let newMove :=
    mkMove (nanoid (drawn st)) (im_gameId move) (im_moveNumber move)
      (im_side move) (im_san move) (im_uci move) (im_fen move) None in
  let gameMoves := default [] (moves st !! im_gameId move) in
  Some (newMove,
        mkMemStorage (games st)
          (<[im_gameId move := (gameMoves ++ [newMove])%list]> (moves st))
          (S (drawn st))).

Definition mem_getGameMoves (st : MemStorage) (gameId : string)
  : option (list Move) :=
  Some (default [] (moves st !! gameId)).

Definition memStorage : IStorage MemStorage := {|
  createGame := mem_createGame;
  getGame := mem_getGame;
  updateGame := mem_updateGame;
  addMove := mem_addMove;
  getGameMoves := mem_getGameMoves
|}.

End Mem.

(** [new MemStorage()]. *)
Definition newMemStorage : MemStorage := mkMemStorage ∅ ∅ 0.

End Storage.

(* ===================================================================== *)
(** * The routes of the games: [server/routes.ts]                          *)
(* ===================================================================== *)

Module Routes.
Import JSString JSNumber Rules Learning ChessGame Storage.

(** What the handlers read of a request: the marks that [optionalAuth]
    leaves ([isGuest], [guestId]), the subject of the signed-in user
    ([req.user.claims.sub], [None] when there is no user), the identifier
    in the path and the fields of the body. *)
Record Request := mkRequest {
  isGuest : bool;
  guestId : option string;
  userSub : option string;
  paramsId : string;
  bodyMove : string;
  bodyPlayerColor : string;
  bodyAiDifficulty : option number
}.

(** The bodies the handlers send. *)
Inductive Body :=
| Message (message : string)
| GameBody (game : Game)
| MoveOver (move : GameMove) (gameState : GameState)
| MovePlayed (playerMove : GameMove) (aiMove : option GameMove)
    (gameState : GameState) (gameOver : bool)
| Resigned (game : Game) (result : string)
| DrawAccepted (game : Game) (result : string).

(** [res.status(code).json(body)]; [res.json(body)] has the code 200. *)
Record Response := mkResponse {
  statusCode : nat;
  body : Body
}.

Definition notFound : Response := mkResponse 404 (Message "Game not found").
Definition accessDenied : Response := mkResponse 403 (Message "Access denied").

(** [a === b] for a nullable column and a string of the request. *)
Definition sameString (a b : option string) : bool :=
  match a, b with
  | Some x, Some y => String.eqb x y
  | _, _ => false
  end.

(** The ownership test of the handlers: whether access is denied.
    [None] when [req.user.claims.sub] throws. *)
Definition denied (req : Request) (game : Game) : option bool :=
  if isGuest req then
    Some (negb (sameString (g_guestId game) (guestId req)) || negb (g_isGuestGame game))
  else
    match userSub req with
    | None => None
    | Some userId =>
        Some (negb (sameString (g_whitePlayerId game) (Some userId)) &&
              negb (sameString (g_blackPlayerId game) (Some userId)))
    end.

Section Handlers.
Context {S : Type} {storage : IStorage S}.
Context {Chess : Type} {rules : RulesEngine Chess}.

(** [POST /api/games]. *)
Definition postGame (st : S) (req : Request) : Response * S :=
  let failed := mkResponse 500 (Message "Failed to create game") in
  let chessGame := newChess None in
  let gameState := getGameState chessGame in
  let aiDifficulty :=
    match bodyAiDifficulty req with
    | Some d => if isNaN d || PrimFloat.is_zero d then 1600%float else d
    | None => 1600%float
    end in
  let playerColor := bodyPlayerColor req in
  let gameData :=
    if isGuest req then
      Some (mkInsertGame
              (if String.eqb playerColor "white" then None else Some "anveshai")
              (if String.eqb playerColor "black" then None else Some "anveshai")
              (guestId req) true "active" playerColor aiDifficulty
              (gs_fen gameState) (gs_pgn gameState))
    else
      match userSub req with
      | None => None
      | Some userId =>
          Some (mkInsertGame
                  (if String.eqb playerColor "white" then Some userId else Some "anveshai")
                  (if String.eqb playerColor "black" then Some userId else Some "anveshai")
                  None false "active" playerColor aiDifficulty
                  (gs_fen gameState) (gs_pgn gameState))
      end in
  match gameData with
  | None => (failed, st)
  | Some gameData =>
      match createGame st gameData with
      | None => (failed, st)
      | Some (game, st) => (mkResponse 200 (GameBody game), st)
      end
  end.

(** The result that [POST /api/games/:id/resign] records. *)
Definition resignResult (req : Request) (game : Game) : string :=
  if isGuest req || sameString (g_whitePlayerId game) (userSub req)
  then (if String.eqb (g_playerColor game) "white" then "0-1" else "1-0")
  else "1/2-1/2".

(** [POST /api/games/:id/resign]. *)
Definition postResign (st : S) (req : Request) : Response * S :=
  let failed := mkResponse 500 (Message "Failed to resign game") in
  let gameId := paramsId req in
  match getGame st gameId with
  | None => (failed, st)
  | Some None => (notFound, st)
  | Some (Some game) =>
      match denied req game with
      | None => (failed, st)
      | Some true => (accessDenied, st)
      | Some false =>
          if negb (String.eqb (g_status game) "active")
          then (mkResponse 400 (Message "Game is not active"), st)
          else
            let result := resignResult req game in
            match updateGame st gameId
                    (mkGameUpdate None None (Some "completed") (Some result)) with
            | None => (failed, st)
            | Some (updatedGame, st) =>
                (mkResponse 200 (Resigned updatedGame result), st)
            end
      end
  end.

(** [POST /api/games/:id/offer-draw]. *)
Definition postOfferDraw (st : S) (req : Request) : Response * S :=
  let failed := mkResponse 500 (Message "Failed to offer draw") in
  let gameId := paramsId req in
  match getGame st gameId with
  | None => (failed, st)
  | Some None => (notFound, st)
  | Some (Some game) =>
      match denied req game with
      | None => (failed, st)
      | Some true => (accessDenied, st)
      | Some false =>
          if negb (String.eqb (g_status game) "active")
          then (mkResponse 400 (Message "Game is not active"), st)
          else
            match updateGame st gameId
                    (mkGameUpdate None None (Some "completed") (Some "1/2-1/2")) with
            | None => (failed, st)
            | Some (updatedGame, st) =>
                (mkResponse 200 (DrawAccepted updatedGame "1/2-1/2"), st)
            end
      end
  end.

Section Moves.
Variable tanh : number -> number.
Variable learningService : ChessLearningService number.
Variable answer : nat -> list string.
Variable draws : Draws.

(** [Math.floor(chessGame.getGameState().moves.length / 2) + 1]. *)
Definition moveNumberOf (chess : Chess) : nat :=
  (length (gs_moves (getGameState chess)) / 2 + 1)%nat.

(** The result recorded when the move of the player ends the game;
    [gameState] is the state read before the move. *)
Definition gameOverResult (gameState newGameState : GameState) : string :=
  let result := "1/2-1/2" in
  if gs_isCheckmate newGameState
  then (if String.eqb (gs_turn gameState) "w" then "0-1" else "1-0")
  else result.

(** The part of [POST /api/games/:id/moves] after the move of the player
    has been stored: the move of the AI. [None] as response: the promise
    of [makeAIMove] is still pending, and nothing is sent. *)
Definition replyOfAI (st : S) (sf : Stockfish.StockfishEngine) (game : Game)
    (gameId : string) (playerMove : GameMove) (chessGame : Chess)
  : option Response * S * Stockfish.StockfishEngine :=
  let failed := mkResponse 500 (Message "Failed to make move") in
  match makeAIMove tanh learningService answer (g_aiDifficulty game) draws
          chessGame sf with
  | (Unsettled, _, sf) => (None, st, sf)
  | (Failed, _, sf) => (Some failed, st, sf)
  | (Fulfilled aiMove, chessGame, sf) =>
      let stored :=
        match aiMove with
        | Some aiMove =>
            let aiMoveData :=
              mkInsertMove gameId (moveNumberOf chessGame)
                (if String.eqb (gs_turn (getGameState chessGame)) "w" then "b" else "w")
                (san aiMove) (uci aiMove) (fen aiMove) in
            match addMove st aiMoveData with
            | None => inl st
            | Some (_, st) =>
                match updateGame st gameId
                        (mkGameUpdate (Some (fen aiMove))
                           (Some (gs_pgn (getGameState chessGame))) None None) with
                | None => inl st
                | Some (_, st) => inr st
                end
            end
        | None => inr st
        end in
      match stored with
      | inl st => (Some failed, st, sf)
      | inr st =>
          let finalGameState := getGameState chessGame in
          (Some (mkResponse 200
                   (MovePlayed playerMove aiMove finalGameState
                      (gs_isGameOver finalGameState))), st, sf)
      end
  end.

(** [POST /api/games/:id/moves]. The position string of the game is one
    that the constructor of the rules engine accepts. *)
Definition postMove (st : S) (sf : Stockfish.StockfishEngine) (req : Request)
  : option Response * S * Stockfish.StockfishEngine :=
  let failed := mkResponse 500 (Message "Failed to make move") in
  let gameId := paramsId req in
  let move := bodyMove req in
  match getGame st gameId with
  | None => (Some failed, st, sf)
  | Some None => (Some notFound, st, sf)
  | Some (Some game) =>
      match denied req game with
      | None => (Some failed, st, sf)
      | Some true => (Some accessDenied, st, sf)
      | Some false =>
          let chessGame := newChess (Some (g_currentFen game)) in
          let gameState := getGameState chessGame in
          let isPlayerTurn :=
            (String.eqb (gs_turn gameState) "w" && String.eqb (g_playerColor game) "white")
            || (String.eqb (gs_turn gameState) "b" && String.eqb (g_playerColor game) "black") in
          if negb isPlayerTurn
          then (Some (mkResponse 400 (Message "Not your turn")), st, sf)
          else
            match makeMove chessGame move with
            | (None, _) => (Some (mkResponse 400 (Message "Invalid move")), st, sf)
            | (Some playerMove, chessGame) =>
                let moveData :=
                  mkInsertMove gameId (moveNumberOf chessGame) (gs_turn gameState)
                    (san playerMove) (uci playerMove) (fen playerMove) in
                match addMove st moveData with
                | None => (Some failed, st, sf)
                | Some (_, st) =>
                    match updateGame st gameId
                            (mkGameUpdate (Some (fen playerMove))
                               (Some (gs_pgn (getGameState chessGame))) None None) with
                    | None => (Some failed, st, sf)
                    | Some (_, st) =>
                        let newGameState := getGameState chessGame in
                        if gs_isGameOver newGameState then
                          let result := gameOverResult gameState newGameState in
                          match updateGame st gameId
                                  (mkGameUpdate None None (Some "completed")
                                     (Some result)) with
                          | None => (Some failed, st, sf)
                          | Some (_, st) =>
                              (Some (mkResponse 200 (MoveOver playerMove newGameState)),
                               st, sf)
                          end
                        else replyOfAI st sf game gameId playerMove chessGame
                    end
                end
            end
      end
  end.

End Moves.
End Handlers.

End Routes.

(* ===================================================================== *)
(** * Notions for the properties of the engine client                    *)
(* ===================================================================== *)

Module StockfishSpec.
Import JSString JSNumber Stockfish.
Local Open Scope list_scope.

(** The difference [classifyMove] buckets. *)
Definition scoreGap (actual reference : EngineEvaluation) : number :=
  PrimFloat.abs (score actual - score reference)%float.

(** An evaluation with the score [s], for the boundary tests. *)
Definition evaluationOfScore (s : number) : EngineEvaluation :=
  mkEvaluation s None "" [] 12%float.

(** An evaluation frame is a line that [handleEngineOutput] passes to
    [parseEvaluation]. *)
Definition isFrame (line : string) : bool := startsWith "info" line.

(** A frame that reports a depth of 10 or more. *)
Definition deepFrame (line : string) : bool :=
  isFrame line && (10 <=? frameDepth line)%float.

(** The calls of evaluation resolvers so far, oldest first. *)
Definition evaluationsSettled (st : StockfishEngine) : list (nat * EngineEvaluation) :=
  omap (fun call => match call with
                    | (k, EvaluationValue e) => Some (k, e)
                    | (_, BestMoveValue _) => None
                    end) (settled st).

(** The resolver of the pending [evaluate] call, if one is pending. *)
Definition pendingEvaluation (st : StockfishEngine) : option nat :=
  resolveMap st !! "evaluation".

(** An engine client with an [evaluate] call pending. *)
Definition evaluating : StockfishEngine :=
  snd (evaluatePosition
         (feed (initEngine (Some (mkProcess []))) ["uciok"; "readyok"])
         "rnbqkbnr/pppppppp/8/8/8/8/PPPPPPPP/RNBQKBNR w KQkq - 0 1" 15%float).

(** A move token: four or five characters, the squares of departure and
    arrival and possibly the piece of a promotion (for example e2e4 and
    e7e8q). *)
Definition isFile (c : ascii) : bool :=
  let n := nat_of_ascii c in (97 <=? n)%nat && (n <=? 104)%nat.

Definition isRank (c : ascii) : bool :=
  let n := nat_of_ascii c in (49 <=? n)%nat && (n <=? 56)%nat.

Definition isPromotion (c : ascii) : bool :=
  existsb (Ascii.eqb c) ["q"; "r"; "b"; "n"]%char.

Definition validMoveToken (token : string) : bool :=
  match token with
  | String f1 (String r1 (String f2 (String r2 rest))) =>
      isFile f1 && isRank r1 && isFile f2 && isRank r2 &&
      match rest with
      | EmptyString => true
      | String p EmptyString => isPromotion p
      | _ => false
      end
  | _ => false
  end.

(** The position after 1. f3 e5 2. g4 Qh4#: White is mated. *)
Definition foolsMate : string :=
  "rnb1kbnr/pppp1ppp/8/4p3/6Pq/5P2/PPPPP2P/RNBQKBNR w KQkq - 1 3".

(** C5 as stated asks for "none" where the rules engine reports no legal
    move. *)
Definition none_without_legal_moves : Prop :=
  forall (legalMoves : string -> list string) (fen : string) (timeMs : number),
    legalMoves fen = [] ->
    fst (getBestMove (initEngine None) fen timeMs) = Returned "none".

End StockfishSpec.

(* ===================================================================== *)
(** * Notions for the properties of the learning service                 *)
(* ===================================================================== *)

Module LearningSpec.
Import JSString JSNumber Rules Learning.
Local Open Scope list_scope.

(** A full position string: six fields separated by single spaces. *)
Definition fenOf (placement turn castling enPassant halfmove fullmove : string) : string :=
  join " " [placement; turn; castling; enPassant; halfmove; fullmove].

(** One observation of a move: the result of its game, the side that
    played it and its evaluation. *)
Record Observation (num : Type) := mkObservation {
  ob_whiteWon : bool;
  ob_blackWon : bool;
  ob_draw : bool;
  ob_side : string;
  ob_evaluation : num
}.
Arguments mkObservation {num}.
Arguments ob_whiteWon {num}.
Arguments ob_blackWon {num}.
Arguments ob_draw {num}.
Arguments ob_side {num}.
Arguments ob_evaluation {num}.

Section Running.
Context {num : Type} {A : Arithmetic num}.

(** The outcome value of an observation. *)
Definition outcomeOf (o : Observation num) : num :=
  winsFor (ob_side o) (ob_whiteWon o) (ob_blackWon o) (ob_draw o).

(** The observations of one move at one position, recorded in order. *)
Definition recordAll (book : gmap string (list (OpeningMove num)))
    (fen move : string) (obs : list (Observation num)) :=
  foldl (fun book o =>
           addToOpeningBook book fen move (ob_whiteWon o) (ob_blackWon o)
             (ob_draw o) (ob_side o) (ob_evaluation o)) book obs.

Definition ingestAll (db : gmap string (PositionData num))
    (fen move : string) (evaluations : list num) :=
  foldl (fun db evaluation => addToPositionDatabase db fen move evaluation)
        db evaluations.

(** The entry of a move at a position. *)
Definition entryOf (book : gmap string (list (OpeningMove num)))
    (fen move : string) : option (OpeningMove num) :=
  List.find (fun m => String.eqb (om_move m) move) (default [] (book !! fen)).

(** The running mean after more values, from the mean [avg] of [n]. *)
Fixpoint runFrom (avg : num) (n : nat) (values : list num) : num :=
  match values with
  | [] => avg
  | v :: rest => runFrom (fold_mean avg (S n) v) (S n) rest
  end.

End Running.

(** The key of the initial position. *)
Definition startKey : string :=
  "rnbqkbnr/pppppppp/8/8/8/8/PPPPPPPP/RNBQKBNR w KQkq -".

(** The exact mean of finite binary64 values. *)
Definition exactSum (values : list number) : option Q :=
  foldr (fun v acc =>
           match exactValue v, acc with
           | Some q, Some s => Some (q + s)%Q
           | _, _ => None
           end) (Some 0%Q) values.

Definition exactMean (values : list number) : option Q :=
  match exactSum values with
  | Some s => Some (s / inject_Z (Z.of_nat (length values)))%Q
  | None => None
  end.

(** The number [x] is finite and its value is the rational [q]. *)
Definition hasValue (x : number) (q : Q) : bool :=
  match exactValue x with
  | Some v => Qeq_bool v q
  | None => false
  end.

(** The fold [avg <- (avg * (n - 1) + value) / n] rounds nowhere: the
    counter as a number, the difference, the product, the sum and the
    quotient each have the value that exact arithmetic gives. *)
Definition exactFold (avg : number) (n : nat) (value : number) : bool :=
  match exactValue avg, exactValue value with
  | Some qa, Some qv =>
      let qn := inject_Z (Z.of_nat n) in
      hasValue (ofCount n) qn &&
      hasValue (sub (ofCount n) one) (qn - 1) &&
      hasValue (mul avg (sub (ofCount n) one)) (qa * (qn - 1)) &&
      hasValue (add (mul avg (sub (ofCount n) one)) value) (qa * (qn - 1) + qv) &&
      hasValue (fold_mean avg n value) ((qa * (qn - 1) + qv) / qn)
  | _, _ => false
  end.

(** No fold of the running mean after more values rounds, from the mean
    [avg] of [n] values on. *)
Fixpoint exactRun (avg : number) (n : nat) (values : list number) : bool :=
  match values with
  | [] => true
  | v :: rest =>
      exactFold avg (S n) v && exactRun (fold_mean avg (S n) v) (S n) rest
  end.

(** The recorded values are finite and no fold over them rounds. *)
Definition exactFolds (values : list number) : bool :=
  match values with
  | [] => true
  | first :: rest =>
      match exactValue first with
      | Some _ => exactRun first 1 rest
      | None => false
      end
  end.

(** The number [x] is finite and has the value of the exact mean of
    [values]. *)
Definition isMeanOf (x : number) (values : list number) : Prop :=
  exists q m, exactValue x = Some q /\ exactMean values = Some m /\ (q == m)%Q.

(** Three games in which White opened with the same move: a win, a draw
    and a loss, with the evaluations 1, 2 and 3. *)
Definition sampleObservations : list (Observation number) :=
  [ mkObservation true false false "white" 1%float;
    mkObservation false false true "white" 2%float;
    mkObservation false true false "white" 3%float ].

(** C3 as stated, for the arithmetic of the code: the stored evaluation
    has the value of the exact mean of the recorded values. *)
Definition stored_mean_is_exact : Prop :=
  forall (db : gmap string (PositionData number)) (fen move : string)
         (first : number) (rest : list number) (m : Q),
    db !! fen = None ->
    exactMean (first :: rest) = Some m ->
    exists r q,
      ingestAll db fen move (first :: rest) !! fen = Some r /\
      exactValue (pd_evaluation r) = Some q /\ (q == m)%Q.

(** A book in which the initial position has three moves, of decreasing
    score. *)
Definition sampleBook : gmap string (list (OpeningMove number)) :=
  recordAll
    (recordAll
       (recordAll ∅ startKey "e2e4"
          [ mkObservation true false false "white" 0.3%float;
            mkObservation true false false "white" 0.4%float;
            mkObservation true false false "white" 0.2%float ])
       startKey "d2d4"
       [ mkObservation false false true "white" 0.2%float;
         mkObservation false false true "white" 0.1%float ])
    startKey "g1f3"
    [ mkObservation false true false "white" (-0.3)%float ].

Definition sampleService : ChessLearningService number := mkService sampleBook ∅.

Definition startFen : string :=
  "rnbqkbnr/pppppppp/8/8/8/8/PPPPPPPP/RNBQKBNR w KQkq - 0 1".

(** The stored evaluation string is absent: null or empty. *)
Definition evaluationAbsent (move : MoveRow) : Prop :=
  row_evaluation move = None \/ row_evaluation move = Some "".

(** The first move of a game, without a stored evaluation. *)
Definition unevaluatedMove : MoveRow := mkMoveRow "white" "e4" "e2e4" None.

(** C9 as stated: the move is ingested into both stores, whatever its
    index in the game. *)
Definition ingested_into_both : Prop :=
  forall (svc : ChessLearningService number) (result : string)
         (chess : Toy.Board) (i : nat) (move : MoveRow),
    evaluationAbsent move ->
    let positionKey := normalizePosition (Toy.boardFen chess) in
    let after :=
      ingestMove (Chess := Toy.Board) (H0 := Toy.engine false) Toy.parseDecimal
        svc result chess i move in
    positionDatabase after
    = addToPositionDatabase (positionDatabase svc) positionKey (row_uci move) 0%float /\
    openingBook after
    = addToOpeningBook (openingBook svc) positionKey (row_uci move)
        (String.eqb result "1-0") (String.eqb result "0-1")
        (String.eqb result "1/2-1/2") (row_side move) 0%float.

End LearningSpec.

(* ===================================================================== *)
(** * Notions for the properties of the game service                     *)
(* ===================================================================== *)

Module ChessGameSpec.
Import JSString JSNumber Rules Learning ChessGame.
Local Open Scope list_scope.

(** The contract of the rules engine that [makeMove] relies on: a call of
    [move] that returns null or throws leaves the instance as it was. *)
Definition rejection_keeps_instance {Chess : Type} {R : RulesEngine Chess} : Prop :=
  forall (chess : Chess) (move : string) (after : Chess),
    chess_move chess move = Refused after \/ chess_move chess move = Thrown after ->
    after = chess.

(** A board on which 1. e4 was played. *)
Definition afterE4 : Toy.Board :=
  snd (makeMove (H := Toy.engine true) Toy.start "e4").

Section MoveSelection.
Context {Chess : Type} {R : RulesEngine Chess}.
Variable draws : Draws.

(** The random fallback finds a move that the rules engine plays, in
    every position with a legal move. *)
Definition fallbackSound : Prop :=
  forall chess : Chess,
    chess_moves chess <> [] ->
    exists move obj after,
      randomMove draws (chess_moves chess) = Some move /\
      chess_move chess move = Moved obj after.

End MoveSelection.

(** The position key of the toy game before the first move. *)
Definition toyKey : string := "toy w - -".

(** A learning service whose candidates for that position are no moves of
    the game: one in the opening book, two in the position database. *)
Definition blindService : ChessLearningService number :=
  mkService
    (addToOpeningBook ∅ toyKey "a1a1" true false false "white" 0.2%float)
    (addToPositionDatabase
       (addToPositionDatabase ∅ toyKey "a1a1" 0.2%float) toyKey "h7h8" 0.1%float).

(** A learning service whose opening book holds a move that is no move of
    the game, and whose position database holds a legal one. *)
Definition trapService : ChessLearningService number :=
  mkService
    (addToOpeningBook ∅ toyKey "a1a1" true false false "white" 0.2%float)
    (addToPositionDatabase ∅ toyKey "d2d4" 0.1%float).

Definition sampleDraws : Draws := mkDraws 0.5 0.5 0.9.

(** The engine client in its fallback, which answers e2e4, and a process
    that writes nothing while a request is pending. *)
Definition noEngine : Stockfish.StockfishEngine := Stockfish.initEngine None.

Definition silent : nat -> list string := fun _ => [].

(** C1 as stated: control falls through to the position database however
    the rules engine turns the candidate of the opening book down. *)
Definition falls_through_always : Prop :=
  forall (throwing : bool) (tanh : number -> number)
         (learningService : ChessLearningService number)
         (answer : nat -> list string) (difficulty : number) (draws : Draws)
         (chess : Toy.Board) (sf : Stockfish.StockfishEngine)
         (bookMove : string) (after : Toy.Board),
    (length (Toy.played chess) < 15)%nat ->
    getBookMove tanh learningService (Toy.boardFen chess) (bookDraw draws)
    = Some bookMove ->
    bookMove <> "" ->
    Toy.boardMove throwing chess bookMove = Refused after \/
    Toy.boardMove throwing chess bookMove = Thrown after ->
    makeAIMove (H := Toy.engine throwing) tanh learningService answer difficulty
      draws chess sf
    = withFallback (H := Toy.engine throwing) draws
        (fromStore (H := Toy.engine throwing) learningService answer difficulty
           draws (Toy.boardFen chess) after sf).

End ChessGameSpec.

(* ===================================================================== *)
(** * Notions for the properties of the two maps                           *)
(* ===================================================================== *)

Module StoreSpec.
Import JSString JSNumber Rules Learning LearningSpec LearningStore.

(** The initial position after 1. Nf3 Nf6 2. Ng1 Ng8: the same key as
    the position string of a new game. *)
Definition startFenLater : string :=
  "rnbqkbnr/pppppppp/8/8/8/8/PPPPPPPP/RNBQKBNR w KQkq - 4 3".

(** The side of a row is none of the two strings that [addToOpeningBook]
    compares it with. *)
Definition sideUnmatched (row : MoveRow) : Prop :=
  row_side row <> "white" /\ row_side row <> "black".

End StoreSpec.

(* ===================================================================== *)
(** * Notions for the properties of the move of the AI                     *)
(* ===================================================================== *)

Module SelectionSpec.
Import JSString JSNumber Rules Learning ChessGame.
Local Open Scope list_scope.

(** The thinking time [makeAIMove] gives the engine. *)
Definition thinkingTimeOf (difficulty : number) : number :=
  Math_max 500 (Math_min 3000 difficulty).

Section Played.
Context {Chess : Type} {R : RulesEngine Chess}.

(** The move [gm] reports a move that the rules engine played on the
    instance [from], which gave the instance [after]: its SAN is the one
    of the move object, its position string is the position of [after],
    and its UCI string is the string the rules engine was given or is
    made of the squares of the move object. *)
Definition playedFrom (from after : Chess) (gm : GameMove) : Prop :=
  fen gm = chess_fen after /\
  exists candidate obj,
    chess_move from candidate = Moved obj after /\
    san gm = mo_san obj /\
    (uci gm = candidate \/ uci gm = uciOf obj).

(** The instance [after] is what calls of [move] that the rules engine
    turned down, by null or by an exception, made of [chess]. *)
Inductive turnedDown : Chess -> Chess -> Prop :=
| turnedDown_none chess : turnedDown chess chess
| turnedDown_more chess move next after :
    chess_move chess move = Refused next \/ chess_move chess move = Thrown next ->
    turnedDown next after ->
    turnedDown chess after.

(** What an operation that ends with [outcome] has done to the instance
    [chess], now [chess']: a move it reports was played by the rules
    engine, after calls that were turned down; when it reports no move,
    calls were turned down only. *)
Definition outcomeSound (chess : Chess) (outcome : AIMoveOutcome) (chess' : Chess)
  : Prop :=
  match outcome with
  | Fulfilled (Some gm) => exists from, turnedDown chess from /\ playedFrom from chess' gm
  | _ => turnedDown chess chess'
  end.

Definition attemptSound (chess : Chess) (attempt : Attempt Chess) : Prop :=
  match attempt with
  | Done outcome chess' _ => outcomeSound chess outcome chess'
  | Raised chess' _ => turnedDown chess chess'
  end.

(** The engine client an attempt leaves. *)
Definition clientOf (attempt : Attempt Chess) : Stockfish.StockfishEngine :=
  match attempt with
  | Done _ _ sf => sf
  | Raised _ sf => sf
  end.

End Played.

(** The client [sf'] is what one request for the best move, made of the
    client [sf] for the position [fen] with [timeMs] milliseconds, and
    the output handled while the request was awaited leave: the client
    had a running process and was ready, the request was given the
    promise [fresh sf], and the chunks handled are the first ones that
    the process wrote while the request was pending. *)
Definition askedOnce (answer : nat -> list string) (fen : string) (timeMs : number)
    (sf sf' : Stockfish.StockfishEngine) : Prop :=
  exists sf1 handled rest,
    Stockfish.getBestMove sf fen timeMs = (Stockfish.Pending (Stockfish.fresh sf), sf1) /\
    answer (Stockfish.fresh sf) = handled ++ rest /\
    sf' = foldl Stockfish.handleEngineOutput sf1 handled.

(** An attempt that is over: it does not wait for the engine. *)
Definition settledAttempt {Chess : Type} (attempt : Attempt Chess) : Prop :=
  match attempt with
  | Done Unsettled _ _ => False
  | _ => True
  end.

(** What an attempt that starts with the client [sf] does to it: it
    leaves it as it is, or it asks the engine once, and when it is over
    the promise of the request has been resolved. *)
Definition clientSound {Chess : Type} (answer : nat -> list string) (fen : string)
    (timeMs : number) (sf : Stockfish.StockfishEngine) (attempt : Attempt Chess)
  : Prop :=
  clientOf attempt = sf \/
  (askedOnce answer fen timeMs sf (clientOf attempt) /\
   (settledAttempt attempt ->
    Stockfish.fresh sf ∈ StockfishSession.resolvedPromises (clientOf attempt))).

(** The toy game after 1. e4, and a learning service without data. *)
Definition e4Played : Toy.Board :=
  Toy.mkBoard [mkMoveObject "e4" "e2" "e4" None None].

End SelectionSpec.

(* ===================================================================== *)
(** * Notions for the properties of the routes                             *)
(* ===================================================================== *)

Module RoutesSpec.
Import JSString JSNumber Rules Learning ChessGame Storage Routes ChessGameSpec.
Local Open Scope list_scope.

(** The requester owns the game: as a guest, the game is a guest game
    with the guest identifier of the request; as a signed-in user, the
    user is the white or the black player. *)
Definition owns (req : Request) (game : Game) : Prop :=
  if isGuest req
  then g_isGuestGame game = true /\
       exists guest, g_guestId game = Some guest /\ guestId req = Some guest
  else exists userId,
         userSub req = Some userId /\
         (g_whitePlayerId game = Some userId \/ g_blackPlayerId game = Some userId).

(** The response is a refusal of the request. *)
Definition refused (response : Response) : Prop :=
  statusCode response = 404%nat \/ statusCode response = 403%nat \/
  statusCode response = 400%nat.

Section Contract.
Context {Chess : Type} {R : RulesEngine Chess}.

(** It is the turn of the player of the game. *)
Definition playersTurn (game : Game) (chess : Chess) : Prop :=
  (chess_turn chess = "w" /\ g_playerColor game = "white") \/
  (chess_turn chess = "b" /\ g_playerColor game = "black").

(** What the routes take from the rules engine about the history of an
    instance: an instance made from a position string has no history,
    and a move that is played is added to it. *)
Definition historyFromPosition : Prop :=
  (forall fen : string, chess_history (newChess (Some fen)) = []) /\
  (forall (chess : Chess) move obj after,
     chess_move chess move = Moved obj after ->
     length (chess_history after) = Datatypes.S (length (chess_history chess))).

End Contract.

(** The row of a move as [MemStorage] keeps it. *)
Definition storedMove (id gameId : string) (moveNumber : nat) (side : string)
    (gm : GameMove) : Move :=
  mkMove id gameId moveNumber side (san gm) (uci gm) (fen gm) None.

(** A row of the table [moves] as the learning service reads it. *)
Definition rowOf (m : Move) : MoveRow :=
  mkMoveRow (m_side m) (m_san m) (m_uci m) (m_evaluation m).

(** The storage [st] with other values in the columns [status] and
    [result] of the game [gameId]. *)
Definition withStatus (st : MemStorage) (gameId : string) (status : string)
    (result : option string) : MemStorage :=
  mkMemStorage
    (match games st !! gameId with
     | Some game =>
         <[gameId := mkGame (g_id game) (g_whitePlayerId game) (g_blackPlayerId game)
                       (g_guestId game) (g_isGuestGame game) status result
                       (g_playerColor game) (g_aiDifficulty game)
                       (g_currentFen game) (g_pgn game)]> (games st)
     | None => games st
     end)
    (moves st) (drawn st).

(** The identifiers in the examples. *)
Definition sampleId (n : nat) : string :=
  ("id" ++ NilEmpty.string_of_uint (Nat.to_uint n))%string.

(** A signed-in user, who asks for a game with the black pieces. *)
Definition blackUser : Request :=
  mkRequest false None (Some "user-1") "" "" "black" None.

(** A guest, who asks for a game with the white pieces. *)
Definition whiteGuest : Request :=
  mkRequest true (Some "session-1") None "" "" "white" None.

(** The request [req] for the game [gameId], with the move [move]. *)
Definition forGame (req : Request) (gameId move : string) : Request :=
  mkRequest (isGuest req) (guestId req) (userSub req) gameId move
    (bodyPlayerColor req) (bodyAiDifficulty req).

(** The toy game, over by checkmate as soon as [n] moves are played. *)
Definition shortGame (n : nat) : RulesEngine Toy.Board := {|
  newChess := fun _ => Toy.mkBoard [];
  chess_fen := Toy.boardFen;
  chess_pgn := fun b => join " " (map mo_san (Toy.played b));
  chess_turn := fun b => if Nat.even (length (Toy.played b)) then "w" else "b";
  chess_history := Toy.played;
  chess_moves := fun b => map mo_san (Toy.openMoves b);
  chess_move := Toy.boardMove false;
  chess_isGameOver := fun b => (n <=? length (Toy.played b))%nat;
  chess_isCheck := fun b => (n <=? length (Toy.played b))%nat;
  chess_isCheckmate := fun b => (n <=? length (Toy.played b))%nat;
  chess_isStalemate := fun _ => false;
  chess_isDraw := fun _ => false
|}.

(** An engine client with a process that has said that it is ready, and
    a process that answers every request with the line [bestmove d2d4]. *)
Definition readyEngine : Stockfish.StockfishEngine :=
  StockfishSession.session (Some (Stockfish.mkProcess [])) StockfishSession.started.

Definition answersD4 : nat -> list string :=
  fun _ => [StockfishSession.chunkOf ["bestmove d2d4"]].

(** The storage after the guest has created a game. *)
Definition guestGameCreated (n : nat) : MemStorage :=
  snd (postGame (storage := memStorage sampleId) (rules := shortGame n)
         newMemStorage whiteGuest).

(** The request of [req] to play [move] in that game, with a learning
    service that has no data. *)
Definition sampleMove (n : nat) (req : Request) (move : string)
  : option Response * MemStorage * Stockfish.StockfishEngine :=
  postMove (storage := memStorage sampleId) (rules := shortGame n) Toy.tanhApprox
    emptyService answersD4 sampleDraws (guestGameCreated n) readyEngine
    (forGame req (sampleId 0) move).

(** Another guest. *)
Definition otherGuest : Request :=
  mkRequest true (Some "session-2") None "" "" "white" None.

(** The storage after the signed-in user has created a game. *)
Definition userGameCreated : MemStorage :=
  snd (postGame (storage := memStorage sampleId) (rules := shortGame 4)
         newMemStorage blackUser).

End RoutesSpec.

(* ===================================================================== *)
(** * Facts on strings                                                     *)
(* ===================================================================== *)

Module JSStringFacts.
Import JSString.

Lemma split_nonempty sep s : split sep s <> [].
Proof.
  destruct s as [|c rest]; simpl; [discriminate|].
  destruct (Ascii.eqb c sep); [discriminate|].
  destruct (split sep rest); discriminate.
Qed.

Lemma split_fields_free sep s :
  Forall (fun f => free_of sep f = true) (split sep s).
Proof.
  induction s as [|c rest IH]; simpl.
  - repeat constructor.
  - destruct (Ascii.eqb c sep) eqn:E.
    + constructor; [reflexivity | exact IH].
    + destruct (split sep rest) as [|f fs].
      * constructor; [simpl; rewrite E; reflexivity | constructor].
      * inversion IH; subst. constructor; [|assumption].
        simpl. rewrite E. simpl. assumption.
Qed.

(** Splitting a separator-free field followed by the separator. *)
Lemma split_field_sep sep f rest :
  free_of sep f = true ->
  split sep (f ++ String sep rest) = f :: split sep rest.
Proof.
  induction f as [|c f IH]; simpl; intros Hf.
  - rewrite Ascii.eqb_refl. reflexivity.
  - apply andb_prop in Hf as [Hc Hf].
    apply negb_true_iff in Hc. rewrite Hc.
    rewrite (IH Hf). reflexivity.
Qed.

Lemma split_free sep f : free_of sep f = true -> split sep f = [f].
Proof.
  induction f as [|c f IH]; simpl; intros Hf; [reflexivity|].
  apply andb_prop in Hf as [Hc Hf].
  apply negb_true_iff in Hc. rewrite Hc.
  rewrite (IH Hf). reflexivity.
Qed.

(** [split] undoes [join] on a non-empty list of separator-free fields. *)
Lemma split_join sep parts :
  parts <> [] ->
  Forall (fun f => free_of sep f = true) parts ->
  split sep (join (String sep "") parts) = parts.
Proof.
  induction parts as [|p ps IH]; intros Hne Hfree; [congruence|].
  inversion Hfree as [|? ? Hp Hps]; subst.
  destruct ps as [|q qs].
  - simpl. apply split_free. assumption.
  - change (join (String sep "") (p :: q :: qs))
      with (p ++ String sep (join (String sep "") (q :: qs))).
    rewrite split_field_sep by assumption.
    rewrite IH; [reflexivity | discriminate | assumption].
Qed.

End JSStringFacts.

(* ===================================================================== *)
(** * Facts on numbers                                                     *)
(* ===================================================================== *)

Module JSNumberFacts.
Import JSNumber.

(** ** The order of binary64 values *)

Lemma SFcompare_antisym x y :
  SFcompare y x = option_map CompOpp (SFcompare x y).
Proof.
  destruct x as [sx|sx| |sx mx ex], y as [sy|sy| |sy my ey]; simpl;
    try reflexivity; try (destruct sx; reflexivity);
    try (destruct sy; reflexivity); try (destruct sx, sy; reflexivity).
  change (Pos.compare_cont Eq my mx) with (Pos.compare my mx).
  change (Pos.compare_cont Eq mx my) with (Pos.compare mx my).
  rewrite (Z.compare_antisym ex ey), (Pos.compare_antisym mx my).
  destruct sx, sy; simpl; try reflexivity;
    destruct (ex ?= ey); simpl; try reflexivity;
    destruct (mx ?= my)%positive; reflexivity.
Qed.

Ltac cmp_cases :=
  repeat match goal with
  | |- context [Z.compare ?a ?b] => destruct (Z.compare_spec a b)
  | H : context [Z.compare ?a ?b] |- _ => destruct (Z.compare_spec a b)
  | |- context [Pos.compare ?a ?b] => destruct (Pos.compare_spec a b)
  | H : context [Pos.compare ?a ?b] |- _ => destruct (Pos.compare_spec a b)
  end.

Lemma SFleb_trans x y z :
  SFleb x y = true -> SFleb y z = true -> SFleb x z = true.
Proof.
  unfold SFleb.
  destruct x as [sx|sx| |sx mx ex], y as [sy|sy| |sy my ey],
           z as [sz|sz| |sz mz ez];
    simpl; try discriminate; try reflexivity;
    repeat match goal with s : bool |- _ => destruct s end;
    simpl; try discriminate; try reflexivity;
    change (Pos.compare_cont Eq) with Pos.compare;
    intros; cmp_cases; simpl in *; subst;
    try discriminate; try reflexivity; try lia.
Qed.

Lemma isNaN_spec x : isNaN x = true <-> Prim2SF x = S754_nan.
Proof.
  unfold isNaN, is_nan. rewrite FloatAxioms.eqb_spec. unfold SFeqb.
  destruct (Prim2SF x) as [s|s| |s m e]; simpl.
  - split; discriminate.
  - destruct s; split; discriminate.
  - split; reflexivity.
  - change (Pos.compare_cont Eq m m) with (Pos.compare m m).
    rewrite Z.compare_refl, Pos.compare_refl.
    destruct s; split; discriminate.
Qed.

(** [a <= b] and [b <= c] give [a <= c]. *)
Lemma leb_trans (a b c : number) :
  (a <=? b)%float = true -> (b <=? c)%float = true -> (a <=? c)%float = true.
Proof. rewrite !leb_spec. apply SFleb_trans. Qed.

(** [a < b] excludes [b <= a]. *)
Lemma ltb_not_geb (a b : number) :
  (a <? b)%float = true -> (b <=? a)%float = false.
Proof.
  rewrite ltb_spec, leb_spec. unfold SFltb, SFleb.
  rewrite (SFcompare_antisym (Prim2SF a) (Prim2SF b)).
  destruct (SFcompare (Prim2SF a) (Prim2SF b)) as [[| |]|]; simpl; congruence.
Qed.

(** [a <= b] excludes [b < a]. *)
Lemma leb_not_gtb (a b : number) :
  (a <=? b)%float = true -> (b <? a)%float = false.
Proof.
  intros H. destruct (b <? a)%float eqn:E; [|reflexivity].
  apply ltb_not_geb in E. congruence.
Qed.

(** Two numbers that are not NaN are comparable. *)
Lemma not_leb_gtb (a b : number) :
  isNaN a = false -> isNaN b = false ->
  (a <=? b)%float = false -> (b <? a)%float = true.
Proof.
  intros Ha Hb. rewrite ltb_spec, leb_spec. unfold SFltb, SFleb.
  rewrite (SFcompare_antisym (Prim2SF a) (Prim2SF b)).
  assert (Prim2SF a <> S754_nan) as Na
    by (intros E; apply isNaN_spec in E; congruence).
  assert (Prim2SF b <> S754_nan) as Nb
    by (intros E; apply isNaN_spec in E; congruence).
  destruct (Prim2SF a) as [sa|sa| |sa ma ea], (Prim2SF b) as [sb|sb| |sb mb eb];
    try congruence; simpl;
    repeat match goal with s : bool |- _ => destruct s end; simpl;
    try congruence;
    destruct (ea ?= eb); simpl; try congruence;
    destruct (Pos.compare_cont Eq ma mb); simpl; congruence.
Qed.

End JSNumberFacts.

(* ===================================================================== *)
(** * Properties of the engine client                                      *)
(* ===================================================================== *)

Module StockfishProps.
Import JSString JSNumber JSNumberFacts Stockfish StockfishSpec.
Local Open Scope list_scope.

(** ** Classification of a move *)

(** The thresholds are numbers, in increasing order. *)
Lemma thresholds_ordered :
  (0.1 <=? 0.25)%float = true /\ (0.25 <=? 0.5)%float = true /\
  (0.5 <=? 1.0)%float = true /\ (1.0 <=? 2.0)%float = true.
Proof. repeat split; reflexivity. Qed.

(** For a difference that is a number, being above a threshold is failing
    the test against it. *)
Lemma above_threshold (d t : number) :
  isNaN d = false -> isNaN t = false ->
  (t <? d)%float = true <-> (d <=? t)%float = false.
Proof.
  intros Hd Ht. split.
  - apply ltb_not_geb.
  - apply not_leb_gtb; assumption.
Qed.

(** C2. For every pair of evaluations whose score difference [d] is a
    number, [classifyMove] returns the bucket of [d] with inclusive upper
    bounds: best iff d <= 0.10, excellent iff 0.10 < d <= 0.25, good iff
    0.25 < d <= 0.50, inaccuracy iff 0.50 < d <= 1.00, mistake iff
    1.00 < d <= 2.00 and blunder iff d > 2.00. *)
Theorem classifyMove_buckets (actual reference : EngineEvaluation) :
  isNaN (scoreGap actual reference) = false ->
  let d := scoreGap actual reference in
  (classifyMove actual reference = best <-> (d <=? 0.1)%float = true) /\
  (classifyMove actual reference = excellent <->
     (0.1 <? d)%float = true /\ (d <=? 0.25)%float = true) /\
  (classifyMove actual reference = good <->
     (0.25 <? d)%float = true /\ (d <=? 0.5)%float = true) /\
  (classifyMove actual reference = inaccuracy <->
     (0.5 <? d)%float = true /\ (d <=? 1.0)%float = true) /\
  (classifyMove actual reference = mistake <->
     (1.0 <? d)%float = true /\ (d <=? 2.0)%float = true) /\
  (classifyMove actual reference = blunder <-> (2.0 <? d)%float = true).
Proof.
  intros Hnan d.
  destruct thresholds_ordered as (T12 & T23 & T34 & T45).
  rewrite !(above_threshold d) by (assumption || reflexivity).
  unfold classifyMove. fold (scoreGap actual reference). fold d.
  destruct (d <=? 0.1)%float eqn:B1.
  { pose proof (leb_trans d 0.1 0.25 B1 T12) as B2.
    pose proof (leb_trans d 0.25 0.5 B2 T23) as B3.
    pose proof (leb_trans d 0.5 1.0 B3 T34) as B4.
    pose proof (leb_trans d 1.0 2.0 B4 T45) as B5.
    rewrite B2, B3, B4, B5. intuition congruence. }
  destruct (d <=? 0.25)%float eqn:B2.
  { pose proof (leb_trans d 0.25 0.5 B2 T23) as B3.
    pose proof (leb_trans d 0.5 1.0 B3 T34) as B4.
    pose proof (leb_trans d 1.0 2.0 B4 T45) as B5.
    rewrite B3, B4, B5. intuition congruence. }
  destruct (d <=? 0.5)%float eqn:B3.
  { pose proof (leb_trans d 0.5 1.0 B3 T34) as B4.
    pose proof (leb_trans d 1.0 2.0 B4 T45) as B5.
    rewrite B4, B5. intuition congruence. }
  destruct (d <=? 1.0)%float eqn:B4.
  { pose proof (leb_trans d 1.0 2.0 B4 T45) as B5. rewrite B5. intuition congruence. }
  destruct (d <=? 2.0)%float eqn:B5; intuition congruence.
Qed.

Lemma classifyMove_buckets_witness :
  classifyMove (evaluationOfScore 2.01) (evaluationOfScore 0) = blunder.
Proof.
  apply (classifyMove_buckets (evaluationOfScore 2.01) (evaluationOfScore 0));
    reflexivity.
Defined.

(** The differences 0.10, 0.25, 0.50, 1.00 and 2.00 themselves fall in the
    bucket they bound. *)
Example classifyMove_boundaries :
  map (fun s => classifyMove (evaluationOfScore s) (evaluationOfScore 0))
      [0.1; 0.25; 0.5; 1.0; 2.0; 2.01]%float
  = [best; excellent; good; inaccuracy; mistake; blunder].
Proof. reflexivity. Qed.

(** The bucket is that of the computed difference: 0.4 - 0.3 is above the
    number 0.1. *)
Example classifyMove_rounding :
  classifyMove (evaluationOfScore 0.4) (evaluationOfScore 0.3) = excellent.
Proof. reflexivity. Qed.

(** A difference that is not a number is a blunder, though not above 2. *)
Example classifyMove_NaN :
  classifyMove (evaluationOfScore NaN) (evaluationOfScore 0) = blunder /\
  (2.0 <? scoreGap (evaluationOfScore NaN) (evaluationOfScore 0))%float = false.
Proof. split; reflexivity. Qed.

(** ** Resolution of a pending evaluation *)

Lemma frame_dispatch st line :
  isFrame line = true -> handleLine st line = parseEvaluation st line.
Proof.
  unfold isFrame, handleLine. intros Hp.
  destruct line as [|c rest]; [discriminate|].
  assert (c = "i"%char) as ->.
  { cbn [startsWith] in Hp. apply andb_prop in Hp as [Hc _].
    apply Ascii.eqb_eq in Hc. congruence. }
  rewrite Hp. reflexivity.
Qed.

Lemma sendCommand_settled st c :
  settled (sendCommand st c) = settled st /\
  resolveMap (sendCommand st c) = resolveMap st.
Proof. unfold sendCommand. destruct (engine st); split; reflexivity. Qed.

Lemma evaluationsSettled_bestmove (calls : list (nat * Resolution)) k token :
  omap (fun call => match call with
                    | (k, EvaluationValue e) => Some (k, e)
                    | (_, BestMoveValue _) => None
                    end) (calls ++ [(k, BestMoveValue token)])
  = omap (fun call => match call with
                      | (k, EvaluationValue e) => Some (k, e)
                      | (_, BestMoveValue _) => None
                      end) calls.
Proof. rewrite omap_app. simpl. apply app_nil_r. Qed.

(** A line that is not a deep frame leaves the evaluation request as it
    is, pending or not, and calls no evaluation resolver. *)
Lemma handleLine_shallow st line :
  deepFrame line = false ->
  pendingEvaluation (handleLine st line) = pendingEvaluation st /\
  evaluationsSettled (handleLine st line) = evaluationsSettled st.
Proof.
  unfold deepFrame. intros Hd.
  destruct (isFrame line) eqn:Hf.
  - rewrite frame_dispatch by assumption. simpl in Hd.
    unfold parseEvaluation. rewrite Hd.
    destruct (resolveMap st !! "evaluation"); split; reflexivity.
  - unfold handleLine. unfold isFrame in Hf. rewrite Hf.
    destruct (String.eqb line "uciok").
    { unfold pendingEvaluation, evaluationsSettled.
      destruct (sendCommand_settled st IsReady) as [-> ->]. split; reflexivity. }
    destruct (String.eqb line "readyok"); [split; reflexivity|].
    destruct (startsWith "bestmove" line); [|split; reflexivity].
    destruct (resolveMap st !! "bestmove"); [|split; reflexivity].
    unfold pendingEvaluation, evaluationsSettled. simpl. split.
    + apply lookup_delete_ne. discriminate.
    + apply evaluationsSettled_bestmove.
Qed.

(** A deep frame resolves the pending request with its evaluation and
    removes the resolver. *)
Lemma handleLine_deep st k line :
  pendingEvaluation st = Some k -> deepFrame line = true ->
  pendingEvaluation (handleLine st line) = None /\
  evaluationsSettled (handleLine st line)
  = evaluationsSettled st ++ [(k, frameEvaluation line)].
Proof.
  unfold deepFrame, pendingEvaluation. intros Hk Hd.
  apply andb_prop in Hd as [Hf Hd].
  rewrite frame_dispatch by assumption.
  unfold parseEvaluation. rewrite Hk, Hd.
  unfold evaluationsSettled. simpl. split.
  - apply lookup_delete_eq.
  - rewrite omap_app. reflexivity.
Qed.

(** With no request pending no line calls an evaluation resolver. *)
Lemma handleLine_idle st line :
  pendingEvaluation st = None ->
  pendingEvaluation (handleLine st line) = None /\
  evaluationsSettled (handleLine st line) = evaluationsSettled st.
Proof.
  intros Hk. destruct (deepFrame line) eqn:Hd.
  - unfold deepFrame in Hd. apply andb_prop in Hd as [Hf Hd].
    rewrite frame_dispatch by assumption.
    unfold parseEvaluation. unfold pendingEvaluation in Hk. rewrite Hk.
    split; [exact Hk | reflexivity].
  - destruct (handleLine_shallow st line Hd) as [-> ->]. split; [exact Hk | reflexivity].
Qed.

Lemma feed_app st before after :
  feed st (before ++ after) = feed (feed st before) after.
Proof. apply foldl_app. Qed.

Lemma feed_cons st line lines :
  feed st (line :: lines) = feed (handleLine st line) lines.
Proof. reflexivity. Qed.

Lemma feed_idle lines : forall st,
  pendingEvaluation st = None ->
  pendingEvaluation (feed st lines) = None /\
  evaluationsSettled (feed st lines) = evaluationsSettled st.
Proof.
  induction lines as [|l lines IH]; intros st Hk; [split; [exact Hk | reflexivity]|].
  destruct (handleLine_idle st l Hk) as [Hk' He].
  destruct (IH (handleLine st l) Hk') as [IH1 IH2].
  split; [exact IH1 | rewrite <- He; exact IH2].
Qed.

Lemma feed_shallow lines : forall st,
  Forall (fun l => deepFrame l = false) lines ->
  pendingEvaluation (feed st lines) = pendingEvaluation st /\
  evaluationsSettled (feed st lines) = evaluationsSettled st.
Proof.
  induction lines as [|l lines IH]; intros st Hall; [split; reflexivity|].
  inversion Hall as [|? ? Hl Hrest]; subst.
  destruct (handleLine_shallow st l Hl) as [Hk He].
  destruct (IH (handleLine st l) Hrest) as [IH1 IH2].
  split; [rewrite <- Hk; exact IH1 | rewrite <- He; exact IH2].
Qed.

(** A frame whose depth is below 10 is not a deep frame. *)
Lemma shallow_depth line :
  (frameDepth line <? 10)%float = true -> deepFrame line = false.
Proof.
  intros Hlt. unfold deepFrame. rewrite (ltb_not_geb _ _ Hlt).
  apply andb_false_r.
Qed.

(** C4. A frame whose parsed depth is below 10 resolves nothing, in any
    state of the client. While an [evaluate] request is pending with
    resolver [k]: lines whose frames all have a depth below 10 leave the
    request pending and resolve nothing; the first frame of depth >= 10
    resolves it, with the evaluation of that frame; and the lines handled
    after it do not resolve it again. *)
Theorem evaluate_resolved_by_first_deep_frame (st : StockfishEngine) (k : nat) :
  pendingEvaluation st = Some k ->
  (forall st' frame,
     isFrame frame = true -> (frameDepth frame <? 10)%float = true ->
     pendingEvaluation (handleLine st' frame) = pendingEvaluation st' /\
     evaluationsSettled (handleLine st' frame) = evaluationsSettled st') /\
  (forall lines,
     Forall (fun l => isFrame l = true -> (frameDepth l <? 10)%float = true) lines ->
     pendingEvaluation (feed st lines) = Some k /\
     evaluationsSettled (feed st lines) = evaluationsSettled st) /\
  (forall shallow frame later,
     Forall (fun l => deepFrame l = false) shallow ->
     isFrame frame = true -> (10 <=? frameDepth frame)%float = true ->
     pendingEvaluation (feed st (shallow ++ frame :: later)) = None /\
     evaluationsSettled (feed st (shallow ++ frame :: later))
     = evaluationsSettled st ++ [(k, frameEvaluation frame)]).
Proof.
  intros Hk. split; [|split].
  - intros st' frame _ Hlt. apply handleLine_shallow, shallow_depth, Hlt.
  - intros lines Hall.
    assert (Forall (fun l => deepFrame l = false) lines) as Hs.
    { eapply Forall_impl; [exact Hall|]. intros l Hl. simpl in Hl.
      destruct (isFrame l) eqn:Hf.
      - apply shallow_depth. apply Hl. reflexivity.
      - unfold deepFrame. rewrite Hf. reflexivity. }
    destruct (feed_shallow lines st Hs) as [-> ->]. split; [exact Hk | reflexivity].
  - intros shallow frame later Hs Hf Hd.
    rewrite feed_app, feed_cons.
    destruct (feed_shallow shallow st Hs) as [Hk1 He1].
    rewrite Hk in Hk1.
    assert (deepFrame frame = true) as Hdeep
      by (unfold deepFrame; rewrite Hf, Hd; reflexivity).
    destruct (handleLine_deep _ k frame Hk1 Hdeep) as [Hk2 He2].
    destruct (feed_idle later _ Hk2) as [Hk3 He3].
    split; [exact Hk3|].
    rewrite He3, He2, He1. reflexivity.
Qed.

Lemma evaluate_resolved_by_first_deep_frame_witness :
  pendingEvaluation
    (feed evaluating ["info depth 8 score cp 31 pv e2e4"; "info string x"]) = Some 0%nat /\
  evaluationsSettled
    (feed evaluating
       (["info depth 8 score cp 31 pv e2e4"; "info depth 9 score cp 28 pv d2d4"]
        ++ "info depth 10 seldepth 14 score cp 35 nodes 9000 pv e2e4 e7e5"
        :: ["info depth 11 score cp 40 pv g1f3"; "bestmove e2e4 ponder e7e5"]))
  = [(0%nat, mkEvaluation 0.35 None "e2e4" ["e2e4"; "e7e5"] 10)].
Proof.
  destruct (evaluate_resolved_by_first_deep_frame evaluating 0 eq_refl)
    as (_ & Hs & Hd).
  split.
  - apply Hs. repeat constructor.
  - apply (Hd ["info depth 8 score cp 31 pv e2e4"; "info depth 9 score cp 28 pv d2d4"]
              "info depth 10 seldepth 14 score cp 35 nodes 9000 pv e2e4 e7e5"
              ["info depth 11 score cp 40 pv g1f3"; "bestmove e2e4 ponder e7e5"]);
      [repeat constructor | reflexivity | reflexivity].
Defined.

(** ** The fallback of [getBestMove] *)

(** C5, as the code has it. When [spawn] threw, so that the client holds no
    process, [getBestMove] returns at once, for every position and every
    thinking time, the fixed move e2e4, which is a move token; the state
    of the client is unchanged. The rules engine is not consulted: the
    result is never "none". *)
Theorem getBestMove_fallback (st : StockfishEngine) (fen : string) (timeMs : number) :
  engine st = None -> isReady st = true ->
  getBestMove st fen timeMs = (Returned "e2e4", st) /\
  validMoveToken "e2e4" = true /\
  fst (getBestMove st fen timeMs) <> Returned "none".
Proof.
  intros He Hr. unfold getBestMove. rewrite Hr, He. simpl.
  repeat split. discriminate.
Qed.

Lemma getBestMove_fallback_witness :
  getBestMove (initEngine None) foolsMate 1000
  = (Returned "e2e4", initEngine None) /\
  validMoveToken "e2e4" = true /\
  fst (getBestMove (initEngine None) foolsMate 1000) <> Returned "none".
Proof. apply (getBestMove_fallback (initEngine None) foolsMate 1000); reflexivity. Defined.

(** The fallback answers e2e4 in a position without legal moves as well. *)
Lemma getBestMove_fallback_ignores_legal_moves : ~ none_without_legal_moves.
Proof.
  intros Hclaim.
  specialize (Hclaim (fun _ => []) foolsMate 1000%float eq_refl).
  discriminate Hclaim.
Qed.

(** When the failure to start is reported by the ['error'] event instead,
    the client is ready but still holds the process: [getBestMove] takes
    the path of the running engine and its promise stays pending. *)
Lemma getBestMove_after_error_event fen timeMs :
  fst (getBestMove (onError (initEngine (Some (mkProcess [])))) fen timeMs)
  = Pending 0.
Proof. reflexivity. Qed.

End StockfishProps.

(* ===================================================================== *)
(** * Properties of the learning service                                   *)
(* ===================================================================== *)

Module LearningProps.
Import JSString JSStringFacts JSNumber JSNumberFacts Rules Learning LearningSpec.
Local Open Scope list_scope.

(** ** The position key *)

(** The first four parts of a position string, whatever follows them. *)
Lemma split_four placement turn castling enPassant rest :
  free_of " " placement = true -> free_of " " turn = true ->
  free_of " " castling = true -> free_of " " enPassant = true ->
  split " " (join " " (placement :: turn :: castling :: enPassant :: rest :: []))
  = placement :: turn :: castling :: enPassant :: split " " rest.
Proof.
  intros Hp Ht Hc He.
  change (join " " [placement; turn; castling; enPassant; rest])
    with (placement ++ String " " (turn ++ String " " (castling ++
            String " " (enPassant ++ String " " rest))))%string.
  rewrite !split_field_sep by assumption. reflexivity.
Qed.

(** C7. Two position strings with the same piece placement, side to move,
    castling rights and en-passant target, whatever their halfmove and
    fullmove counters, have the same key, and the key is the first four
    fields joined by spaces, without the counters. *)
Theorem normalizePosition_drops_counters
    (placement turn castling enPassant halfmove fullmove halfmove' fullmove' : string) :
  free_of " " placement = true -> free_of " " turn = true ->
  free_of " " castling = true -> free_of " " enPassant = true ->
  normalizePosition (fenOf placement turn castling enPassant halfmove fullmove)
  = normalizePosition (fenOf placement turn castling enPassant halfmove' fullmove') /\
  normalizePosition (fenOf placement turn castling enPassant halfmove fullmove)
  = join " " [placement; turn; castling; enPassant].
Proof.
  intros Hp Ht Hc He.
  assert (forall h f,
            normalizePosition (fenOf placement turn castling enPassant h f)
            = join " " [placement; turn; castling; enPassant]) as Hkey.
  { intros h f. unfold normalizePosition, fenOf.
    change (join " " [placement; turn; castling; enPassant; h; f])
      with (join " " [placement; turn; castling; enPassant; join " " [h; f]]).
    rewrite split_four by assumption. reflexivity. }
  rewrite !Hkey. split; reflexivity.
Qed.

Lemma normalizePosition_drops_counters_witness :
  normalizePosition "rnbqkbnr/pppp1ppp/8/4p3/4P3/8/PPPP1PPP/RNBQKBNR w KQkq e6 0 2"
  = normalizePosition "rnbqkbnr/pppp1ppp/8/4p3/4P3/8/PPPP1PPP/RNBQKBNR w KQkq e6 7 31" /\
  normalizePosition "rnbqkbnr/pppp1ppp/8/4p3/4P3/8/PPPP1PPP/RNBQKBNR w KQkq e6 0 2"
  = "rnbqkbnr/pppp1ppp/8/4p3/4P3/8/PPPP1PPP/RNBQKBNR w KQkq e6".
Proof.
  apply (normalizePosition_drops_counters
           "rnbqkbnr/pppp1ppp/8/4p3/4P3/8/PPPP1PPP/RNBQKBNR" "w" "KQkq" "e6"
           "0" "2" "7" "31"); reflexivity.
Defined.

(** C10. Normalising a key again returns the key: for every string [s],
    [normalizePosition (normalizePosition s) = normalizePosition s]. *)
Theorem normalizePosition_idempotent (s : string) :
  normalizePosition (normalizePosition s) = normalizePosition s.
Proof.
  unfold normalizePosition, slice. rewrite !drop_0.
  set (parts := split " " s).
  assert (take 4 parts <> []) as Hne.
  { pose proof (split_nonempty " " s) as Hs. fold parts in Hs.
    destruct parts; [congruence | discriminate]. }
  assert (Forall (fun f => free_of " " f = true) (take 4 parts)) as Hfree
    by (apply Forall_take, split_fields_free).
  rewrite (split_join " " (take 4 parts) Hne Hfree).
  rewrite take_take. reflexivity.
Qed.


(** ** The running statistics *)

Section Running.
Context {num : Type} {A : Arithmetic num}.

Lemma find_app_new {B} (p : B -> bool) l x :
  List.find p l = None -> p x = true -> List.find p (l ++ [x]) = Some x.
Proof.
  induction l as [|y l IH]; simpl; intros Hl Hx.
  - rewrite Hx. reflexivity.
  - destruct (p y); [discriminate | auto].
Qed.

Lemma find_updateFirst {B} (p : B -> bool) (f : B -> B) l x :
  List.find p l = Some x -> p (f x) = true ->
  List.find p (updateFirst p f l) = Some (f x).
Proof.
  induction l as [|y l IH]; simpl; intros Hl Hx; [discriminate|].
  destruct (p y) eqn:Hy.
  - injection Hl as ->. simpl. rewrite Hx. reflexivity.
  - simpl. rewrite Hy. auto.
Qed.

Lemma find_holds {B} (p : B -> bool) l x : List.find p l = Some x -> p x = true.
Proof. intros Hf. apply List.find_some in Hf. tauto. Qed.

(** The first observation creates the entry. *)
Lemma book_first book fen move whiteWon blackWon draw side evaluation :
  entryOf book fen move = None ->
  entryOf (addToOpeningBook book fen move whiteWon blackWon draw side evaluation)
          fen move
  = Some (mkOpeningMove fen move 1 (winsFor side whiteWon blackWon draw) evaluation).
Proof.
  unfold entryOf, addToOpeningBook. intros Hnone.
  rewrite Hnone, lookup_insert_eq. simpl.
  apply find_app_new; [assumption | apply String.eqb_refl].
Qed.

(** A later observation increments the counter and folds the values. *)
Lemma book_next book fen move whiteWon blackWon draw side evaluation e :
  entryOf book fen move = Some e ->
  entryOf (addToOpeningBook book fen move whiteWon blackWon draw side evaluation)
          fen move
  = Some (mkOpeningMove (om_fen e) (om_move e) (S (om_count e))
            (fold_mean (om_winRate e) (S (om_count e))
                       (winsFor side whiteWon blackWon draw))
            (fold_mean (om_avgEvaluation e) (S (om_count e)) evaluation)).
Proof.
  unfold entryOf, addToOpeningBook. intros Hsome.
  rewrite Hsome, lookup_insert_eq. simpl.
  match goal with
  | |- List.find ?p (updateFirst ?p ?f ?l) = _ =>
      apply (find_updateFirst p f l e Hsome)
  end.
  simpl. apply (find_holds _ _ _ Hsome).
Qed.

Lemma recordAll_present fen move obs : forall book e,
  entryOf book fen move = Some e ->
  exists e',
    entryOf (recordAll book fen move obs) fen move = Some e' /\
    om_count e' = (om_count e + length obs)%nat /\
    om_winRate e' = runFrom (om_winRate e) (om_count e) (map outcomeOf obs) /\
    om_avgEvaluation e'
    = runFrom (om_avgEvaluation e) (om_count e) (map ob_evaluation obs).
Proof.
  induction obs as [|o obs IH]; intros book e He.
  - exists e. simpl. rewrite Nat.add_0_r. auto.
  - simpl.
    pose proof (book_next book fen move (ob_whiteWon o) (ob_blackWon o)
                  (ob_draw o) (ob_side o) (ob_evaluation o) e He) as Hnext.
    destruct (IH _ _ Hnext) as (e' & Hfind & Hcount & Hwin & Havg).
    exists e'. simpl in Hcount, Hwin, Havg.
    rewrite Nat.add_succ_r. auto.
Qed.

Lemma db_first (db : gmap string (PositionData num)) fen move evaluation :
  db !! fen = None ->
  addToPositionDatabase db fen move evaluation !! fen
  = Some (mkPositionData fen [move] evaluation 1).
Proof.
  unfold addToPositionDatabase. intros ->. apply lookup_insert_eq.
Qed.

Lemma db_next (db : gmap string (PositionData num)) fen move evaluation r :
  db !! fen = Some r ->
  exists moves,
    addToPositionDatabase db fen move evaluation !! fen
    = Some (mkPositionData (pd_fen r) moves
              (fold_mean (pd_evaluation r) (S (pd_gamesPlayed r)) evaluation)
              (S (pd_gamesPlayed r))).
Proof.
  unfold addToPositionDatabase. intros ->. eexists. apply lookup_insert_eq.
Qed.

Lemma ingestAll_present fen move evaluations :
  forall (db : gmap string (PositionData num)) r,
  db !! fen = Some r ->
  exists r',
    ingestAll db fen move evaluations !! fen = Some r' /\
    pd_gamesPlayed r' = (pd_gamesPlayed r + length evaluations)%nat /\
    pd_evaluation r' = runFrom (pd_evaluation r) (pd_gamesPlayed r) evaluations.
Proof.
  induction evaluations as [|v vs IH]; intros db r Hr.
  - exists r. simpl. rewrite Nat.add_0_r. auto.
  - simpl. destruct (db_next db fen move v r Hr) as (moves & Hnext).
    destruct (IH _ _ Hnext) as (r' & Hfind & Hcount & Havg).
    exists r'. simpl in Hcount, Havg. rewrite Nat.add_succ_r. auto.
Qed.

(** The two stores after N >= 1 observations of a move that was not there:
    the counters are N and the averages are the running means. *)
Lemma stores_after book db fen move (first : Observation num) rest :
  entryOf book fen move = None -> db !! fen = None ->
  exists e r,
    entryOf (recordAll book fen move (first :: rest)) fen move = Some e /\
    ingestAll db fen move (map ob_evaluation (first :: rest)) !! fen = Some r /\
    om_count e = length (first :: rest) /\
    pd_gamesPlayed r = length (first :: rest) /\
    om_winRate e = runFrom (outcomeOf first) 1 (map outcomeOf rest) /\
    om_avgEvaluation e = runFrom (ob_evaluation first) 1 (map ob_evaluation rest) /\
    pd_evaluation r = runFrom (ob_evaluation first) 1 (map ob_evaluation rest).
Proof.
  intros Hbook Hdb.
  pose proof (book_first book fen move (ob_whiteWon first) (ob_blackWon first)
                (ob_draw first) (ob_side first) (ob_evaluation first) Hbook) as Hb.
  pose proof (db_first db fen move (ob_evaluation first) Hdb) as Hd.
  destruct (recordAll_present fen move rest _ _ Hb) as (e & He & Hc & Hw & Ha).
  destruct (ingestAll_present fen move (map ob_evaluation rest) _ _ Hd)
    as (r & Hr & Hg & Hv).
  exists e, r. simpl in *. rewrite length_map in Hg. auto 10.
Qed.

End Running.

(** ** The running mean when no fold rounds *)

Lemma hasValue_spec x q :
  hasValue x q = true -> exists v, exactValue x = Some v /\ (v == q)%Q.
Proof.
  unfold hasValue. destruct (exactValue x) as [v|]; [|discriminate].
  intros Heq. exists v. split; [reflexivity|]. apply Qeq_bool_eq, Heq.
Qed.

Lemma exactFold_spec avg n value :
  exactFold avg n value = true ->
  exists qa qv q,
    exactValue avg = Some qa /\ exactValue value = Some qv /\
    exactValue (fold_mean avg n value) = Some q /\
    (q == (qa * (inject_Z (Z.of_nat n) - 1) + qv) / inject_Z (Z.of_nat n))%Q.
Proof.
  unfold exactFold.
  destruct (exactValue avg) as [qa|]; [|discriminate].
  destruct (exactValue value) as [qv|]; [|discriminate].
  rewrite !andb_true_iff. intros [_ Hfold].
  destruct (hasValue_spec _ _ Hfold) as (q & Hq & Heq).
  exists qa, qv, q. auto.
Qed.

Lemma inject_succ n : (inject_Z (Z.of_nat (S n)) == inject_Z (Z.of_nat n) + 1)%Q.
Proof. rewrite Nat2Z.inj_succ, <- Z.add_1_r, inject_Z_plus. reflexivity. Qed.

Lemma inject_positive n : ~ (inject_Z (Z.of_nat (S n)) == 0)%Q.
Proof. unfold Qeq. simpl. lia. Qed.

(** When no fold rounds, folding keeps the mean: the mean [avg] of [n]
    values followed by more values gives the mean of them all. *)
Lemma runFrom_exact values : forall avg n qa,
  exactValue avg = Some qa ->
  exactRun avg (S n) values = true ->
  exists q s,
    exactValue (runFrom avg (S n) values) = Some q /\
    exactSum values = Some s /\
    (q == (qa * inject_Z (Z.of_nat (S n)) + s)
          / inject_Z (Z.of_nat (S n + length values)))%Q.
Proof.
  induction values as [|v vs IH]; intros avg n qa Havg Hrun.
  - exists qa, 0%Q. cbn [runFrom exactSum foldr length].
    split; [exact Havg|]. split; [reflexivity|].
    rewrite Nat.add_0_r. pose proof (inject_positive n). field. assumption.
  - cbn [exactRun] in Hrun. apply andb_true_iff in Hrun as [Hfold Hrest].
    destruct (exactFold_spec _ _ _ Hfold) as (qa' & qv & q1 & Ha & Hv & Hq1 & Heq1).
    rewrite Havg in Ha. injection Ha as <-.
    destruct (IH _ _ _ Hq1 Hrest) as (q & s & Hq & Hs & Heq).
    exists q, (qv + s)%Q. cbn [runFrom length].
    split; [exact Hq|]. split.
    + change (exactSum (v :: vs))
        with (match exactValue v, exactSum vs with
              | Some q, Some s => Some (q + s)%Q
              | _, _ => None
              end).
      rewrite Hv, Hs. reflexivity.
    + rewrite Heq, Heq1. rewrite Nat.add_succ_r.
      change (S (S n + length vs)) with (S (S n) + length vs)%nat.
      pose proof (inject_positive (S n)) as Hsn.
      pose proof (inject_positive (S n + length vs)) as Hall.
      change (S (S n + length vs)) with (S (S n) + length vs)%nat in Hall.
      rewrite (inject_succ (S n)) in Hsn |- *.
      generalize dependent (inject_Z (Z.of_nat (S (S n) + length vs))).
      generalize dependent (inject_Z (Z.of_nat (S n))).
      intros N Hsn M _ Hall. field. split; assumption.
Qed.

Lemma runFrom_isMeanOf first rest :
  exactFolds (first :: rest) = true ->
  isMeanOf (runFrom first 1 rest) (first :: rest).
Proof.
  unfold exactFolds. destruct (exactValue first) as [qa|] eqn:Hfirst; [|discriminate].
  intros Hrun.
  destruct (runFrom_exact rest first 0 qa Hfirst Hrun) as (q & s & Hq & Hs & Heq).
  exists q, ((qa + s) / inject_Z (Z.of_nat (length (first :: rest))))%Q.
  split; [exact Hq|]. split.
  - unfold exactMean.
    change (exactSum (first :: rest))
      with (match exactValue first, exactSum rest with
            | Some q, Some s => Some (q + s)%Q
            | _, _ => None
            end).
    rewrite Hfirst, Hs. reflexivity.
  - rewrite Heq. change (length (first :: rest)) with (1 + length rest)%nat.
    change (inject_Z (Z.of_nat 1)) with 1%Q.
    pose proof (inject_positive (length rest)) as Hn.
    change (S (length rest)) with (1 + length rest)%nat in Hn.
    field. assumption.
Qed.

(** C3, as the code has it. For every position key, every move and every
    sequence of N >= 1 observations of the move at the position, ingested
    into stores that do not hold the move or the position yet: count and
    gamesPlayed equal N; the stored winRate and avgEvaluation of the
    opening book and the evaluation of the position database are the
    binary64 results of the folds avg <- (avg * (n - 1) + value) / n over
    the recorded values, from the first value on; and whenever the
    recorded values are finite and no operation of these folds rounds,
    the stored number has the value of the exact arithmetic mean of the N
    recorded values. *)
Theorem running_statistics (fen move : string)
    (book : gmap string (list (OpeningMove number)))
    (db : gmap string (PositionData number))
    (first : Observation number) (rest : list (Observation number)) :
  entryOf book fen move = None -> db !! fen = None ->
  let obs := first :: rest in
  exists e r,
    entryOf (recordAll book fen move obs) fen move = Some e /\
    ingestAll db fen move (map ob_evaluation obs) !! fen = Some r /\
    om_count e = length obs /\
    pd_gamesPlayed r = length obs /\
    om_winRate e = runFrom (outcomeOf first) 1 (map outcomeOf rest) /\
    om_avgEvaluation e = runFrom (ob_evaluation first) 1 (map ob_evaluation rest) /\
    pd_evaluation r = runFrom (ob_evaluation first) 1 (map ob_evaluation rest) /\
    (exactFolds (map outcomeOf obs) = true ->
     isMeanOf (om_winRate e) (map outcomeOf obs)) /\
    (exactFolds (map ob_evaluation obs) = true ->
     isMeanOf (om_avgEvaluation e) (map ob_evaluation obs) /\
     isMeanOf (pd_evaluation r) (map ob_evaluation obs)).
Proof.
  intros Hbook Hdb obs.
  destruct (stores_after book db fen move first rest Hbook Hdb)
    as (e & r & He & Hr & Hc & Hg & Hw & Ha & Hv).
  exists e, r. subst obs.
  repeat (split; [assumption|]). split.
  - intros Hexact. rewrite Hw. apply runFrom_isMeanOf, Hexact.
  - intros Hexact. rewrite Ha, Hv. split; apply runFrom_isMeanOf, Hexact.
Qed.

(** Three games with the outcomes 1, 0.5 and 0 and the evaluations 1, 2
    and 3: no fold rounds, and the stored numbers are the means 0.5 and
    2. *)
Lemma running_statistics_witness :
  exists e r,
    entryOf (recordAll ∅ startKey "e2e4" sampleObservations) startKey "e2e4" = Some e /\
    ingestAll ∅ startKey "e2e4" (map ob_evaluation sampleObservations) !! startKey
    = Some r /\
    om_count e = 3%nat /\ pd_gamesPlayed r = 3%nat /\
    isMeanOf (om_winRate e) (map outcomeOf sampleObservations) /\
    isMeanOf (om_avgEvaluation e) (map ob_evaluation sampleObservations) /\
    isMeanOf (pd_evaluation r) (map ob_evaluation sampleObservations) /\
    om_winRate e = 0.5%float /\ om_avgEvaluation e = 2%float /\
    pd_evaluation r = 2%float.
Proof.
  assert (entryOf (num := number) ∅ startKey "e2e4" = None) as Hbook
    by reflexivity.
  destruct (running_statistics startKey "e2e4" ∅ ∅
              (mkObservation true false false "white" 1%float)
              [ mkObservation false false true "white" 2%float;
                mkObservation false true false "white" 3%float ]
              Hbook (lookup_empty _))
    as (e & r & He & Hr & Hc & Hg & Hw & Ha & Hv & Hrate & Heval).
  exists e, r.
  split; [exact He|]. split; [exact Hr|].
  split; [exact Hc|]. split; [exact Hg|].
  split; [apply Hrate; vm_compute; reflexivity|].
  split; [apply Heval; vm_compute; reflexivity|].
  split; [apply Heval; vm_compute; reflexivity|].
  split; [rewrite Hw; vm_compute; reflexivity|].
  split; [rewrite Ha; vm_compute; reflexivity|].
  rewrite Hv; vm_compute; reflexivity.
Defined.

(** The evaluations 0.1 and 0.2 are stored as 0.15000000000000002: the
    sum is rounded before it is halved. *)
Example stored_mean_of_two :
  pd_evaluation <$> (ingestAll ∅ startKey "e2e4" [0.1; 0.2]%float !! startKey)
  = Some 0.15000000000000002%float.
Proof. reflexivity. Qed.

Lemma running_mean_rounds : ~ stored_mean_is_exact.
Proof.
  intros Hclaim.
  destruct (exactMean [0.1; 0.2]%float) as [m|] eqn:Hm; [|discriminate Hm].
  destruct (Hclaim ∅ startKey "e2e4" 0.1%float [0.2%float] m (lookup_empty _) Hm)
    as (r & q & Hr & Hq & Heq).
  vm_compute in Hr. injection Hr as <-.
  vm_compute in Hq. injection Hq as <-.
  vm_compute in Hm. injection Hm as <-.
  vm_compute in Heq. discriminate Heq.
Qed.

(** ** The choice of a book move *)

Lemma getBookMove_ranked tanh svc fen rand :
  rankedMoves tanh svc fen <> [] ->
  getBookMove tanh svc fen rand = pickRanked (rankedMoves tanh svc fen) rand.
Proof.
  unfold getBookMove, rankedMoves.
  destruct (openingBook svc !! normalizePosition fen) as [[|m ms]|];
    simpl; congruence.
Qed.

(** C6. For a position whose ranked candidate list is not empty, with a
    rank-1 move that is a move token (not the empty string), and a draw
    [rand]: [getBookMove] returns the rank-1 move when rand < 0.7; the
    rank-2 move, or the rank-1 move when there is no rank-2 candidate,
    when 0.7 <= rand < 0.9; and the rank-3 move, or the rank-1 move when
    there is no rank-3 candidate, when rand >= 0.9. *)
Theorem getBookMove_selection (tanh : number -> number)
    (svc : ChessLearningService number) (fen : string) (rand : number)
    (first : ScoredMove) :
  rankedMoves tanh svc fen !! 0%nat = Some first ->
  sm_move first <> "" ->
  let rank n := sm_move (default first (rankedMoves tanh svc fen !! n)) in
  ((rand <? 0.7)%float = true ->
   getBookMove tanh svc fen rand = Some (sm_move first)) /\
  ((0.7 <=? rand)%float = true -> (rand <? 0.9)%float = true ->
   getBookMove tanh svc fen rand = Some (rank 1%nat)) /\
  ((0.9 <=? rand)%float = true ->
   getBookMove tanh svc fen rand = Some (rank 2%nat)).
Proof.
  intros Hfirst Hmove rank.
  assert (rankedMoves tanh svc fen <> []) as Hne
    by (intros E; rewrite E in Hfirst; discriminate).
  rewrite (getBookMove_ranked tanh svc fen rand Hne).
  apply String.eqb_neq in Hmove.
  subst rank. unfold pickRanked.
  set (ranked := rankedMoves tanh svc fen) in *.
  assert (ranked !! 1%nat = None -> ranked !! 2%nat = None) as Hdense.
  { intros H1. apply lookup_ge_None in H1. apply lookup_ge_None. lia. }
  rewrite Hfirst. repeat split.
  - intros ->. reflexivity.
  - intros Hge Hlt. rewrite (leb_not_gtb _ _ Hge), Hlt.
    destruct (ranked !! 1%nat) as [second|]; [reflexivity|].
    rewrite (Hdense eq_refl), Hmove. reflexivity.
  - intros Hge.
    pose proof (leb_trans 0.7 0.9 rand eq_refl Hge) as Hge7.
    rewrite (leb_not_gtb _ _ Hge7), (leb_not_gtb _ _ Hge).
    destruct (ranked !! 2%nat) as [third|]; [reflexivity|].
    simpl. rewrite Hmove. reflexivity.
Qed.

Lemma getBookMove_selection_witness :
  getBookMove Toy.tanhApprox sampleService startFen 0.5 = Some "e2e4" /\
  getBookMove Toy.tanhApprox sampleService startFen 0.8 = Some "d2d4" /\
  getBookMove Toy.tanhApprox sampleService startFen 0.95 = Some "g1f3".
Proof.
  assert (rankedMoves Toy.tanhApprox sampleService startFen !! 0%nat
          = Some (mkScored "e2e4" 0.61980148883374686)) as Hfirst by reflexivity.
  assert (sm_move (mkScored "e2e4" 0.61980148883374686) <> "") as Hmove
    by discriminate.
  split; [|split].
  - apply (proj1 (getBookMove_selection Toy.tanhApprox sampleService startFen 0.5
                    _ Hfirst Hmove)). reflexivity.
  - apply (proj1 (proj2 (getBookMove_selection Toy.tanhApprox sampleService startFen
                           0.8 _ Hfirst Hmove))); reflexivity.
  - apply (proj2 (proj2 (getBookMove_selection Toy.tanhApprox sampleService startFen
                           0.95 _ Hfirst Hmove))). reflexivity.
Defined.

(** With the empty string as the only candidate, the last return of
    [getBookMove] gives null. *)
Example getBookMove_empty_token :
  pickRanked [mkScored "" 1] 0.95 = None.
Proof. reflexivity. Qed.


(** ** Moves without a stored evaluation *)

Section Absent.
Context {num : Type} {A : Arithmetic num} (parseFloat : string -> num).
Context {Chess : Type} {R : RulesEngine Chess}.

Lemma evaluationOf_absent move :
  parseFloat "0" = zero -> evaluationAbsent move ->
  evaluationOf parseFloat move = zero.
Proof.
  intros Hzero [Habsent|Habsent]; unfold evaluationOf; rewrite Habsent; exact Hzero.
Qed.

(** C9, as the code has it. In the loop of [processGameForLearning], a
    move whose stored evaluation is absent is ingested with the evaluation
    0 (the value of [parseFloat] at "0") into the position database and,
    when its index is below the opening horizon of 15, into the opening
    book; from the horizon on the opening book is left as it is. In the
    position database it therefore folds the value 0 into the running
    average. *)
Theorem absent_evaluation_is_zero (svc : ChessLearningService num)
    (result : string) (chess : Chess) (i : nat) (move : MoveRow)
    (rest : list MoveRow) :
  parseFloat "0" = zero -> evaluationAbsent move ->
  let positionKey := normalizePosition (chess_fen chess) in
  let after := ingestMove parseFloat svc result chess i move in
  processMoves parseFloat svc result chess i (move :: rest)
  = match chess_move chess (row_san move) with
    | Moved _ next => processMoves parseFloat after result next (S i) rest
    | Refused next => processMoves parseFloat after result next (S i) rest
    | Thrown _ => after
    end /\
  positionDatabase after
  = addToPositionDatabase (positionDatabase svc) positionKey (row_uci move) zero /\
  ((i < maxOpeningMoves)%nat ->
   openingBook after
   = addToOpeningBook (openingBook svc) positionKey (row_uci move)
       (String.eqb result "1-0") (String.eqb result "0-1")
       (String.eqb result "1/2-1/2") (row_side move) zero) /\
  ((maxOpeningMoves <= i)%nat -> openingBook after = openingBook svc) /\
  (forall r, positionDatabase svc !! positionKey = Some r ->
     exists r',
       positionDatabase after !! positionKey = Some r' /\
       pd_gamesPlayed r' = S (pd_gamesPlayed r) /\
       pd_evaluation r' = fold_mean (pd_evaluation r) (S (pd_gamesPlayed r)) zero).
Proof.
  intros Hzero Habsent positionKey after.
  pose proof (evaluationOf_absent move Hzero Habsent) as Heval.
  split; [reflexivity|].
  subst after. unfold ingestMove. fold positionKey. rewrite Heval. simpl.
  split; [reflexivity|]. split; [|split].
  - intros Hlt. apply Nat.ltb_lt in Hlt. rewrite Hlt. reflexivity.
  - intros Hge. apply Nat.ltb_ge in Hge. rewrite Hge. reflexivity.
  - intros r Hr. destruct (db_next (positionDatabase svc) positionKey (row_uci move)
                             zero r Hr) as (moves & Hnext).
    eexists. split; [exact Hnext|]. split; reflexivity.
Qed.

End Absent.

Lemma absent_evaluation_is_zero_witness :
  let after :=
    ingestMove (Chess := Toy.Board) (H0 := Toy.engine false) Toy.parseDecimal
      emptyService "1-0" Toy.start 0 unevaluatedMove in
  positionDatabase after
  = addToPositionDatabase ∅ "toy w - -" "e2e4" 0%float /\
  openingBook after
  = addToOpeningBook ∅ "toy w - -" "e2e4" true false false "white" 0%float.
Proof.
  assert (Toy.parseDecimal "0" = zero) as Hzero by reflexivity.
  destruct (absent_evaluation_is_zero (R := Toy.engine false) Toy.parseDecimal
              emptyService "1-0" Toy.start 0 unevaluatedMove [] Hzero
              (or_introl eq_refl)) as (_ & Hdb & Hbook & _).
  split; [exact Hdb | apply Hbook; unfold maxOpeningMoves; lia].
Defined.

(** The sixteenth move of a game (index 15) does not reach the opening
    book. *)
Lemma sixteenth_move_not_in_book : ~ ingested_into_both.
Proof.
  intros Hclaim.
  destruct (Hclaim emptyService "1-0" Toy.start 15%nat unevaluatedMove
              (or_introl eq_refl)) as [_ Hbook].
  apply (f_equal (fun book => book !! "toy w - -")) in Hbook.
  vm_compute in Hbook. discriminate Hbook.
Qed.

End LearningProps.
(* ===================================================================== *)
(** * Properties of the game service                                       *)
(* ===================================================================== *)

Module ChessGameProps.
Import JSString JSNumber JSNumberFacts Rules Learning ChessGame ChessGameSpec.
Local Open Scope list_scope.

(** ** A rejected move *)

(** C8. With a rules engine that leaves its instance as it was when it
    turns a move down: for every game state and every move string, when
    [makeMove] returns null the instance is the one before the call, and
    so is the game state that [getGameState] reports (position, PGN, move
    history, turn and the flags). *)
Theorem makeMove_rejected_keeps_state {Chess : Type} {R : RulesEngine Chess}
    (chess : Chess) (move : string) :
  rejection_keeps_instance ->
  fst (makeMove chess move) = None ->
  snd (makeMove chess move) = chess /\
  getGameState (snd (makeMove chess move)) = getGameState chess.
Proof.
  intros Hkeep Hnull. unfold makeMove in *.
  destruct (chess_move chess move) as [obj after|after|after] eqn:Hmove;
    simpl in *; [discriminate| |];
    rewrite (Hkeep chess move after) by auto; split; reflexivity.
Qed.

Lemma toy_rejection_keeps_instance throwing :
  @rejection_keeps_instance Toy.Board (Toy.engine throwing).
Proof.
  intros chess move after. simpl. unfold Toy.boardMove.
  destruct (List.find _ (Toy.openMoves chess)); [intros [H|H]; discriminate|].
  destruct throwing; intros [H|H]; congruence.
Qed.

Lemma makeMove_rejected_keeps_state_witness :
  snd (makeMove (H := Toy.engine true) afterE4 "e2e4") = afterE4 /\
  getGameState (H := Toy.engine true)
    (snd (makeMove (H := Toy.engine true) afterE4 "e2e4"))
  = getGameState (H := Toy.engine true) afterE4.
Proof.
  apply (makeMove_rejected_keeps_state (R := Toy.engine true) afterE4 "e2e4").
  - apply toy_rejection_keeps_instance.
  - reflexivity.
Defined.

(** ** Illegal candidates in the move selection *)

Section MoveSelection.
Context {Chess : Type} {R : RulesEngine Chess}.
Variable tanh : number -> number.
Variable learningService : ChessLearningService number.
Variable answer : nat -> list string.
Variable difficulty : number.
Variable draws : Draws.

Lemma fromEngine_outcome currentFen chess sf outcome chess' sf' :
  fromEngine answer difficulty currentFen chess sf = Done outcome chess' sf' ->
  outcome <> Failed.
Proof.
  unfold fromEngine.
  destruct (Stockfish.getBestMove sf currentFen _) as [completion sf1].
  destruct (match completion with
            | Stockfish.Returned bestMove =>
                (Some (Stockfish.BestMoveValue (Some bestMove)), sf1)
            | Stockfish.Pending promise =>
                Stockfish.awaitPromise sf1 promise (answer promise)
            | Stockfish.AwaitingReady => (None, sf1)
            end) as [[[[bestMove|]|evaluation]|] sf2];
    try discriminate.
  - destruct (chess_move chess bestMove); intros Heq; inversion Heq; discriminate.
  - intros Heq; inversion Heq; discriminate.
Qed.

Lemma tryLearned_result chess moves result chess' :
  tryLearned chess moves = inl (Some result, chess') -> result <> None.
Proof.
  revert chess. induction moves as [|move moves IH]; intros chess; simpl.
  - discriminate.
  - destruct (chess_move chess move); [|apply IH|discriminate].
    intros Heq. inversion Heq. discriminate.
Qed.

Lemma fromStore_outcome currentFen chess sf outcome chess' sf' :
  fromStore learningService answer difficulty draws currentFen chess sf
  = Done outcome chess' sf' ->
  outcome <> Failed.
Proof.
  unfold fromStore.
  destruct (hasLearnedPosition learningService currentFen);
    [|apply fromEngine_outcome].
  destruct (_ && _); [|apply fromEngine_outcome].
  destruct (tryLearned chess _) as [[[result|] chess1]|chess1].
  - intros Heq; inversion Heq; discriminate.
  - apply fromEngine_outcome.
  - discriminate.
Qed.

Lemma fromBook_outcome chess sf outcome chess' sf' :
  fromBook tanh learningService answer difficulty draws chess sf
  = Done outcome chess' sf' ->
  outcome <> Failed.
Proof.
  unfold fromBook.
  destruct (_ <? 15)%nat; [|apply fromStore_outcome].
  destruct (getBookMove _ _ _ _) as [bookMove|]; [|apply fromStore_outcome].
  destruct (String.eqb bookMove ""); [apply fromStore_outcome|].
  destruct (chess_move chess bookMove).
  - intros Heq; inversion Heq; discriminate.
  - apply fromStore_outcome.
  - discriminate.
Qed.

Lemma randomFallback_outcome chess :
  fallbackSound draws -> fst (randomFallback draws chess) <> Failed.
Proof.
  intros Hsound. unfold randomFallback.
  destruct (bool_decide (chess_moves chess = [])) eqn:Hempty; [discriminate|].
  apply bool_decide_eq_false in Hempty.
  destruct (Hsound chess Hempty) as (move & obj & after & Hpick & Hmove).
  rewrite Hpick, Hmove. discriminate.
Qed.

(** C1, what the code does. In [makeAIMove], when the rules engine turns
    the candidate of the opening book down by an exception, as chess.js
    does, the operation does not go on with the position database: its
    handler plays a random legal move (or returns null when there is
    none) and the engine is not asked. The same holds when the first
    recorded move of the position database is turned down by an
    exception: no further recorded move is tried and the engine is not
    asked. In neither case, nor in any other, does the operation fail,
    provided the random fallback finds a move that the rules engine
    plays. *)
Theorem makeAIMove_thrown_candidate (chess : Chess) (sf : Stockfish.StockfishEngine) :
  let currentFen := chess_fen chess in
  let commonMoves := getCommonMoves learningService currentFen in
  let run := makeAIMove tanh learningService answer difficulty draws in
  let store := fromStore learningService answer difficulty draws currentFen in
  (forall bookMove after,
     (length (chess_history chess) < 15)%nat ->
     getBookMove tanh learningService currentFen (bookDraw draws) = Some bookMove ->
     bookMove <> "" ->
     chess_move chess bookMove = Thrown after ->
     run chess sf = (randomFallback draws after, sf)) /\
  (forall entered learnedMove rest after,
     hasLearnedPosition learningService currentFen = true ->
     (learnedDraw draws <? difficulty / 2000)%float = true ->
     commonMoves = learnedMove :: rest ->
     chess_move entered learnedMove = Thrown after ->
     withFallback draws (store entered sf) = (randomFallback draws after, sf)) /\
  (fallbackSound draws -> fst (fst (run chess sf)) <> Failed).
Proof.
  intros currentFen commonMoves run store. split; [|split].
  - intros bookMove after Hcount Hbook Hne Hthrown. apply Nat.ltb_lt in Hcount.
    apply String.eqb_neq in Hne.
    subst run store. unfold makeAIMove, fromBook. fold currentFen.
    rewrite Hcount, Hbook, Hne, Hthrown. simpl.
    destruct (randomFallback draws after). reflexivity.
  - intros entered learnedMove rest after Hlearned Hdraw Hmoves Hthrown.
    subst store. unfold fromStore. fold commonMoves.
    rewrite Hlearned, Hdraw, Hmoves. cbn [andb negb tryLearned].
    rewrite bool_decide_eq_false_2 by discriminate. cbn [negb].
    rewrite Hthrown. simpl.
    destruct (randomFallback draws after). reflexivity.
  - intros Hsound. subst run. unfold makeAIMove, withFallback.
    destruct (fromBook _ _ _ _ _ chess sf) as [outcome chess' sf'|chess' sf'] eqn:Hbook.
    + simpl. eapply fromBook_outcome. exact Hbook.
    + pose proof (randomFallback_outcome chess' Hsound) as Hfall.
      destruct (randomFallback draws chess'). exact Hfall.
Qed.

End MoveSelection.

(** In the toy game the random fallback always finds a move. *)
Lemma toy_fallbackSound throwing :
  @fallbackSound Toy.Board (Toy.engine throwing) sampleDraws.
Proof.
  intros chess Hmoves. simpl in *.
  unfold Toy.boardMove. unfold Toy.openMoves, Toy.catalogue in *.
  cbn [List.filter] in *.
  destruct (Toy.isPlayed chess (mkMoveObject "e4" "e2" "e4" None None));
    destruct (Toy.isPlayed chess (mkMoveObject "d4" "d2" "d4" None None));
    destruct (Toy.isPlayed chess (mkMoveObject "Nf3" "g1" "f3" None None));
    destruct (Toy.isPlayed chess (mkMoveObject "c4" "c2" "c4" None None));
    cbn [negb map] in *; try congruence;
    eexists _, _, _; (split; [reflexivity|]); reflexivity.
Qed.

(** A new game, an opening book that holds a1a1 for its position and a
    position database that holds d2d4: the rules engine throws on a1a1,
    and the operation plays the random move c4, where the position
    database would have given d4. *)
Lemma makeAIMove_thrown_candidate_witness :
  getBookMove Toy.tanhApprox trapService (Toy.boardFen Toy.start)
    (bookDraw sampleDraws) = Some "a1a1" /\
  Toy.boardMove true Toy.start "a1a1" = Thrown Toy.start /\
  getCommonMoves trapService (Toy.boardFen Toy.start) = ["d2d4"] /\
  makeAIMove (H := Toy.engine true) Toy.tanhApprox trapService silent 1600
    sampleDraws Toy.start noEngine
  = (Fulfilled (Some (mkGameMove "c4" "c2c4" "toy/c4 b - - 0 1")),
     snd (makeMove (H := Toy.engine true) Toy.start "c4"), noEngine) /\
  withFallback (H := Toy.engine true) sampleDraws
    (fromStore (H := Toy.engine true) trapService silent 1600 sampleDraws
       (Toy.boardFen Toy.start) Toy.start noEngine)
  = (Fulfilled (Some (mkGameMove "d4" "d2d4" "toy/d4 b - - 0 1")),
     snd (makeMove (H := Toy.engine true) Toy.start "d4"), noEngine).
Proof.
  destruct (makeAIMove_thrown_candidate (R := Toy.engine true) Toy.tanhApprox
              trapService silent 1600 sampleDraws Toy.start noEngine)
    as (Hbook & _ & _).
  assert (getBookMove Toy.tanhApprox trapService
            (chess_fen (RulesEngine := Toy.engine true) Toy.start)
            (bookDraw sampleDraws) = Some "a1a1") as Hcandidate by reflexivity.
  assert ("a1a1" <> "") as Hne by discriminate.
  assert (length (chess_history (RulesEngine := Toy.engine true) Toy.start) < 15)%nat
    as Hcount by (simpl; lia).
  split; [exact Hcandidate|]. split; [reflexivity|]. split; [reflexivity|].
  split; [|reflexivity].
  rewrite (Hbook "a1a1" Toy.start Hcount Hcandidate Hne eq_refl).
  reflexivity.
Defined.

(** With a rules engine that throws, the illegal candidate of the opening
    book leads to the random move c4, although the position database
    holds the legal move d2d4. *)
Example random_move_instead_of_learned :
  fst (fst (makeAIMove (H := Toy.engine true) Toy.tanhApprox trapService silent
              1600 sampleDraws Toy.start noEngine))
  = Fulfilled (Some (mkGameMove "c4" "c2c4" "toy/c4 b - - 0 1")) /\
  fst (fst (withFallback (H := Toy.engine true) sampleDraws
              (fromStore (H := Toy.engine true) trapService silent 1600
                 sampleDraws (Toy.boardFen Toy.start) Toy.start noEngine)))
  = Fulfilled (Some (mkGameMove "d4" "d2d4" "toy/d4 b - - 0 1")).
Proof. split; reflexivity. Qed.

Lemma thrown_candidate_skips_sources : ~ falls_through_always.
Proof.
  intros Hclaim.
  assert (getBookMove Toy.tanhApprox trapService (Toy.boardFen Toy.start)
            (bookDraw sampleDraws) = Some "a1a1") as Hcandidate by reflexivity.
  assert ("a1a1" <> "") as Hne by discriminate.
  assert (length (Toy.played Toy.start) < 15)%nat as Hcount by (simpl; lia).
  pose proof (Hclaim true Toy.tanhApprox trapService silent 1600%float sampleDraws
                Toy.start noEngine "a1a1" Toy.start Hcount Hcandidate Hne
                (or_intror eq_refl)) as Heq.
  apply (f_equal (fun r => fst (fst r))) in Heq.
  destruct random_move_instead_of_learned as [Hcode Hstore].
  rewrite Hcode, Hstore in Heq. discriminate Heq.
Qed.

End ChessGameProps.

(* ===================================================================== *)
(** * Properties of the engine client over time                            *)
(* ===================================================================== *)

Module SessionProps.
Import JSString JSNumber JSNumberFacts Stockfish StockfishSession.
Local Open Scope list_scope.

(** ** What an event changes *)

Lemma sendCommand_bookkeeping st c :
  resolveMap (sendCommand st c) = resolveMap st /\
  settled (sendCommand st c) = settled st /\
  fresh (sendCommand st c) = fresh st /\
  isReady (sendCommand st c) = isReady st.
Proof. unfold sendCommand. destruct (engine st); repeat split. Qed.

(** A line either leaves the bookkeeping of the promises as it is, or
    calls one resolver of the map and removes it. *)
Lemma handleLine_effect st line :
  (resolveMap (handleLine st line) = resolveMap st /\
   settled (handleLine st line) = settled st /\
   fresh (handleLine st line) = fresh st) \/
  (exists kind k v,
     resolveMap st !! kind = Some k /\
     resolveMap (handleLine st line) = delete kind (resolveMap st) /\
     settled (handleLine st line) = settled st ++ [(k, v)] /\
     fresh (handleLine st line) = fresh st).
Proof.
  unfold handleLine.
  destruct (String.eqb line "uciok").
  { left. destruct (sendCommand_bookkeeping st IsReady) as (-> & -> & -> & _). auto. }
  destruct (String.eqb line "readyok"); [left; auto|].
  destruct (startsWith "bestmove" line).
  { destruct (resolveMap st !! "bestmove") as [k|] eqn:Hk; [|left; auto].
    right. exists "bestmove", k, (BestMoveValue (split " " line !! 1%nat)). auto. }
  destruct (startsWith "info" line); [|left; auto].
  unfold parseEvaluation.
  destruct (resolveMap st !! "evaluation") as [k|] eqn:Hk; [|left; auto].
  destruct (10 <=? frameDepth line)%float; [|left; auto].
  right. exists "evaluation", k, (EvaluationValue (frameEvaluation line)). auto.
Qed.

(** A call either leaves the bookkeeping as it is, or stores a resolver
    with the next number under its kind. *)
Lemma call_effect st ev :
  match ev with CallBestMove _ _ | CallEvaluate _ _ => True | _ => False end ->
  (resolveMap (react st ev) = resolveMap st /\
   settled (react st ev) = settled st /\
   fresh (react st ev) = fresh st) \/
  (exists kind,
     resolveMap (react st ev) = <[kind := fresh st]> (resolveMap st) /\
     settled (react st ev) = settled st /\
     fresh (react st ev) = S (fresh st)).
Proof.
  destruct ev as [fen t|fen d| |]; try contradiction; intros _; simpl;
    unfold getBestMove, evaluatePosition;
    (destruct (negb (isReady st)); [left; auto|]);
    (destruct (engine st) as [p|] eqn:He; [|left; auto]); right;
    [exists "bestmove" | exists "evaluation"]; simpl; auto.
Qed.

(** ** Every promise is resolved at most once *)

Lemma consistent_same st st' :
  resolveMap st' = resolveMap st -> settled st' = settled st ->
  fresh st' = fresh st -> consistent st -> consistent st'.
Proof.
  intros Hm Hs Hf [H1 H2 H3 H4 H5].
  split; unfold resolvedPromises in *; rewrite ?Hm, ?Hs, ?Hf; assumption.
Qed.

Lemma consistent_resolved st st' kind k v :
  resolveMap st !! kind = Some k ->
  resolveMap st' = delete kind (resolveMap st) ->
  settled st' = settled st ++ [(k, v)] ->
  fresh st' = fresh st ->
  consistent st -> consistent st'.
Proof.
  intros Hk Hm Hs Hf [H1 H2 H3 H4 H5].
  assert (resolvedPromises st' = resolvedPromises st ++ [k]) as Hr
    by (unfold resolvedPromises; rewrite Hs, fmap_app; reflexivity).
  split; rewrite ?Hm, ?Hr, ?Hf.
  - intros kind' k' Hl. apply lookup_delete_Some in Hl as [_ Hl]. eauto.
  - intros k' Hin. apply elem_of_app in Hin as [Hin|Hin]; [eauto|].
    apply list_elem_of_singleton in Hin as ->. eauto.
  - apply NoDup_app. split; [assumption|]. split; [|apply NoDup_singleton].
    intros k' Hin Hin'. apply list_elem_of_singleton in Hin' as ->.
    exact (H4 _ _ Hk Hin).
  - intros kind' k' Hl Hin. apply lookup_delete_Some in Hl as [Hne Hl].
    apply elem_of_app in Hin as [Hin|Hin]; [exact (H4 _ _ Hl Hin)|].
    apply list_elem_of_singleton in Hin as ->.
    apply Hne. symmetry. exact (H5 _ _ _ Hl Hk).
  - intros kind1 kind2 k' Hl1 Hl2.
    apply lookup_delete_Some in Hl1 as [_ Hl1].
    apply lookup_delete_Some in Hl2 as [_ Hl2]. eauto.
Qed.

Lemma consistent_called st st' kind :
  resolveMap st' = <[kind := fresh st]> (resolveMap st) ->
  settled st' = settled st ->
  fresh st' = S (fresh st) ->
  consistent st -> consistent st'.
Proof.
  intros Hm Hs Hf [H1 H2 H3 H4 H5].
  assert (resolvedPromises st' = resolvedPromises st) as Hr
    by (unfold resolvedPromises; rewrite Hs; reflexivity).
  split; rewrite ?Hm, ?Hr, ?Hf.
  - intros kind' k' Hl. apply lookup_insert_Some in Hl as [[_ <-]|[_ Hl]].
    + lia.
    + specialize (H1 _ _ Hl). lia.
  - intros k' Hin. specialize (H2 _ Hin). lia.
  - assumption.
  - intros kind' k' Hl Hin. apply lookup_insert_Some in Hl as [[_ <-]|[_ Hl]].
    + specialize (H2 _ Hin). lia.
    + exact (H4 _ _ Hl Hin).
  - intros kind1 kind2 k' Hl1 Hl2.
    apply lookup_insert_Some in Hl1 as [[<- <-]|[Hne1 Hl1]];
      apply lookup_insert_Some in Hl2 as [[E2 E2']|[Hne2 Hl2]]; subst; try congruence.
    + specialize (H1 _ _ Hl2). lia.
    + specialize (H1 _ _ Hl1). lia.
    + eauto.
Qed.

Lemma handleLine_consistent st line : consistent st -> consistent (handleLine st line).
Proof.
  intros Hc.
  destruct (handleLine_effect st line) as [(Hm & Hs & Hf)|(kind & k & v & Hk & Hm & Hs & Hf)].
  - exact (consistent_same _ _ Hm Hs Hf Hc).
  - exact (consistent_resolved _ _ _ _ _ Hk Hm Hs Hf Hc).
Qed.

Lemma feed_consistent lines : forall st, consistent st -> consistent (feed st lines).
Proof.
  induction lines as [|l lines IH]; intros st Hc; [exact Hc|].
  apply (IH (handleLine st l)), handleLine_consistent, Hc.
Qed.

Lemma react_consistent st ev : consistent st -> consistent (react st ev).
Proof.
  intros Hc. destruct ev as [fen t|fen d|data|].
  - destruct (call_effect st (CallBestMove fen t) I) as [(Hm & Hs & Hf)|(kind & Hm & Hs & Hf)].
    + exact (consistent_same _ _ Hm Hs Hf Hc).
    + exact (consistent_called _ _ _ Hm Hs Hf Hc).
  - destruct (call_effect st (CallEvaluate fen d) I) as [(Hm & Hs & Hf)|(kind & Hm & Hs & Hf)].
    + exact (consistent_same _ _ Hm Hs Hf Hc).
    + exact (consistent_called _ _ _ Hm Hs Hf Hc).
  - apply feed_consistent, Hc.
  - apply (consistent_same st); auto.
Qed.

Lemma initEngine_consistent spawned : consistent (initEngine spawned).
Proof.
  assert (consistent newEngine) as Hnew.
  { split; unfold resolvedPromises; simpl.
    - intros kind k Hl. rewrite lookup_empty in Hl. discriminate.
    - intros k Hin. inversion Hin.
    - constructor.
    - intros kind k Hl. rewrite lookup_empty in Hl. discriminate.
    - intros kind1 kind2 k Hl. rewrite lookup_empty in Hl. discriminate. }
  destruct spawned as [p|].
  - apply (consistent_same newEngine); [| |reflexivity|exact Hnew];
      unfold initEngine;
      match goal with
      | |- ?proj (sendCommand (sendCommand ?s ?c1) ?c2) = _ =>
          destruct (sendCommand_bookkeeping (sendCommand s c1) c2) as (Hm2 & Hs2 & _);
          destruct (sendCommand_bookkeeping s c1) as (Hm1 & Hs1 & _);
          rewrite ?Hm2, ?Hm1, ?Hs2, ?Hs1; reflexivity
      end.
  - apply (consistent_same newEngine); [reflexivity..|exact Hnew].
Qed.

Lemma session_consistent spawned events : consistent (session spawned events).
Proof.
  unfold session. generalize (initEngine_consistent spawned).
  generalize (initEngine spawned).
  induction events as [|ev events IH]; intros st Hc; [exact Hc|].
  apply (IH (react st ev)), react_consistent, Hc.
Qed.

(** Whatever calls, output chunks and error events follow the
    construction of the client, the resolver calls made so far belong to
    different promises: no promise is resolved twice. *)
Theorem promise_resolved_at_most_once (spawned : option ChildProcess)
    (events : list Event) :
  NoDup (resolvedPromises (session spawned events)).
Proof. apply resolved_once, session_consistent. Qed.


(** ** A request that is overtaken *)

Lemma orphaned_same k st st' :
  resolveMap st' = resolveMap st -> fresh st' = fresh st ->
  orphaned k st -> orphaned k st'.
Proof. intros Hm Hf [Hk Hno]. split; rewrite ?Hm, ?Hf; assumption. Qed.

Lemma handleLine_orphaned k st line :
  orphaned k st ->
  orphaned k (handleLine st line) /\
  (k ∈ resolvedPromises (handleLine st line) <-> k ∈ resolvedPromises st).
Proof.
  intros [Hk Hno]. unfold orphaned, resolvedPromises.
  destruct (handleLine_effect st line)
    as [(-> & -> & ->)|(kind & k' & v & Hk' & -> & -> & ->)].
  - tauto.
  - split; [split; [assumption|]|].
    + intros kind' Hl. apply lookup_delete_Some in Hl as [_ Hl]. exact (Hno _ Hl).
    + rewrite fmap_app, elem_of_app. simpl. rewrite list_elem_of_singleton.
      split; [|tauto]. intros [Hin| ->]; [assumption|].
      destruct (Hno _ Hk').
Qed.

Lemma feed_orphaned k lines : forall st,
  orphaned k st ->
  orphaned k (feed st lines) /\
  (k ∈ resolvedPromises (feed st lines) <-> k ∈ resolvedPromises st).
Proof.
  induction lines as [|l lines IH]; intros st Ho; [tauto|].
  destruct (handleLine_orphaned k st l Ho) as [Ho' Hiff].
  destruct (IH _ Ho') as [Ho'' Hiff'].
  split; [exact Ho''|]. rewrite <- Hiff. exact Hiff'.
Qed.

Lemma react_orphaned k st ev :
  orphaned k st ->
  orphaned k (react st ev) /\
  (k ∈ resolvedPromises (react st ev) <-> k ∈ resolvedPromises st).
Proof.
  intros Ho.
  assert (forall ev', match ev' with CallBestMove _ _ | CallEvaluate _ _ => True
                                | _ => False end ->
          orphaned k (react st ev') /\
          (k ∈ resolvedPromises (react st ev') <-> k ∈ resolvedPromises st)) as Hcall.
  { intros ev' Hev. destruct Ho as [Hk Hno]. unfold orphaned, resolvedPromises.
    destruct (call_effect st ev' Hev) as [(-> & -> & ->)|(kind & -> & -> & ->)].
    - tauto.
    - split; [|tauto]. split; [lia|].
      intros kind' Hl. apply lookup_insert_Some in Hl as [[_ Hl]|[_ Hl]].
      + lia.
      + exact (Hno _ Hl). }
  destruct ev as [fen t|fen d|data|].
  - apply Hcall. exact I.
  - apply Hcall. exact I.
  - apply feed_orphaned, Ho.
  - split; [|reflexivity]. apply (orphaned_same k st); auto.
Qed.

Lemma events_orphaned k events : forall st,
  orphaned k st ->
  k ∈ resolvedPromises (foldl react st events) <-> k ∈ resolvedPromises st.
Proof.
  induction events as [|ev events IH]; intros st Ho; [reflexivity|].
  destruct (react_orphaned k st ev Ho) as [Ho' Hiff].
  simpl. rewrite (IH _ Ho'). exact Hiff.
Qed.

(** A call of [getBestMove] on a ready client with a process: the promise
    gets the next number, its resolver is stored under "bestmove", and
    the position and the search command are written. *)
Lemma getBestMove_running st fen timeMs :
  isReady st = true -> engine st <> None ->
  let st' := snd (getBestMove st fen timeMs) in
  fst (getBestMove st fen timeMs) = Pending (fresh st) /\
  resolveMap st' = <["bestmove" := fresh st]> (resolveMap st) /\
  settled st' = settled st /\
  fresh st' = S (fresh st) /\
  isReady st' = true /\
  engine st' <> None /\
  written st' = written st ++ [PositionFen fen; GoMovetime timeMs].
Proof.
  intros Hready Hengine. unfold getBestMove, written, sendCommand.
  destruct (engine st) as [p|] eqn:He; [|congruence].
  rewrite Hready. simpl. rewrite <- app_assoc. repeat split. discriminate.
Qed.

(** When [getBestMove] is called again before the engine has answered the
    first call, the promise of the first call is never resolved, whatever
    follows: its resolver was replaced in the map. *)
Theorem overtaken_request_never_resolved (spawned : option ChildProcess)
    (before later : list Event) (fen1 fen2 : string) (t1 t2 : number) :
  let st := session spawned before in
  isReady st = true -> engine st <> None ->
  fst (getBestMove st fen1 t1) = Pending (fresh st) /\
  fst (getBestMove (react st (CallBestMove fen1 t1)) fen2 t2) = Pending (S (fresh st)) /\
  fresh st ∉ resolvedPromises
    (session spawned (before ++ CallBestMove fen1 t1 :: CallBestMove fen2 t2 :: later)).
Proof.
  intros st Hready Hengine.
  destruct (getBestMove_running st fen1 t1 Hready Hengine)
    as (H1 & Hm1 & Hs1 & Hf1 & Hr1 & He1 & _).
  split; [exact H1|].
  change (snd (getBestMove st fen1 t1)) with (react st (CallBestMove fen1 t1)) in *.
  set (st1 := react st (CallBestMove fen1 t1)) in *.
  destruct (getBestMove_running st1 fen2 t2 Hr1 He1)
    as (H2 & Hm2 & Hs2 & Hf2 & _).
  split; [rewrite H2, Hf1; reflexivity|].
  change (snd (getBestMove st1 fen2 t2)) with (react st1 (CallBestMove fen2 t2)) in *.
  unfold session. rewrite foldl_app. fold (session spawned before). fold st.
  change (foldl react st (CallBestMove fen1 t1 :: CallBestMove fen2 t2 :: later))
    with (foldl react (react st1 (CallBestMove fen2 t2)) later).
  set (st2 := react st1 (CallBestMove fen2 t2)) in *.
  pose proof (session_consistent spawned before) as Hc. fold st in Hc.
  assert (orphaned (fresh st) st2) as Ho.
  { split; [rewrite Hf2, Hf1; lia|].
    intros kind Hl. rewrite Hm2, Hf1, Hm1 in Hl.
    apply lookup_insert_Some in Hl as [[_ Hl]|[Hne Hl]]; [lia|].
    apply lookup_insert_Some in Hl as [[Heq _]|[_ Hl]]; [congruence|].
    pose proof (pending_numbered st Hc _ _ Hl). lia. }
  rewrite (events_orphaned _ later st2 Ho).
  unfold resolvedPromises. rewrite Hs2, Hs1.
  intros Hin. pose proof (resolved_numbered st Hc _ Hin). lia.
Qed.

Lemma overtaken_request_never_resolved_witness :
  fst (getBestMove (session (Some (mkProcess [])) started) "8/8/8/8/8/8/8/K6k w - - 0 1" 1000)
  = Pending 0 /\
  fst (getBestMove
         (react (session (Some (mkProcess [])) started)
                (CallBestMove "8/8/8/8/8/8/8/K6k w - - 0 1" 1000))
         "8/8/8/8/8/8/8/K6k b - - 0 1" 500)
  = Pending 1 /\
  0%nat ∉ resolvedPromises
    (session (Some (mkProcess []))
       (started ++ CallBestMove "8/8/8/8/8/8/8/K6k w - - 0 1" 1000
                :: CallBestMove "8/8/8/8/8/8/8/K6k b - - 0 1" 500
                :: [Stdout (chunkOf ["bestmove a1a2"]); Stdout (chunkOf ["bestmove h1h2"])])).
Proof.
  apply (overtaken_request_never_resolved (Some (mkProcess [])) started
           [Stdout (chunkOf ["bestmove a1a2"]); Stdout (chunkOf ["bestmove h1h2"])]
           "8/8/8/8/8/8/8/K6k w - - 0 1" "8/8/8/8/8/8/8/K6k b - - 0 1" 1000 500);
    [reflexivity | discriminate].
Defined.

(** ** The answer to a best-move request *)

Lemma bestmove_dispatch st line :
  isBestMoveLine line = true ->
  handleLine st line
  = match resolveMap st !! "bestmove" with
    | Some resolver =>
        mkEngine (engine st) (isReady st) (delete "bestmove" (resolveMap st))
          (settled st ++ [(resolver, BestMoveValue (bestMoveToken line))]) (fresh st)
    | None => st
    end.
Proof.
  unfold isBestMoveLine, handleLine. intros Hp.
  destruct line as [|c rest]; [discriminate|].
  assert (c = "b"%char) as ->.
  { cbn [startsWith] in Hp. apply andb_prop in Hp as [Hc _].
    apply Ascii.eqb_eq in Hc. congruence. }
  rewrite Hp. reflexivity.
Qed.

Lemma bestMovesSettled_app st calls :
  omap (fun call => match call with
                    | (k, BestMoveValue token) => Some (k, token)
                    | (_, EvaluationValue _) => None
                    end) (settled st ++ calls)
  = bestMovesSettled st ++
    omap (fun call => match call with
                      | (k, BestMoveValue token) => Some (k, token)
                      | (_, EvaluationValue _) => None
                      end) calls.
Proof. apply omap_app. Qed.

(** A line that is no best-move line leaves the best-move request as it
    is. *)
Lemma handleLine_other st line :
  isBestMoveLine line = false ->
  pendingBestMove (handleLine st line) = pendingBestMove st /\
  bestMovesSettled (handleLine st line) = bestMovesSettled st.
Proof.
  unfold isBestMoveLine, handleLine. intros Hb. rewrite Hb.
  destruct (String.eqb line "uciok").
  { unfold pendingBestMove, bestMovesSettled.
    destruct (sendCommand_bookkeeping st IsReady) as (-> & -> & _). auto. }
  destruct (String.eqb line "readyok"); [auto|].
  destruct (startsWith "info" line); [|auto].
  unfold parseEvaluation.
  destruct (resolveMap st !! "evaluation"); [|auto].
  destruct (10 <=? frameDepth line)%float; [|auto].
  unfold pendingBestMove, bestMovesSettled. cbn [resolveMap settled]. split.
  - apply lookup_delete_ne. discriminate.
  - rewrite bestMovesSettled_app. simpl. apply app_nil_r.
Qed.

Lemma feed_other lines : forall st,
  Forall (fun l => isBestMoveLine l = false) lines ->
  pendingBestMove (feed st lines) = pendingBestMove st /\
  bestMovesSettled (feed st lines) = bestMovesSettled st.
Proof.
  induction lines as [|l lines IH]; intros st Hall; [auto|].
  inversion Hall as [|? ? Hl Hrest]; subst.
  destruct (handleLine_other st l Hl) as [Hk He].
  destruct (IH (handleLine st l) Hrest) as [IH1 IH2].
  split; [rewrite <- Hk; exact IH1 | rewrite <- He; exact IH2].
Qed.

Lemma handleLine_no_request st line :
  pendingBestMove st = None ->
  pendingBestMove (handleLine st line) = None /\
  bestMovesSettled (handleLine st line) = bestMovesSettled st.
Proof.
  intros Hk. destruct (isBestMoveLine line) eqn:Hb.
  - rewrite bestmove_dispatch by assumption.
    unfold pendingBestMove in Hk. rewrite Hk. auto.
  - destruct (handleLine_other st line Hb) as [-> ->]. auto.
Qed.

Lemma feed_no_request lines : forall st,
  pendingBestMove st = None ->
  pendingBestMove (feed st lines) = None /\
  bestMovesSettled (feed st lines) = bestMovesSettled st.
Proof.
  induction lines as [|l lines IH]; intros st Hk; [auto|].
  destruct (handleLine_no_request st l Hk) as [Hk' He].
  destruct (IH (handleLine st l) Hk') as [IH1 IH2].
  split; [exact IH1 | rewrite <- He; exact IH2].
Qed.

(** A call of [getBestMove] on a ready client with a process, followed by
    output of the engine: the position and the search command are
    written; lines that do not start with "bestmove" leave the promise
    pending; the first line that does resolves the promise of the call
    with its second token (with undefined when it has none); and no later
    line resolves it again. *)
Theorem bestmove_answers_request (st : StockfishEngine) (fen : string)
    (timeMs : number) (quiet later : list string) (line : string) :
  isReady st = true -> engine st <> None ->
  Forall (fun l => isBestMoveLine l = false) quiet ->
  isBestMoveLine line = true ->
  let asked := snd (getBestMove st fen timeMs) in
  fst (getBestMove st fen timeMs) = Pending (fresh st) /\
  written asked = written st ++ [PositionFen fen; GoMovetime timeMs] /\
  pendingBestMove (feed asked quiet) = Some (fresh st) /\
  bestMovesSettled (feed asked quiet) = bestMovesSettled st /\
  bestMovesSettled (feed asked (quiet ++ line :: later))
  = bestMovesSettled st ++ [(fresh st, bestMoveToken line)].
Proof.
  intros Hready Hengine Hquiet Hline asked.
  destruct (getBestMove_running st fen timeMs Hready Hengine)
    as (H1 & Hm & Hs & _ & _ & _ & Hw).
  fold asked in Hm, Hs, Hw.
  assert (pendingBestMove asked = Some (fresh st)) as Hp
    by (unfold pendingBestMove; rewrite Hm; apply lookup_insert_eq).
  assert (bestMovesSettled asked = bestMovesSettled st) as Hb
    by (unfold bestMovesSettled; rewrite Hs; reflexivity).
  destruct (feed_other quiet asked Hquiet) as [Hk1 He1].
  rewrite Hp in Hk1. rewrite Hb in He1.
  repeat split; try assumption.
  unfold feed. rewrite foldl_app. simpl. fold (feed asked quiet).
  set (st1 := feed asked quiet) in *.
  assert (pendingBestMove (handleLine st1 line) = None /\
          bestMovesSettled (handleLine st1 line)
          = bestMovesSettled st ++ [(fresh st, bestMoveToken line)]) as [Hk2 He2].
  { rewrite (bestmove_dispatch st1 line Hline).
    unfold pendingBestMove in Hk1. rewrite Hk1.
    unfold pendingBestMove, bestMovesSettled. cbn [resolveMap settled]. split.
    - apply lookup_delete_eq.
    - rewrite bestMovesSettled_app, He1. reflexivity. }
  destruct (feed_no_request later _ Hk2) as [_ He3].
  unfold feed in He3. rewrite He3. exact He2.
Qed.

Lemma bestmove_answers_request_witness :
  let st := session (Some (mkProcess [])) started in
  let asked := snd (getBestMove st "8/8/8/8/8/8/8/K6k w - - 0 1" 1000) in
  fst (getBestMove st "8/8/8/8/8/8/8/K6k w - - 0 1" 1000) = Pending 0 /\
  written asked
  = [Uci; IsReady; IsReady; PositionFen "8/8/8/8/8/8/8/K6k w - - 0 1"; GoMovetime 1000] /\
  pendingBestMove (feed asked ["info depth 12 score cp 0 pv a1a2"]) = Some 0%nat /\
  bestMovesSettled (feed asked ["info depth 12 score cp 0 pv a1a2"]) = [] /\
  bestMovesSettled
    (feed asked (["info depth 12 score cp 0 pv a1a2"]
                 ++ "bestmove a1a2 ponder h1h2" :: ["bestmove a1b1"]))
  = [(0%nat, Some "a1a2")].
Proof.
  apply (bestmove_answers_request (session (Some (mkProcess [])) started)
           "8/8/8/8/8/8/8/K6k w - - 0 1" 1000
           ["info depth 12 score cp 0 pv a1a2"] ["bestmove a1b1"]
           "bestmove a1a2 ponder h1h2");
    [reflexivity | discriminate | repeat constructor | reflexivity].
Defined.

(** A line that is just "bestmove" resolves the request with undefined. *)
Example bestmove_without_token : bestMoveToken "bestmove" = None.
Proof. reflexivity. Qed.

(** ** Readiness *)

Lemma handleLine_ready st line :
  isReady (handleLine st line) = isReady st || String.eqb line "readyok".
Proof.
  unfold handleLine.
  destruct (String.eqb line "uciok") eqn:Hu.
  { apply String.eqb_eq in Hu as ->.
    destruct (sendCommand_bookkeeping st IsReady) as (_ & _ & _ & ->).
    simpl. rewrite orb_false_r. reflexivity. }
  destruct (String.eqb line "readyok"); [simpl; rewrite orb_true_r; reflexivity|].
  rewrite orb_false_r.
  destruct (startsWith "bestmove" line).
  { destruct (resolveMap st !! "bestmove"); reflexivity. }
  destruct (startsWith "info" line); [|reflexivity].
  unfold parseEvaluation.
  destruct (resolveMap st !! "evaluation"); [|reflexivity].
  destruct (10 <=? frameDepth line)%float; reflexivity.
Qed.

Lemma feed_ready lines : forall st,
  isReady (feed st lines) = isReady st || existsb (fun l => String.eqb l "readyok") lines.
Proof.
  induction lines as [|l lines IH]; intros st; simpl.
  - rewrite orb_false_r. reflexivity.
  - change (foldl handleLine (handleLine st l) lines) with (feed (handleLine st l) lines).
    rewrite IH, handleLine_ready, orb_assoc. reflexivity.
Qed.

Lemma react_ready st ev : isReady st = true -> isReady (react st ev) = true.
Proof.
  intros Hr. destruct ev as [fen t|fen d|data|]; simpl.
  - unfold getBestMove, sendCommand. rewrite Hr. simpl.
    destruct (engine st); simpl; auto.
  - unfold evaluatePosition, sendCommand. rewrite Hr. simpl.
    destruct (engine st); simpl; auto.
  - unfold handleEngineOutput. rewrite feed_ready, Hr. reflexivity.
  - reflexivity.
Qed.

(** The output of the engine makes the client ready exactly when one of
    its lines is "readyok", character for character; and a client that is
    ready stays ready, whatever calls, output and error events follow. *)
Theorem ready_by_readyok (st : StockfishEngine) (lines : list string)
    (events : list Event) :
  isReady (feed st lines)
  = isReady st || existsb (fun l => String.eqb l "readyok") lines /\
  (isReady st = true -> isReady (foldl react st events) = true).
Proof.
  split; [apply feed_ready|].
  revert st. induction events as [|ev events IH]; intros st Hr; [exact Hr|].
  simpl. apply IH, react_ready, Hr.
Qed.

(** With line ends of a carriage return and a line feed, only the last
    line of a chunk is freed of its carriage return (by [trim]): the
    handshake below is not recognised. *)
Example readyok_with_carriage_returns :
  isReady (handleEngineOutput (initEngine (Some (mkProcess [])))
             (String "r" (String "e" (String "a" (String "d" (String "y"
                (String "o" (String "k" (String "013" (String "010"
                   "info string done")))))))))) = false.
Proof. reflexivity. Qed.

(** ** The fallback is permanent *)

Lemma handleLine_no_process line :
  handleLine (initEngine None) line = initEngine None.
Proof.
  unfold handleLine.
  destruct (String.eqb line "uciok"); [reflexivity|].
  destruct (String.eqb line "readyok"); [reflexivity|].
  destruct (startsWith "bestmove" line); [reflexivity|].
  destruct (startsWith "info" line); reflexivity.
Qed.

Lemma react_no_process ev : react (initEngine None) ev = initEngine None.
Proof.
  destruct ev as [fen t|fen d|data|]; try reflexivity.
  simpl. unfold handleEngineOutput.
  induction (split "010" (trim data)) as [|l lines IH]; [reflexivity|].
  simpl. rewrite handleLine_no_process. exact IH.
Qed.

(** When [spawn] threw, the client stays as its constructor left it,
    whatever calls and events follow: no request is ever stored, nothing
    is ever written, and both methods keep returning their fixed
    values, the move e2e4 and the evaluation of 0 pawns at depth 1. *)
Theorem fallback_is_permanent (events : list Event) (fen : string)
    (timeMs searchDepth : number) :
  session None events = initEngine None /\
  getBestMove (session None events) fen timeMs
  = (Returned "e2e4", initEngine None) /\
  evaluatePosition (session None events) fen searchDepth
  = (Returned fallbackEvaluation, initEngine None).
Proof.
  assert (session None events = initEngine None) as ->.
  { unfold session. induction events as [|ev events IH]; [reflexivity|].
    simpl. rewrite react_no_process. exact IH. }
  repeat split.
Qed.

(** ** The principal variation of a frame *)

Lemma scanInfo_pv pre rest : forall acc,
  "pv" ∉ pre -> info_pv (scanInfo (pre ++ "pv" :: rest) acc) = rest.
Proof.
  induction pre as [|p pre IH]; intros acc Hno.
  - reflexivity.
  - apply not_elem_of_cons in Hno as [Hp Hno].
    assert (String.eqb p "pv" = false) as Hpv by (apply String.eqb_neq; congruence).
    change ((p :: pre) ++ "pv" :: rest) with (p :: (pre ++ "pv" :: rest)).
    cbn [scanInfo]. rewrite Hpv.
    destruct (String.eqb p "depth"); [apply IH, Hno|].
    destruct (String.eqb p "score"); [|apply IH, Hno].
    destruct ((pre ++ "pv" :: rest) !! 0%nat) as [t|]; [|apply IH, Hno].
    destruct (String.eqb t "cp") eqn:Hcp.
    { apply String.eqb_eq in Hcp as ->. apply IH, Hno. }
    destruct (String.eqb t "mate") eqn:Hmate.
    { apply String.eqb_eq in Hmate as ->. apply IH, Hno. }
    assert (forall a b : InfoFields, match t with
              | "cp" => a | "mate" => b | _ => scanInfo (pre ++ "pv" :: rest) acc end
              = scanInfo (pre ++ "pv" :: rest) acc) as ->; [|apply IH, Hno].
    intros a b. apply String.eqb_neq in Hcp, Hmate.
    repeat (match goal with
            | |- context [match ?x with _ => _ end] => destruct x; try congruence
            end).
Qed.

Lemma scanInfo_no_pv parts : forall acc,
  "pv" ∉ parts -> info_pv (scanInfo parts acc) = info_pv acc.
Proof.
  induction parts as [|p parts IH]; intros acc Hno; [reflexivity|].
  apply not_elem_of_cons in Hno as [Hp Hno].
  assert (String.eqb p "pv" = false) as Hpv by (apply String.eqb_neq; congruence).
  cbn [scanInfo]. rewrite Hpv.
  destruct (String.eqb p "depth"); [rewrite (IH _ Hno); reflexivity|].
  destruct (String.eqb p "score"); [|apply IH, Hno].
  destruct (parts !! 0%nat) as [t|]; [|apply IH, Hno].
  destruct (String.eqb t "cp") eqn:Hcp.
  { apply String.eqb_eq in Hcp as ->. rewrite (IH _ Hno). reflexivity. }
  destruct (String.eqb t "mate") eqn:Hmate.
  { apply String.eqb_eq in Hmate as ->. rewrite (IH _ Hno). reflexivity. }
  assert (forall a b : InfoFields, match t with
            | "cp" => a | "mate" => b | _ => scanInfo parts acc end
            = scanInfo parts acc) as ->; [|apply IH, Hno].
  intros a b. apply String.eqb_neq in Hcp, Hmate.
  repeat (match goal with
          | |- context [match ?x with _ => _ end] => destruct x; try congruence
          end).
Qed.

(** The principal variation that [parseEvaluation] reads from a line is
    everything after the first token "pv", whatever these tokens are, and
    the best move is the first of them (the empty string when nothing
    follows); a line without the token "pv" has an empty principal
    variation and the empty string as best move. *)
Theorem frame_principal_variation (line : string) :
  (forall before moves,
     split " " line = before ++ "pv" :: moves -> "pv" ∉ before ->
     pv (frameEvaluation line) = moves /\
     bestMove (frameEvaluation line) = default "" (head moves)) /\
  ("pv" ∉ split " " line ->
   pv (frameEvaluation line) = [] /\ bestMove (frameEvaluation line) = "").
Proof.
  unfold frameEvaluation, parseInfo. cbn [pv bestMove]. split.
  - intros before moves -> Hno. rewrite (scanInfo_pv before moves _ Hno).
    destruct moves; auto.
  - intros Hno. rewrite (scanInfo_no_pv _ _ Hno). auto.
Qed.

Lemma frame_principal_variation_witness :
  pv (frameEvaluation "info depth 12 score cp 35 pv e2e4 depth 3") = ["e2e4"; "depth"; "3"] /\
  bestMove (frameEvaluation "info depth 12 score cp 35 pv e2e4 depth 3") = "e2e4".
Proof.
  apply (proj1 (frame_principal_variation "info depth 12 score cp 35 pv e2e4 depth 3")
           ["info"; "depth"; "12"; "score"; "cp"; "35"] ["e2e4"; "depth"; "3"]).
  - reflexivity.
  - intros Hin. repeat (apply elem_of_cons in Hin as [Hin|Hin]; [discriminate|]).
    inversion Hin.
Defined.

End SessionProps.
(* ===================================================================== *)
(** * Properties of the two maps of the learning service                   *)
(* ===================================================================== *)

Module StoreProps.
Import JSString JSStringFacts JSNumber JSNumberFacts Rules Learning LearningSpec.
Import ChessGameSpec LearningStore StoreSpec.
Local Open Scope list_scope.

(** ** Helpers on arrays *)

Lemma updateFirst_fmap {A B} (g : A -> B) (p : A -> bool) (f : A -> A) l :
  (forall x, g (f x) = g x) -> g <$> updateFirst p f l = g <$> l.
Proof.
  intros Hg. induction l as [|x l IH]; [reflexivity|].
  cbn [updateFirst]. destruct (p x); rewrite !fmap_cons.
  - rewrite Hg. reflexivity.
  - rewrite IH. reflexivity.
Qed.

Lemma updateFirst_Forall {A} (P : A -> Prop) (p : A -> bool) (f : A -> A) l :
  (forall x, P x -> P (f x)) -> Forall P l -> Forall P (updateFirst p f l).
Proof.
  intros Hf. induction 1 as [|x l Hx Hl IH]; simpl; [constructor|].
  destruct (p x); constructor; auto.
Qed.

Lemma updateFirst_nonempty {A} (p : A -> bool) (f : A -> A) l :
  l <> [] -> updateFirst p f l <> [].
Proof. destruct l as [|x l]; [congruence|]. simpl. destruct (p x); discriminate. Qed.

Lemma find_move_none {num} (move : string) (l : list (OpeningMove num)) :
  List.find (fun m => String.eqb (om_move m) move) l = None ->
  move ∉ om_move <$> l.
Proof.
  induction l as [|x l IH]; simpl; intros Hf Hin; [inversion Hin|].
  destruct (String.eqb (om_move x) move) eqn:Hx; [discriminate|].
  apply String.eqb_neq in Hx.
  apply elem_of_cons in Hin as [Hin|Hin]; [congruence | exact (IH Hf Hin)].
Qed.

Lemma existsb_move_false (move : string) (l : list string) :
  existsb (String.eqb move) l = false -> move ∉ l.
Proof.
  induction l as [|x l IH]; simpl; intros He Hin; [inversion Hin|].
  apply orb_false_elim in He as [Hx He]. apply String.eqb_neq in Hx.
  apply elem_of_cons in Hin as [Hin|Hin]; [congruence | exact (IH He Hin)].
Qed.

Lemma existsb_move_true (move : string) (l : list string) :
  existsb (String.eqb move) l = true -> move ∈ l.
Proof.
  induction l as [|x l IH]; simpl; intros He; [discriminate|].
  apply orb_prop in He as [Hx|He].
  - apply String.eqb_eq in Hx as ->. apply elem_of_cons. auto.
  - apply elem_of_cons. auto.
Qed.

(** A position key is its own key. *)
Lemma key_of_key (s : string) :
  normalizePosition (normalizePosition s) = normalizePosition s.
Proof.
  unfold normalizePosition, slice. rewrite !drop_0.
  set (parts := split " " s).
  assert (take 4 parts <> []) as Hne.
  { pose proof (split_nonempty " " s) as Hs. fold parts in Hs.
    destruct parts; [congruence | discriminate]. }
  rewrite (split_join " " (take 4 parts) Hne)
    by (apply Forall_take, split_fields_free).
  rewrite take_take. reflexivity.
Qed.

(** ** The shape of the maps is kept *)

Section Shape.
Context {num : Type} {A : Arithmetic num}.

Lemma addToOpeningBook_shaped (book : gmap string (list (OpeningMove num)))
    fen move whiteWon blackWon draw side evaluation :
  normalizePosition fen = fen ->
  (forall key entries, book !! key = Some entries ->
     normalizePosition key = key /\ entriesShaped key entries) ->
  forall key entries,
    addToOpeningBook book fen move whiteWon blackWon draw side evaluation !! key
    = Some entries ->
    normalizePosition key = key /\ entriesShaped key entries.
Proof.
  intros Hfen Hbook key entries. unfold addToOpeningBook.
  destruct (decide (fen = key)) as [<-|Hne];
    [|rewrite lookup_insert_ne by assumption; apply Hbook].
  rewrite lookup_insert_eq. intros [= <-]. split; [exact Hfen|].
  assert (default [] (book !! fen) = [] \/
          entriesShaped fen (default [] (book !! fen))) as Hold.
  { destruct (book !! fen) as [old|] eqn:Hl; [right|left; reflexivity].
    exact (proj2 (Hbook _ _ Hl)). }
  set (old := default [] (book !! fen)) in *.
  destruct (List.find _ old) as [e|] eqn:Hfind.
  - destruct Hold as [Hnil|(Hne & Hnd & Hall)].
    { rewrite Hnil in Hfind. discriminate. }
    split; [apply updateFirst_nonempty, Hne|]. split.
    + rewrite updateFirst_fmap by reflexivity. exact Hnd.
    + apply updateFirst_Forall; [|exact Hall].
      intros x [Hx _]. simpl. split; [exact Hx | lia].
  - split; [destruct old; discriminate|]. split.
    + rewrite fmap_app. apply NoDup_app. split; [|split].
      * destruct Hold as [->|(_ & Hnd & _)]; [constructor | exact Hnd].
      * intros m Hin Hin'. apply list_elem_of_singleton in Hin' as ->.
        exact (find_move_none _ _ Hfind Hin).
      * apply NoDup_singleton.
    + apply Forall_app. split.
      * destruct Hold as [->|(_ & _ & Hall)]; [constructor | exact Hall].
      * repeat constructor.
Qed.

Lemma addToPositionDatabase_shaped (db : gmap string (PositionData num))
    fen move evaluation :
  normalizePosition fen = fen ->
  (forall key posData, db !! key = Some posData ->
     normalizePosition key = key /\ recordShaped key posData) ->
  forall key posData,
    addToPositionDatabase db fen move evaluation !! key = Some posData ->
    normalizePosition key = key /\ recordShaped key posData.
Proof.
  intros Hfen Hdb key posData. unfold addToPositionDatabase.
  destruct (db !! fen) as [old|] eqn:Hold.
  - destruct (decide (fen = key)) as [<-|Hne];
      [|rewrite lookup_insert_ne by assumption; apply Hdb].
    rewrite lookup_insert_eq. intros [= <-]. split; [exact Hfen|].
    destruct (Hdb _ _ Hold) as (_ & Hf & Hne & Hnd & Hlen).
    unfold recordShaped. cbn [pd_fen pd_bestMoves pd_gamesPlayed].
    destruct (existsb (String.eqb move) (pd_bestMoves old)) eqn:Hseen.
    + split; [exact Hf|]. split; [exact Hne|]. split; [exact Hnd | lia].
    + apply existsb_move_false in Hseen.
      split; [exact Hf|]. split; [|split].
      * destruct (pd_bestMoves old); discriminate.
      * apply NoDup_app. split; [exact Hnd|]. split; [|apply NoDup_singleton].
        intros m Hin Hin'. apply list_elem_of_singleton in Hin' as ->. auto.
      * rewrite length_app. simpl. lia.
  - destruct (decide (fen = key)) as [<-|Hne];
      [|rewrite lookup_insert_ne by assumption; apply Hdb].
    rewrite lookup_insert_eq. intros [= <-]. split; [exact Hfen|].
    unfold recordShaped. cbn [pd_fen pd_bestMoves pd_gamesPlayed].
    split; [reflexivity|]. split; [discriminate|].
    split; [apply NoDup_singleton | simpl; lia].
Qed.

Variable parseFloat : string -> num.
Context {Chess : Type} {R : RulesEngine Chess}.

Lemma ingestMove_shaped svc result (chess : Chess) i move :
  shaped svc -> shaped (ingestMove parseFloat svc result chess i move).
Proof.
  intros [Hbook Hdb]. unfold ingestMove.
  pose proof (key_of_key (chess_fen chess)) as Hkey.
  split; cbn [openingBook positionDatabase].
  - destruct (i <? maxOpeningMoves)%nat; [|exact Hbook].
    apply addToOpeningBook_shaped; assumption.
  - apply addToPositionDatabase_shaped; assumption.
Qed.

Lemma processMoves_shaped result rows : forall svc (chess : Chess) i,
  shaped svc -> shaped (processMoves parseFloat svc result chess i rows).
Proof.
  induction rows as [|row rows IH]; intros svc chess i Hs; [exact Hs|].
  cbn [processMoves].
  pose proof (ingestMove_shaped svc result chess i row Hs) as Hs'.
  destruct (chess_move chess (row_san row)); auto.
Qed.

Lemma loadLearningData_shaped games : forall svc,
  shaped svc -> shaped (loadLearningData (Chess := Chess) parseFloat svc games).
Proof.
  induction games as [|game games IH]; intros svc Hs; [exact Hs|].
  simpl. apply IH. apply processMoves_shaped, Hs.
Qed.

Lemma empty_shaped : shaped (num := num) (mkService ∅ ∅).
Proof.
  split; intros key v Hl; simpl in Hl; rewrite lookup_empty in Hl; discriminate.
Qed.

(** After a reload, whatever the completed games and whatever the rules
    engine makes of their moves: every key of the two maps is a position
    key (its own key), the opening book holds for each position at least
    one entry, one per move, each with a count of at least 1, and the
    position database lists the moves of each position once each, and no
    more moves than games played. Processing one more game keeps this.
    So every stored position is found again by a lookup with its key. *)
Theorem reload_gives_shaped_maps (svc : ChessLearningService num)
    (completedGames : list Game) (result : string) (rows : list MoveRow) :
  let loaded := reload (Chess := Chess) parseFloat svc completedGames in
  shaped loaded /\
  shaped (processGameForLearning (Chess := Chess) parseFloat loaded result rows) /\
  (forall key posData,
     positionDatabase loaded !! key = Some posData ->
     hasLearnedPosition loaded key = true /\
     getCommonMoves loaded key = pd_bestMoves posData).
Proof.
  intros loaded.
  assert (shaped loaded) as Hs
    by (apply loadLearningData_shaped, empty_shaped).
  split; [exact Hs|]. split; [apply processMoves_shaped, Hs|].
  intros key posData Hl. destruct (proj2 Hs _ _ Hl) as [Hkey _].
  unfold hasLearnedPosition, getCommonMoves. rewrite Hkey, Hl.
  split; [apply bool_decide_eq_true; eauto | reflexivity].
Qed.

End Shape.

(** ** The move of the opening book *)

Lemma insertScored_perm a l : insertScored a l ≡ₚ a :: l.
Proof.
  induction l as [|b l IH]; cbn [insertScored]; [reflexivity|].
  destruct (0 <? sm_score b - sm_score a)%float; [|reflexivity].
  rewrite IH. apply Permutation_swap.
Qed.

Lemma sortScored_perm l : sortScored l ≡ₚ l.
Proof.
  induction l as [|a l IH]; [reflexivity|].
  unfold sortScored in *. cbn [foldr]. rewrite insertScored_perm, IH. reflexivity.
Qed.

Lemma pickRanked_elem l rand move :
  pickRanked l rand = Some move -> exists s, s ∈ l /\ sm_move s = move.
Proof.
  unfold pickRanked. intros Hp.
  repeat match type of Hp with
  | context [if ?b then _ else _] => destruct b eqn:?
  | context [?l !! ?i] =>
      let E := fresh "E" in destruct (l !! i) eqn:E;
      [apply list_elem_of_lookup_2 in E|]
  end; inversion Hp; subst; eauto.
Qed.

Lemma pickRanked_answers s l rand :
  sm_move s <> "" -> is_Some (pickRanked (s :: l) rand).
Proof.
  intros Hs. unfold pickRanked.
  change ((s :: l) !! 0%nat) with (Some s).
  repeat match goal with
  | |- is_Some (Some _) => eexists; reflexivity
  | |- is_Some (match ?x with _ => _ end) => destruct x eqn:?
  end.
  match goal with E : String.eqb _ _ = true |- _ => apply String.eqb_eq in E end.
  contradiction.
Qed.

(** [getBookMove] never invents a move: whatever [Math.random()] gives,
    a move it returns is the move of an entry recorded for the key of the
    position. It answers null for a position without entries, and it
    does answer for a position that has entries when their move tokens
    are not empty. *)
Theorem getBookMove_returns_recorded_move (tanh : number -> number)
    (svc : ChessLearningService number) (fen : string) (rand : number)
    (entries : list (OpeningMove number)) :
  openingBook svc !! normalizePosition fen = Some entries ->
  (forall move, getBookMove tanh svc fen rand = Some move ->
     exists e, e ∈ entries /\ om_move e = move) /\
  (entries = [] -> getBookMove tanh svc fen rand = None) /\
  (entries <> [] -> Forall (fun e => om_move e <> "") entries ->
     is_Some (getBookMove tanh svc fen rand)).
Proof.
  intros Hl. unfold getBookMove. rewrite Hl. split; [|split].
  - intros move Hm. destruct entries as [|e0 rest]; [discriminate|].
    apply pickRanked_elem in Hm as (s & Hs & Hmove).
    rewrite sortScored_perm in Hs.
    apply list_elem_of_fmap in Hs as (e & -> & He). eauto.
  - intros ->. reflexivity.
  - intros Hne Hall. destruct entries as [|e0 rest]; [congruence|].
    assert (Forall (fun s => sm_move s <> "")
              (sortScored (map (scoreOf tanh) (e0 :: rest)))) as Hs.
    { rewrite sortScored_perm. apply Forall_fmap.
      eapply Forall_impl; [exact Hall|]. intros e He. exact He. }
    destruct (sortScored (map (scoreOf tanh) (e0 :: rest))) as [|s l] eqn:Hsort.
    + pose proof (sortScored_perm (map (scoreOf tanh) (e0 :: rest))) as Hp.
      rewrite Hsort in Hp. apply Permutation_nil_l in Hp. discriminate.
    + apply pickRanked_answers. exact (Forall_inv Hs).
Qed.

Lemma getBookMove_returns_recorded_move_witness :
  (forall move,
     getBookMove Toy.tanhApprox sampleService startFen 0.95 = Some move ->
     exists e, e ∈ default [] (sampleBook !! startKey) /\ om_move e = move) /\
  is_Some (getBookMove Toy.tanhApprox sampleService startFen 0.95).
Proof.
  assert (openingBook sampleService !! normalizePosition startFen
          = Some (default [] (sampleBook !! startKey))) as Hl by reflexivity.
  destruct (getBookMove_returns_recorded_move Toy.tanhApprox sampleService
              startFen 0.95 _ Hl) as (Hin & _ & Hsome).
  split; [exact Hin|]. apply Hsome.
  - vm_compute. discriminate.
  - vm_compute. repeat constructor; discriminate.
Defined.

(** A position without entries in the book: [getBookMove] answers null. *)
Lemma getBookMove_unknown tanh (svc : ChessLearningService number) fen rand :
  openingBook svc !! normalizePosition fen = None ->
  getBookMove tanh svc fen rand = None.
Proof. intros Hl. unfold getBookMove. rewrite Hl. reflexivity. Qed.

(** ** Recording a move and looking it up *)

Section Lookup.
Context {num : Type} {A : Arithmetic num}.

Lemma find_other_updateFirst {T} (p q : T -> bool) (f : T -> T) l :
  (forall x, p x = true -> q x = false /\ q (f x) = false) ->
  List.find q (updateFirst p f l) = List.find q l.
Proof.
  intros Hpq. induction l as [|x l IH]; [reflexivity|].
  cbn [updateFirst]. destruct (p x) eqn:Hp; cbn [List.find].
  - destruct (Hpq x Hp) as [-> ->]. reflexivity.
  - rewrite IH. reflexivity.
Qed.

Lemma find_other_app {T} (q : T -> bool) l x :
  q x = false -> List.find q (l ++ [x]) = List.find q l.
Proof.
  intros Hq. induction l as [|y l IH]; cbn [app List.find].
  - rewrite Hq. reflexivity.
  - destruct (q y); [reflexivity | exact IH].
Qed.

(** [addToOpeningBook] changes one entry: the entries of the other
    positions and, at the position itself, the entries of the other
    moves are what they were; and the entry of the move has its own
    position and move. *)
Theorem addToOpeningBook_touches_one_entry
    (book : gmap string (list (OpeningMove num)))
    (fen move : string) (whiteWon blackWon draw : bool) (side : string)
    (evaluation : num) :
  let book' := addToOpeningBook book fen move whiteWon blackWon draw side evaluation in
  (forall fen', fen' <> fen -> book' !! fen' = book !! fen') /\
  (forall move', move' <> move -> entryOf book' fen move' = entryOf book fen move') /\
  (exists e, entryOf book' fen move = Some e /\ om_move e = move /\
             (entryOf book fen move = None -> om_fen e = fen /\ om_count e = 1%nat) /\
             (forall old, entryOf book fen move = Some old ->
                om_fen e = om_fen old /\ om_count e = S (om_count old))).
Proof.
  intros book'. subst book'. unfold addToOpeningBook, entryOf.
  split; [|split].
  - intros fen' Hne. apply lookup_insert_ne. congruence.
  - intros move' Hne. rewrite lookup_insert_eq. cbn [default].
    set (old := default [] (book !! fen)).
    destruct (List.find _ old) as [e|] eqn:Hfind.
    + apply find_other_updateFirst. intros x Hx.
      apply String.eqb_eq in Hx. cbn [om_move].
      split; apply String.eqb_neq; congruence.
    + apply find_other_app. cbn [om_move]. apply String.eqb_neq. congruence.
  - rewrite lookup_insert_eq. cbn [default].
    set (old := default [] (book !! fen)).
    set (isMove := fun m : OpeningMove num => String.eqb (om_move m) move).
    destruct (List.find isMove old) as [e|] eqn:Hfind.
    + pose proof Hfind as Hf. apply List.find_some in Hf as [_ Hmove].
      apply String.eqb_eq in Hmove.
      unfold id. eexists. split.
      * match goal with |- List.find ?p (updateFirst ?p ?f ?l) = _ =>
          apply (LearningProps.find_updateFirst p f l e Hfind) end.
        unfold isMove. cbn [om_move]. apply String.eqb_eq. exact Hmove.
      * cbn [om_move om_fen om_count]. split; [exact Hmove|].
        split; [discriminate|]. intros ? [= <-]. auto.
    + unfold id. eexists. split.
      * apply LearningProps.find_app_new; [exact Hfind|].
        unfold isMove. cbn [om_move]. exact (String.eqb_refl _).
      * cbn [om_move om_fen om_count]. split; [reflexivity|].
        split; [auto | discriminate].
Qed.

End Lookup.

(** ** Recording a position and asking for it *)

Section Recorded.
Context {num : Type} {A : Arithmetic num}.

(** After [addToPositionDatabase] for the key of a position, the three
    queries find it under every position string with that key (whatever
    its counters): the position is learned, the move is among its common
    moves, the moves known before are kept in their order with at most
    the new move added at the end, and the other positions answer as
    before. *)
Theorem recorded_position_is_found (svc : ChessLearningService num)
    (fen fen' move : string) (evaluation : num) :
  normalizePosition fen' = normalizePosition fen ->
  let svc' :=
    mkService (openingBook svc)
      (addToPositionDatabase (positionDatabase svc) (normalizePosition fen)
         move evaluation) in
  hasLearnedPosition svc' fen' = true /\
  move ∈ getCommonMoves svc' fen' /\
  (getCommonMoves svc' fen' = getCommonMoves svc fen' \/
   getCommonMoves svc' fen' = getCommonMoves svc fen' ++ [move]) /\
  (forall other, normalizePosition other <> normalizePosition fen ->
     hasLearnedPosition svc' other = hasLearnedPosition svc other /\
     getCommonMoves svc' other = getCommonMoves svc other).
Proof.
  intros Hkey svc'. subst svc'.
  unfold hasLearnedPosition, getCommonMoves, addToPositionDatabase.
  cbn [positionDatabase]. rewrite Hkey.
  set (key := normalizePosition fen).
  destruct (positionDatabase svc !! key) as [old|] eqn:Hold.
  - rewrite lookup_insert_eq. cbn [pd_bestMoves].
    split; [apply bool_decide_eq_true; eauto|].
    destruct (existsb (String.eqb move) (pd_bestMoves old)) eqn:Hseen.
    + split; [exact (existsb_move_true _ _ Hseen)|]. split; [left; reflexivity|].
      intros other Hne. rewrite lookup_insert_ne by congruence. auto.
    + split; [apply elem_of_app; right; apply list_elem_of_singleton; reflexivity|].
      split; [right; reflexivity|].
      intros other Hne. rewrite lookup_insert_ne by congruence. auto.
  - rewrite lookup_insert_eq. cbn [pd_bestMoves].
    split; [apply bool_decide_eq_true; eauto|].
    split; [apply list_elem_of_singleton; reflexivity|].
    split; [right; reflexivity|].
    intros other Hne. rewrite lookup_insert_ne by congruence. auto.
Qed.

End Recorded.

Lemma recorded_position_is_found_witness :
  let svc' :=
    mkService (openingBook sampleService)
      (addToPositionDatabase (positionDatabase sampleService)
         (normalizePosition startFen) "e2e4" 0.3%float) in
  hasLearnedPosition svc' startFenLater = true /\
  "e2e4" ∈ getCommonMoves svc' startFenLater.
Proof.
  assert (normalizePosition startFenLater = normalizePosition startFen) as Hkey
    by reflexivity.
  destruct (recorded_position_is_found sampleService startFen startFenLater
              "e2e4" 0.3%float Hkey) as (Hhas & Hin & _).
  split; [exact Hhas | exact Hin].
Defined.

(** [getLearnedEvaluation] answers null for an unknown position, and also
    for a learned position whose stored average is 0, -0 or NaN (it
    returns [posData?.evaluation || null]); otherwise it answers the
    stored average. So a position recorded for the first time with the
    evaluation 0, as a move without a stored evaluation is, is learned
    and has its move, but its evaluation reads null. *)
Theorem getLearnedEvaluation_null_when_level
    (svc : ChessLearningService number) (fen move : string) (evaluation : number) :
  (getLearnedEvaluation svc fen = None <->
   hasLearnedPosition svc fen = false \/
   exists posData,
     positionDatabase svc !! normalizePosition fen = Some posData /\
     (isNaN (pd_evaluation posData) = true \/
      (pd_evaluation posData =? 0)%float = true)) /\
  (forall v, getLearnedEvaluation svc fen = Some v ->
     exists posData,
       positionDatabase svc !! normalizePosition fen = Some posData /\
       pd_evaluation posData = v) /\
  (hasLearnedPosition svc fen = false ->
   let svc' :=
     mkService (openingBook svc)
       (addToPositionDatabase (positionDatabase svc) (normalizePosition fen)
          move evaluation) in
   hasLearnedPosition svc' fen = true /\
   getCommonMoves svc' fen = [move] /\
   getLearnedEvaluation svc' fen
   = if isNaN evaluation || (evaluation =? 0)%float then None else Some evaluation).
Proof.
  unfold getLearnedEvaluation, hasLearnedPosition, getCommonMoves, truthy,
    PrimFloat.is_zero.
  change PrimFloat.zero with 0%float.
  set (key := normalizePosition fen).
  split; [|split].
  - destruct (positionDatabase svc !! key) as [posData|] eqn:Hl.
    + assert (is_Some (Some posData)) as Hsome by eauto.
      split.
      * intros Hnone. right. exists posData. split; [reflexivity|].
        destruct (isNaN (pd_evaluation posData)); [auto|].
        destruct (pd_evaluation posData =? 0)%float; [auto|].
        cbn [orb negb] in Hnone. discriminate.
      * intros [Hb|(p & [= <-] & [Hp|Hp])].
        -- apply bool_decide_eq_false in Hb. contradiction.
        -- rewrite Hp. reflexivity.
        -- rewrite Hp, orb_true_r. reflexivity.
    + split; [intros _; left|reflexivity].
      apply bool_decide_eq_false. intros [? ?]. discriminate.
  - intros v. destruct (positionDatabase svc !! key) as [posData|]; [|discriminate].
    destruct (negb _); intros Hv; [|discriminate].
    injection Hv as <-. eauto.
  - intros Hb. apply bool_decide_eq_false in Hb.
    unfold addToPositionDatabase. cbn [positionDatabase].
    destruct (positionDatabase svc !! key) as [posData|] eqn:Hl.
    { destruct Hb. eauto. }
    rewrite lookup_insert_eq. cbn [pd_evaluation pd_bestMoves].
    split; [apply bool_decide_eq_true; eauto|]. split; [reflexivity|].
    destruct (isNaN evaluation || (evaluation =? 0)%float); reflexivity.
Qed.

(** The rows of a game that carry no evaluation are recorded with 0: the
    first position of such a game is learned and reads null. *)
Lemma getLearnedEvaluation_null_when_level_witness :
  let svc :=
    processGameForLearning (Chess := Toy.Board) (H0 := Toy.engine true)
      Toy.parseDecimal emptyService "1-0" [unevaluatedMove] in
  hasLearnedPosition svc (Toy.boardFen Toy.start) = true /\
  getCommonMoves svc (Toy.boardFen Toy.start) = ["e2e4"] /\
  getLearnedEvaluation svc (Toy.boardFen Toy.start) = None.
Proof.
  destruct (getLearnedEvaluation_null_when_level emptyService
              (Toy.boardFen Toy.start) "e2e4" 0%float) as (_ & _ & Hfirst).
  exact (Hfirst eq_refl).
Defined.

(** ** The statistics *)

Section Statistics.
Context {num : Type} {A : Arithmetic num}.

Local Abbreviation total book :=
  (map_fold (fun (_ : string) (moves : list (OpeningMove num)) (sum : nat) =>
               (sum + length moves)%nat) 0%nat book).

Lemma total_insert_new (book : gmap string (list (OpeningMove num))) key entries :
  book !! key = None ->
  total (<[key := entries]> book) = (total book + length entries)%nat.
Proof.
  intros Hl. rewrite map_fold_insert_L; [reflexivity | intros; lia | exact Hl].
Qed.

Lemma total_insert_old (book : gmap string (list (OpeningMove num))) key old entries :
  book !! key = Some old ->
  (total (<[key := entries]> book) + length old = total book + length entries)%nat.
Proof.
  intros Hl. rewrite <- (insert_delete_eq book key entries).
  rewrite total_insert_new by apply lookup_delete_eq.
  rewrite (map_fold_delete_L _ _ key old book); [lia | intros; lia | exact Hl].
Qed.

Lemma updateFirst_length {T} (p : T -> bool) (f : T -> T) l :
  length (updateFirst p f l) = length l.
Proof.
  induction l as [|x l IH]; [reflexivity|].
  cbn [updateFirst]. destruct (p x); cbn [length]; [reflexivity | rewrite IH; reflexivity].
Qed.

Lemma addToOpeningBook_sizes (book : gmap string (list (OpeningMove num)))
    (fen move : string) (whiteWon blackWon draw : bool) (side : string)
    (evaluation : num) :
  let book' := addToOpeningBook book fen move whiteWon blackWon draw side evaluation in
  size book' = (size book + match book !! fen with Some _ => 0 | None => 1 end)%nat /\
  total book'
  = (total book + match entryOf book fen move with Some _ => 0 | None => 1 end)%nat.
Proof.
  intros book'. subst book'. unfold addToOpeningBook, entryOf. split.
  - destruct (book !! fen) as [old|] eqn:Hl.
    + rewrite map_size_insert_Some by eauto. lia.
    + rewrite map_size_insert_None by exact Hl. lia.
  - destruct (book !! fen) as [old|] eqn:Hl; cbn [default]; unfold id.
    + destruct (List.find _ old) as [e|] eqn:Hfind.
      * pose proof (total_insert_old book fen old
                      (updateFirst (fun m => String.eqb (om_move m) move)
                         (fun existingMove =>
                            mkOpeningMove (om_fen existingMove) (om_move existingMove)
                              (S (om_count existingMove))
                              (fold_mean (om_winRate existingMove)
                                 (S (om_count existingMove))
                                 (winsFor side whiteWon blackWon draw))
                              (fold_mean (om_avgEvaluation existingMove)
                                 (S (om_count existingMove)) evaluation)) old) Hl) as Ht.
        rewrite updateFirst_length in Ht. lia.
      * pose proof (total_insert_old book fen old
                      (old ++ [mkOpeningMove fen move 1
                                 (winsFor side whiteWon blackWon draw) evaluation]) Hl) as Ht.
        rewrite length_app in Ht. cbn [length] in Ht. lia.
    + cbn [List.find app]. rewrite total_insert_new by exact Hl. cbn [length]. lia.
Qed.

(** What [getStatistics] counts: [addToOpeningBook] raises
    [openingBookSize] by one exactly when the position had no array in
    the book, and [totalOpeningMoves] by one exactly when the position
    had no entry for the move; otherwise they stay. *)
Theorem getStatistics_counts_new_entries (svc : ChessLearningService num)
    (fen move : string) (whiteWon blackWon draw : bool) (side : string)
    (evaluation : num) :
  let svc' :=
    mkService
      (addToOpeningBook (openingBook svc) fen move whiteWon blackWon draw side
         evaluation)
      (positionDatabase svc) in
  openingBookSize (getStatistics svc')
  = (openingBookSize (getStatistics svc)
     + match openingBook svc !! fen with Some _ => 0 | None => 1 end)%nat /\
  totalOpeningMoves (getStatistics svc')
  = (totalOpeningMoves (getStatistics svc)
     + match entryOf (openingBook svc) fen move with Some _ => 0 | None => 1 end)%nat /\
  positionDatabaseSize (getStatistics svc') = positionDatabaseSize (getStatistics svc).
Proof.
  intros svc'. subst svc'. unfold getStatistics.
  cbn [openingBook positionDatabase openingBookSize totalOpeningMoves
       positionDatabaseSize].
  destruct (addToOpeningBook_sizes (openingBook svc) fen move whiteWon blackWon
              draw side evaluation) as [Hsize Htotal].
  split; [exact Hsize|]. split; [exact Htotal | reflexivity].
Qed.

Lemma size_le_total (book : gmap string (list (OpeningMove num))) :
  (forall key entries, book !! key = Some entries -> entries <> []) ->
  (size book <= total book)%nat.
Proof.
  induction book as [|key entries book Hnone IH] using map_ind; intros Hne.
  - rewrite map_size_empty. lia.
  - rewrite map_size_insert_None by exact Hnone.
    rewrite total_insert_new by exact Hnone.
    assert (entries <> []) as He by (apply (Hne key), lookup_insert_eq).
    assert (size book <= total book)%nat as Hs.
    { apply IH. intros k v Hk. apply (Hne k).
      rewrite lookup_insert_ne; [exact Hk|]. intros <-. congruence. }
    destruct entries; [congruence|]. cbn [length]. lia.
Qed.

Variable parseFloat : string -> num.
Context {Chess : Type} {R : RulesEngine Chess}.

Lemma ingestMove_book_in_database svc result (chess : Chess) i row :
  dom (openingBook svc) ⊆ dom (positionDatabase svc) ->
  dom (openingBook (ingestMove parseFloat svc result chess i row))
  ⊆ dom (positionDatabase (ingestMove parseFloat svc result chess i row)).
Proof.
  intros Hsub. unfold ingestMove, addToOpeningBook, addToPositionDatabase.
  cbn [openingBook positionDatabase].
  destruct (i <? maxOpeningMoves)%nat;
    destruct (positionDatabase svc !! normalizePosition (chess_fen chess));
    rewrite ?dom_insert_L;
    try apply union_mono_l; try (etrans; [exact Hsub | apply union_subseteq_r]);
    exact Hsub.
Qed.

Lemma ingestMove_total svc result (chess : Chess) i row :
  (total (openingBook (ingestMove parseFloat svc result chess i row))
   <= total (openingBook svc) + (if (i <? maxOpeningMoves)%nat then 1 else 0))%nat.
Proof.
  unfold ingestMove. cbn [openingBook].
  destruct (i <? maxOpeningMoves)%nat; [|lia].
  destruct (addToOpeningBook_sizes (openingBook svc)
              (normalizePosition (chess_fen chess)) (row_uci row)
              (String.eqb result "1-0") (String.eqb result "0-1")
              (String.eqb result "1/2-1/2") (row_side row)
              (evaluationOf parseFloat row)) as [_ Ht].
  rewrite Ht. destruct (entryOf _ _ _); lia.
Qed.

Lemma processMoves_book_in_database result rows : forall svc (chess : Chess) i,
  dom (openingBook svc) ⊆ dom (positionDatabase svc) ->
  dom (openingBook (processMoves parseFloat svc result chess i rows))
  ⊆ dom (positionDatabase (processMoves parseFloat svc result chess i rows)).
Proof.
  induction rows as [|row rows IH]; intros svc chess i Hs; [exact Hs|].
  cbn [processMoves].
  pose proof (ingestMove_book_in_database svc result chess i row Hs) as Hs'.
  destruct (chess_move chess (row_san row)); auto.
Qed.

Lemma processMoves_total result rows : forall svc (chess : Chess) i,
  (total (openingBook (processMoves parseFloat svc result chess i rows))
   <= total (openingBook svc) + (maxOpeningMoves - i))%nat.
Proof.
  induction rows as [|row rows IH]; intros svc chess i; [cbn [processMoves]; lia|].
  cbn [processMoves].
  pose proof (ingestMove_total svc result chess i row) as Hstep.
  assert (forall c,
            (total (openingBook
                      (processMoves parseFloat
                         (ingestMove parseFloat svc result chess i row)
                         result c (S i) rows))
             <= total (openingBook svc) + (maxOpeningMoves - i))%nat) as Hrec.
  { intros c.
    pose proof (IH (ingestMove parseFloat svc result chess i row) c (S i)) as Hr.
    destruct (i <? maxOpeningMoves)%nat eqn:Hi.
    - apply Nat.ltb_lt in Hi. lia.
    - apply Nat.ltb_ge in Hi. lia. }
  destruct (chess_move chess (row_san row)); auto.
  destruct (i <? maxOpeningMoves)%nat eqn:Hi; [|lia].
  apply Nat.ltb_lt in Hi. lia.
Qed.

Lemma loadLearningData_book_in_database games : forall svc,
  dom (openingBook svc) ⊆ dom (positionDatabase svc) ->
  dom (openingBook (loadLearningData (Chess := Chess) parseFloat svc games))
  ⊆ dom (positionDatabase (loadLearningData (Chess := Chess) parseFloat svc games)).
Proof.
  induction games as [|game games IH]; intros svc Hs; [exact Hs|].
  simpl. apply IH. apply processMoves_book_in_database, Hs.
Qed.

Lemma loadLearningData_total games : forall svc,
  (total (openingBook (loadLearningData (Chess := Chess) parseFloat svc games))
   <= total (openingBook svc) + maxOpeningMoves * length games)%nat.
Proof.
  induction games as [|game games IH]; intros svc; [simpl; lia|].
  cbn [loadLearningData foldl length].
  pose proof (IH (processGameForLearning parseFloat svc (resultOf game)
                    (game_moves game))) as Hr.
  unfold loadLearningData in Hr.
  pose proof (processMoves_total (resultOf game) (game_moves game) svc
                (newChess None) 0) as Hg.
  unfold processGameForLearning in *. lia.
Qed.

(** The statistics after a reload, for any completed games: every
    position of the opening book is also a learned position, so
    [openingBookSize] is at most [positionDatabaseSize]; every position of
    the book has an entry, so [openingBookSize] is at most
    [totalOpeningMoves]; and a game adds at most 15 entries, so
    [totalOpeningMoves] is at most 15 times the number of games. *)
Theorem statistics_after_reload (svc : ChessLearningService num)
    (completedGames : list Game) :
  let loaded := reload (Chess := Chess) parseFloat svc completedGames in
  let stats := getStatistics loaded in
  (openingBookSize stats <= positionDatabaseSize stats)%nat /\
  (openingBookSize stats <= totalOpeningMoves stats)%nat /\
  (totalOpeningMoves stats <= 15 * length completedGames)%nat /\
  (forall fen,
     is_Some (openingBook loaded !! normalizePosition fen) ->
     hasLearnedPosition loaded fen = true).
Proof.
  intros loaded stats. subst stats.
  assert (dom (openingBook loaded) ⊆ dom (positionDatabase loaded)) as Hdom.
  { apply loadLearningData_book_in_database. cbn [openingBook positionDatabase].
    set_solver. }
  assert (shaped loaded) as [Hbook _]
    by (apply loadLearningData_shaped, empty_shaped).
  unfold getStatistics.
  cbn [openingBookSize positionDatabaseSize totalOpeningMoves].
  split; [|split; [|split]].
  - rewrite <- !size_dom. apply subseteq_size, Hdom.
  - apply size_le_total. intros key entries Hl.
    destruct (Hbook key entries Hl) as (_ & Hne & _). exact Hne.
  - pose proof (loadLearningData_total completedGames (mkService ∅ ∅)) as Ht.
    cbn [openingBook] in Ht. rewrite map_fold_empty in Ht.
    unfold maxOpeningMoves in Ht. exact Ht.
  - intros fen Hin. unfold hasLearnedPosition. apply bool_decide_eq_true.
    apply elem_of_dom. apply Hdom. apply elem_of_dom. exact Hin.
Qed.

End Statistics.

(** ** Processing the rows of a game *)

Section Rows.
Context {num : Type} {A : Arithmetic num}.
Variable parseFloat : string -> num.
Context {Chess : Type} {R : RulesEngine Chess}.

Lemma processMoves_until_exception result (before : list MoveRow) row after :
  forall svc (chess c c' : Chess) i,
    replay chess before = Some c ->
    chess_move c (row_san row) = Thrown c' ->
    processMoves parseFloat svc result chess i (before ++ row :: after)
    = ingestMove parseFloat (processMoves parseFloat svc result chess i before)
        result c (i + length before) row.
Proof.
  induction before as [|r before IH]; intros svc chess c c' i Hreplay Hthrow.
  - injection Hreplay as ->. cbn [app processMoves length].
    rewrite Hthrow, Nat.add_0_r. reflexivity.
  - cbn [app processMoves length replay] in *.
    destruct (chess_move chess (row_san r)) as [obj next|next|next];
      [| |discriminate];
      rewrite (IH _ next c c' (S i) Hreplay Hthrow);
      replace (S i + length before)%nat with (i + S (length before))%nat by lia;
      reflexivity.
Qed.

Lemma addToPositionDatabase_lists_move (db : gmap string (PositionData num))
    key move evaluation :
  exists posData,
    addToPositionDatabase db key move evaluation !! key = Some posData /\
    move ∈ pd_bestMoves posData.
Proof.
  unfold addToPositionDatabase. destruct (db !! key) as [old|].
  - eexists. split; [apply lookup_insert_eq|]. cbn [pd_bestMoves].
    destruct (existsb (String.eqb move) (pd_bestMoves old)) eqn:Hseen.
    + exact (existsb_move_true _ _ Hseen).
    + apply elem_of_app. right. apply list_elem_of_singleton. reflexivity.
  - eexists. split; [apply lookup_insert_eq|]. cbn [pd_bestMoves].
    apply list_elem_of_singleton. reflexivity.
Qed.

(** When [chess.move] throws on the move of a row, the processing of the
    game ends there: the rows after it change nothing, while the row
    itself has already been recorded, so its move is among the common
    moves of the position on which it was refused. *)
Theorem rows_after_exception_are_dropped (svc : ChessLearningService num)
    (result : string) (before : list MoveRow) (row : MoveRow)
    (after : list MoveRow) (c c' : Chess) :
  replay (newChess None) before = Some c ->
  chess_move c (row_san row) = Thrown c' ->
  let learned :=
    processGameForLearning parseFloat svc result (before ++ row :: after) in
  learned
  = ingestMove parseFloat (processGameForLearning parseFloat svc result before)
      result c (length before) row /\
  row_uci row ∈ getCommonMoves learned (chess_fen c).
Proof.
  intros Hreplay Hthrow learned. subst learned. unfold processGameForLearning.
  rewrite (processMoves_until_exception result before row after svc
             (newChess None) c c' 0 Hreplay Hthrow).
  split; [reflexivity|].
  unfold getCommonMoves, ingestMove. cbn [positionDatabase].
  destruct (addToPositionDatabase_lists_move
              (positionDatabase
                 (processMoves parseFloat svc result (newChess None) 0 before))
              (normalizePosition (chess_fen c)) (row_uci row)
              (evaluationOf parseFloat row)) as (posData & -> & Hin).
  exact Hin.
Qed.

Lemma late_rows_keep_book result rows : forall svc (chess : Chess) i,
  (maxOpeningMoves <= i)%nat ->
  openingBook (processMoves parseFloat svc result chess i rows) = openingBook svc.
Proof.
  induction rows as [|row rows IH]; intros svc chess i Hi; [reflexivity|].
  cbn [processMoves].
  assert (openingBook (ingestMove parseFloat svc result chess i row)
          = openingBook svc) as Hstep.
  { unfold ingestMove. cbn [openingBook].
    destruct (i <? maxOpeningMoves)%nat eqn:Hlt; [|reflexivity].
    apply Nat.ltb_lt in Hlt. lia. }
  destruct (chess_move chess (row_san row));
    rewrite ?IH by lia; exact Hstep.
Qed.

Lemma book_of_first_rows result rows : forall svc svc' (chess : Chess) i,
  openingBook svc = openingBook svc' ->
  openingBook (processMoves parseFloat svc result chess i
                 (take (maxOpeningMoves - i) rows))
  = openingBook (processMoves parseFloat svc' result chess i rows).
Proof.
  induction rows as [|row rows IH]; intros svc svc' chess i Hbook.
  - rewrite take_nil. exact Hbook.
  - destruct (decide (maxOpeningMoves <= i)%nat) as [Hi|Hi].
    + replace (maxOpeningMoves - i)%nat with 0%nat by lia.
      rewrite take_0, (late_rows_keep_book result (row :: rows) svc' chess i Hi).
      exact Hbook.
    + replace (maxOpeningMoves - i)%nat with (S (maxOpeningMoves - S i)) by lia.
      cbn [take processMoves].
      assert (openingBook (ingestMove parseFloat svc result chess i row)
              = openingBook (ingestMove parseFloat svc' result chess i row)) as Hstep.
      { unfold ingestMove. cbn [openingBook]. rewrite Hbook. reflexivity. }
      destruct (chess_move chess (row_san row)); auto.
Qed.

(** The opening book a game leaves is the one its first 15 rows leave:
    the rows from the sixteenth on are recorded in the position database
    only. *)
Theorem opening_book_reads_first_rows (svc : ChessLearningService num)
    (result : string) (rows : list MoveRow) :
  openingBook (processGameForLearning parseFloat svc result rows)
  = openingBook (processGameForLearning parseFloat svc result (take 15 rows)).
Proof.
  unfold processGameForLearning. symmetry.
  exact (book_of_first_rows result rows svc svc (newChess None) 0 eq_refl).
Qed.

End Rows.

(** A game whose second row carries a move that the rules engine turns
    down by an exception. *)
Lemma rows_after_exception_are_dropped_witness :
  let rows :=
    [ mkMoveRow "w" "e4" "e2e4" (Some "0.3");
      mkMoveRow "b" "Qh5" "d8h4" None;
      mkMoveRow "w" "d4" "d2d4" (Some "0.2") ] in
  let learned :=
    processGameForLearning (Chess := Toy.Board) (H0 := Toy.engine true)
      Toy.parseDecimal emptyService "1-0" rows in
  "d8h4" ∈ getCommonMoves learned (Toy.boardFen (Toy.mkBoard (take 1 Toy.catalogue))) /\
  getStatistics learned = mkStatistics 2 2 2.
Proof.
  pose proof (rows_after_exception_are_dropped (R := Toy.engine true)
                Toy.parseDecimal emptyService "1-0"
                [mkMoveRow "w" "e4" "e2e4" (Some "0.3")]
                (mkMoveRow "b" "Qh5" "d8h4" None)
                [mkMoveRow "w" "d4" "d2d4" (Some "0.2")]
                (Toy.mkBoard
                   [mkMoveObject "e4" "e2" "e4" None None])
                (Toy.mkBoard
                   [mkMoveObject "e4" "e2" "e4" None None])
                eq_refl eq_refl) as [Heq Hin].
  split; [exact Hin|]. vm_compute. reflexivity.
Defined.

End StoreProps.

(* ===================================================================== *)
(** * Properties of the move of the AI                                     *)
(* ===================================================================== *)

Module SelectionProps.
Import JSString JSNumber JSNumberFacts Rules Learning ChessGame Stockfish.
Import LearningSpec ChessGameSpec StockfishSession SelectionSpec.
Local Open Scope list_scope.

(** ** The thinking time *)

Lemma ltb_leb (a b : number) : (a <? b)%float = true -> (a <=? b)%float = true.
Proof.
  rewrite ltb_spec, leb_spec. unfold SFltb, SFleb.
  destruct (SFcompare (Prim2SF a) (Prim2SF b)) as [[| |]|]; congruence.
Qed.

Lemma thinkingTime_bounds (difficulty : number) :
  isNaN difficulty = false ->
  (500 <=? thinkingTimeOf difficulty)%float = true /\
  (thinkingTimeOf difficulty <=? 3000)%float = true.
Proof.
  intros Hnan. unfold thinkingTimeOf, Math_min.
  assert (isNaN 3000 = false) as -> by reflexivity. rewrite Hnan. cbn [orb].
  destruct (3000 <=? difficulty)%float eqn:Hhigh.
  - split; reflexivity.
  - unfold Math_max. assert (isNaN 500 = false) as -> by reflexivity.
    rewrite Hnan. cbn [orb].
    assert ((difficulty <=? 3000)%float = true) as Hle.
    { apply ltb_leb. apply not_leb_gtb; [reflexivity | exact Hnan | exact Hhigh]. }
    destruct (500 <=? difficulty)%float eqn:Hlow.
    + split; [exact Hlow | exact Hle].
    + split; reflexivity.
Qed.

(** ** What a call does to the instance *)

Section Selection.
Context {Chess : Type} {R : RulesEngine Chess}.
Variable tanh : number -> number.
Variable learningService : ChessLearningService number.
Variable answer : nat -> list string.
Variable difficulty : number.
Variable draws : Draws.

Lemma turnedDown_trans (a b c : Chess) :
  turnedDown a b -> turnedDown b c -> turnedDown a c.
Proof.
  induction 1 as [|chess move next after Hmove _ IH]; [auto|].
  intros Hc. exact (turnedDown_more chess move next c Hmove (IH Hc)).
Qed.

Lemma turnedDown_call (a b c : Chess) move :
  turnedDown a b ->
  chess_move b move = Refused c \/ chess_move b move = Thrown c ->
  turnedDown a c.
Proof.
  intros Hab Hmove. apply (turnedDown_trans a b c Hab).
  exact (turnedDown_more b move c c Hmove (turnedDown_none c)).
Qed.

Lemma turnedDown_keeps (a b : Chess) :
  rejection_keeps_instance -> turnedDown a b -> b = a.
Proof.
  intros Hkeep. induction 1 as [|chess move next after Hmove _ IH]; [reflexivity|].
  rewrite IH. exact (Hkeep chess move next Hmove).
Qed.

Lemma played_sound (start from after : Chess) candidate obj uciString :
  turnedDown start from ->
  chess_move from candidate = Moved obj after ->
  uciString = candidate \/ uciString = uciOf obj ->
  outcomeSound start
    (Fulfilled (Some (mkGameMove (mo_san obj) uciString (chess_fen after)))) after.
Proof.
  intros Hdown Hmove Huci. exists from. split; [exact Hdown|].
  split; [reflexivity|]. exists candidate, obj. auto.
Qed.

Lemma fromEngine_sound (start chess : Chess) currentFen sf :
  turnedDown start chess ->
  attemptSound start (fromEngine answer difficulty currentFen chess sf).
Proof.
  intros Hdown. unfold fromEngine.
  destruct (getBestMove sf currentFen _) as [completion sf1].
  destruct (match completion with
            | Returned bestMove => (Some (BestMoveValue (Some bestMove)), sf1)
            | Pending promise => awaitPromise sf1 promise (answer promise)
            | AwaitingReady => (None, sf1)
            end) as [[[[bestMove|]|evaluation]|] sf2]; try exact Hdown.
  destruct (chess_move chess bestMove) as [obj next|next|next] eqn:Hmove.
  - exact (played_sound start chess next bestMove obj bestMove Hdown Hmove
             (or_introl eq_refl)).
  - exact (turnedDown_call start chess next bestMove Hdown (or_introl Hmove)).
  - exact (turnedDown_call start chess next bestMove Hdown (or_intror Hmove)).
Qed.

Lemma tryLearned_sound (start : Chess) moves : forall chess,
  turnedDown start chess ->
  match tryLearned chess moves with
  | inl (Some result, chess') => outcomeSound start (Fulfilled result) chess' /\ result <> None
  | inl (None, chess') => turnedDown start chess'
  | inr chess' => turnedDown start chess'
  end.
Proof.
  induction moves as [|move moves IH]; intros chess Hdown; cbn [tryLearned].
  - exact Hdown.
  - destruct (chess_move chess move) as [obj next|next|next] eqn:Hmove.
    + split; [|discriminate].
      exact (played_sound start chess next move obj move Hdown Hmove
               (or_introl eq_refl)).
    + apply IH.
      exact (turnedDown_call start chess next move Hdown (or_introl Hmove)).
    + exact (turnedDown_call start chess next move Hdown (or_intror Hmove)).
Qed.

Lemma fromStore_sound (start chess : Chess) currentFen sf :
  turnedDown start chess ->
  attemptSound start
    (fromStore learningService answer difficulty draws currentFen chess sf).
Proof.
  intros Hdown. unfold fromStore.
  destruct (hasLearnedPosition learningService currentFen);
    [|apply fromEngine_sound, Hdown].
  destruct (_ && _); [|apply fromEngine_sound, Hdown].
  pose proof (tryLearned_sound start
                (getCommonMoves learningService currentFen) chess Hdown) as Ht.
  destruct (tryLearned chess _) as [[[result|] chess1]|chess1].
  - exact (proj1 Ht).
  - apply fromEngine_sound, Ht.
  - exact Ht.
Qed.

Lemma fromBook_sound (chess : Chess) sf :
  attemptSound chess
    (fromBook tanh learningService answer difficulty draws chess sf).
Proof.
  pose proof (turnedDown_none chess) as Hdown. unfold fromBook.
  destruct (_ <? 15)%nat; [|apply fromStore_sound, Hdown].
  destruct (getBookMove _ _ _ _) as [bookMove|]; [|apply fromStore_sound, Hdown].
  destruct (String.eqb bookMove ""); [apply fromStore_sound, Hdown|].
  destruct (chess_move chess bookMove) as [obj next|next|next] eqn:Hmove.
  - exact (played_sound chess chess next bookMove obj bookMove Hdown Hmove
             (or_introl eq_refl)).
  - apply fromStore_sound.
    exact (turnedDown_call chess chess next bookMove Hdown (or_introl Hmove)).
  - exact (turnedDown_call chess chess next bookMove Hdown (or_intror Hmove)).
Qed.

Lemma randomFallback_sound (start chess : Chess) :
  turnedDown start chess ->
  outcomeSound start (fst (randomFallback draws chess))
    (snd (randomFallback draws chess)).
Proof.
  intros Hdown. unfold randomFallback.
  destruct (bool_decide (chess_moves chess = [])); [exact Hdown|].
  destruct (randomMove draws (chess_moves chess)) as [move|]; [|exact Hdown].
  destruct (chess_move chess move) as [obj next|next|next] eqn:Hmove; cbn [fst snd].
  - exact (played_sound start chess next move obj (uciOf obj) Hdown Hmove
             (or_intror eq_refl)).
  - exact (turnedDown_call start chess next move Hdown (or_introl Hmove)).
  - exact (turnedDown_call start chess next move Hdown (or_intror Hmove)).
Qed.

Lemma makeAIMove_sound (chess : Chess) sf outcome chess' sf' :
  makeAIMove tanh learningService answer difficulty draws chess sf
  = (outcome, chess', sf') ->
  outcomeSound chess outcome chess'.
Proof.
  unfold makeAIMove. pose proof (fromBook_sound chess sf) as Hs.
  destruct (fromBook _ _ _ _ _ chess sf) as [o c s|c s]; cbn [withFallback attemptSound] in *.
  - intros [= <- <- <-]. exact Hs.
  - pose proof (randomFallback_sound chess c Hs) as Hr.
    destruct (randomFallback draws c) as [o c1]. intros [= <- <- <-]. exact Hr.
Qed.

(** A move that [makeAIMove] returns was played by the rules engine: the
    instance after the call is the one the rules engine gave for it, the
    position string of the move is the position of that instance and its
    SAN is the one of the move object. The calls before it, for the
    candidates that were not played, were turned down; so with a rules
    engine that leaves the instance as it was when it turns a move down,
    the move was played on the position the call started with. *)
Theorem makeAIMove_returns_played_move (chess : Chess) (sf : StockfishEngine)
    (gm : GameMove) (chess' : Chess) (sf' : StockfishEngine) :
  makeAIMove tanh learningService answer difficulty draws chess sf
  = (Fulfilled (Some gm), chess', sf') ->
  (exists from, turnedDown chess from /\ playedFrom from chess' gm) /\
  (rejection_keeps_instance -> playedFrom chess chess' gm).
Proof.
  intros Hrun. pose proof (makeAIMove_sound chess sf _ _ _ Hrun) as Hs.
  cbn [outcomeSound] in Hs. split; [exact Hs|].
  intros Hkeep. destruct Hs as (from & Hdown & Hplayed).
  rewrite <- (turnedDown_keeps chess from Hkeep Hdown). exact Hplayed.
Qed.

(** A call of [makeAIMove] that returns no move (null, an error, or a
    promise that stays pending) leaves the game as it was, with a rules
    engine that leaves the instance as it was when it turns a move
    down. *)
Theorem makeAIMove_without_move_keeps_game (chess : Chess) (sf : StockfishEngine)
    (outcome : AIMoveOutcome) (chess' : Chess) (sf' : StockfishEngine) :
  rejection_keeps_instance ->
  makeAIMove tanh learningService answer difficulty draws chess sf
  = (outcome, chess', sf') ->
  (forall gm, outcome <> Fulfilled (Some gm)) ->
  chess' = chess /\ getGameState chess' = getGameState chess.
Proof.
  intros Hkeep Hrun Hnone.
  pose proof (makeAIMove_sound chess sf _ _ _ Hrun) as Hs.
  assert (turnedDown chess chess') as Hdown.
  { destruct outcome as [[gm|]| |]; cbn [outcomeSound] in Hs;
      [destruct (Hnone gm eq_refl) | exact Hs..]. }
  rewrite (turnedDown_keeps chess chess' Hkeep Hdown). split; reflexivity.
Qed.

(** ** What a call does to the engine client *)

Lemma awaitPromise_handled chunks : forall st promise value st',
  awaitPromise st promise chunks = (value, st') ->
  resolution st' promise = value /\
  exists handled rest,
    chunks = handled ++ rest /\ st' = foldl handleEngineOutput st handled.
Proof.
  induction chunks as [|data chunks IH]; intros st promise value st';
    cbn [awaitPromise].
  - destruct (resolution st promise) as [v|] eqn:Hres;
      intros Heq; inversion Heq; subst; (split; [exact Hres|]);
      exists [], []; split; reflexivity.
  - destruct (resolution st promise) as [v|] eqn:Hres.
    + intros Heq; inversion Heq; subst. split; [exact Hres|].
      exists [], (data :: chunks). split; reflexivity.
    + intros Hrest. destruct (IH _ _ _ _ Hrest) as (Hv & handled & rest & -> & ->).
      split; [exact Hv|]. exists (data :: handled), rest. split; reflexivity.
Qed.

Lemma resolution_resolved st promise value :
  resolution st promise = Some value -> promise ∈ resolvedPromises st.
Proof.
  unfold resolution, resolvedPromises.
  destruct (List.find _ (settled st)) as [[k v]|] eqn:Hfind; [|discriminate].
  intros _. apply find_some in Hfind as [Hin Heq].
  apply Nat.eqb_eq in Heq. cbn [fst] in Heq. subst k.
  apply list_elem_of_fmap. exists (promise, v). split; [reflexivity|].
  apply list_elem_of_In. exact Hin.
Qed.

Lemma handleLine_written st line :
  exists n, written (handleLine st line) = written st ++ replicate n IsReady.
Proof.
  unfold handleLine.
  destruct (String.eqb line "uciok").
  { unfold sendCommand, written. destruct (engine st) as [p|] eqn:Hengine.
    - exists 1%nat. reflexivity.
    - exists 0%nat. rewrite Hengine. reflexivity. }
  assert (exists n, written st = written st ++ replicate n IsReady) as Hsame
    by (exists 0%nat; rewrite app_nil_r; reflexivity).
  destruct (String.eqb line "readyok"); [exact Hsame|].
  destruct (startsWith "bestmove" line).
  { destruct (resolveMap st !! "bestmove"); exact Hsame. }
  destruct (startsWith "info" line); [|exact Hsame].
  unfold parseEvaluation.
  destruct (resolveMap st !! "evaluation"); [|exact Hsame].
  destruct (10 <=? frameDepth line)%float; exact Hsame.
Qed.

Lemma feed_written lines : forall st,
  exists n, written (feed st lines) = written st ++ replicate n IsReady.
Proof.
  induction lines as [|line lines IH]; intros st.
  - exists 0%nat. rewrite app_nil_r. reflexivity.
  - destruct (handleLine_written st line) as [n Hn].
    destruct (IH (handleLine st line)) as [m Hm].
    exists (n + m)%nat. cbn [feed foldl]. unfold feed in Hm. rewrite Hm, Hn.
    rewrite <- app_assoc, replicate_add. reflexivity.
Qed.

Lemma chunks_written chunks : forall st,
  exists n,
    written (foldl handleEngineOutput st chunks) = written st ++ replicate n IsReady.
Proof.
  induction chunks as [|data chunks IH]; intros st.
  - exists 0%nat. rewrite app_nil_r. reflexivity.
  - destruct (feed_written (split "010" (trim data)) st) as [n Hn].
    destruct (IH (handleEngineOutput st data)) as [m Hm].
    exists (n + m)%nat. cbn [foldl]. rewrite Hm. unfold handleEngineOutput.
    rewrite Hn, <- app_assoc, replicate_add. reflexivity.
Qed.

Lemma getBestMove_pending sf currentFen timeMs promise sf1 :
  getBestMove sf currentFen timeMs = (Pending promise, sf1) ->
  promise = fresh sf /\
  written sf1 = written sf ++ [PositionFen currentFen; GoMovetime timeMs].
Proof.
  unfold getBestMove, written, sendCommand.
  destruct (negb (isReady sf)); [discriminate|].
  destruct (engine sf) as [p|] eqn:Hengine; [|discriminate].
  cbn [engine]. intros Heq. inversion Heq. subst. split; [reflexivity|].
  cbn [engine stdin]. rewrite <- app_assoc. reflexivity.
Qed.

Lemma getBestMove_unchanged sf currentFen timeMs sf1 :
  (forall promise, fst (getBestMove sf currentFen timeMs) <> Pending promise) ->
  snd (getBestMove sf currentFen timeMs) = sf1 -> sf1 = sf.
Proof.
  unfold getBestMove.
  destruct (negb (isReady sf)); [intros _ <-; reflexivity|].
  destruct (engine sf) as [p|]; [|intros _ <-; reflexivity].
  intros Hno. destruct (Hno (fresh sf)). reflexivity.
Qed.

Lemma fromEngine_client (chess : Chess) currentFen sf :
  clientSound answer currentFen (thinkingTimeOf difficulty) sf
    (fromEngine answer difficulty currentFen chess sf).
Proof.
  unfold clientSound, fromEngine, thinkingTimeOf.
  destruct (getBestMove sf currentFen _) as [completion sf1] eqn:Hcall.
  destruct completion as [bestMove|promise|].
  - left.
    assert (sf1 = sf) as ->.
    { apply (getBestMove_unchanged sf currentFen
               (Math_max 500 (Math_min 3000 difficulty)));
        rewrite Hcall; [discriminate | reflexivity]. }
    destruct (chess_move chess bestMove); reflexivity.
  - right.
    destruct (getBestMove_pending _ _ _ _ _ Hcall) as [-> _].
    destruct (awaitPromise sf1 (fresh sf) (answer (fresh sf))) as [value sf2] eqn:Hawait.
    destruct (awaitPromise_handled _ _ _ _ _ Hawait)
      as (Hvalue & handled & rest & Hchunks & Hsf2).
    assert (askedOnce answer currentFen (Math_max 500 (Math_min 3000 difficulty))
              sf sf2) as Hasked
      by (exists sf1, handled, rest; auto).
    assert (value <> None -> fresh sf ∈ resolvedPromises sf2) as Hresolved.
    { destruct value as [v|]; [|intros Hne; destruct Hne; reflexivity].
      intros _. exact (resolution_resolved _ _ _ Hvalue). }
    destruct value as [[[bestMove|]|evaluation]|].
    + destruct (chess_move chess bestMove); cbn [clientOf];
        (split; [exact Hasked|]); intros _; apply Hresolved; discriminate.
    + cbn [clientOf]. split; [exact Hasked|]. intros _. apply Hresolved. discriminate.
    + cbn [clientOf]. split; [exact Hasked|]. intros _. apply Hresolved. discriminate.
    + cbn [clientOf settledAttempt]. split; [exact Hasked|]. intros [].
  - left.
    apply (getBestMove_unchanged sf currentFen
             (Math_max 500 (Math_min 3000 difficulty)));
      rewrite Hcall; [discriminate | reflexivity].
Qed.

Lemma fromStore_client (chess : Chess) currentFen sf :
  clientSound answer currentFen (thinkingTimeOf difficulty) sf
    (fromStore learningService answer difficulty draws currentFen chess sf).
Proof.
  unfold fromStore.
  destruct (hasLearnedPosition learningService currentFen);
    [|apply fromEngine_client].
  destruct (_ && _); [|apply fromEngine_client].
  destruct (tryLearned chess _) as [[[result|] chess1]|chess1].
  - left. reflexivity.
  - apply fromEngine_client.
  - left. reflexivity.
Qed.

Lemma fromBook_client (chess : Chess) sf :
  clientSound answer (chess_fen chess) (thinkingTimeOf difficulty) sf
    (fromBook tanh learningService answer difficulty draws chess sf).
Proof.
  unfold fromBook.
  destruct (_ <? 15)%nat; [|apply fromStore_client].
  destruct (getBookMove _ _ _ _) as [bookMove|]; [|apply fromStore_client].
  destruct (String.eqb bookMove ""); [apply fromStore_client|].
  destruct (chess_move chess bookMove); [left; reflexivity | | left; reflexivity].
  apply fromStore_client.
Qed.

Lemma askedOnce_written fen timeMs sf sf' :
  askedOnce answer fen timeMs sf sf' ->
  exists n,
    written sf'
    = written sf ++ [PositionFen fen; GoMovetime timeMs] ++ replicate n IsReady.
Proof.
  intros (sf1 & handled & rest & Hcall & _ & ->).
  destruct (getBestMove_pending _ _ _ _ _ Hcall) as [_ Hwritten].
  destruct (chunks_written handled sf1) as [n Hn].
  exists n. rewrite Hn, Hwritten, <- app_assoc. reflexivity.
Qed.

(** [makeAIMove] asks the engine at most once. The engine client after
    the call is the one before it, or the one that a single request,
    for the position the call started with and a thinking time between
    500 and 3000 ms, and the output of the engine handled while the call
    waited leave. In the second case what was written to the engine is
    that position and that time, and after them nothing but [isready];
    and unless the call still waits for the engine, the promise of the
    request has been resolved. *)
Theorem makeAIMove_asks_engine_once (chess : Chess) (sf : StockfishEngine) :
  isNaN difficulty = false ->
  let thinkingTime := thinkingTimeOf difficulty in
  let run := makeAIMove tanh learningService answer difficulty draws chess sf in
  let sf' := snd run in
  (500 <=? thinkingTime)%float = true /\
  (thinkingTime <=? 3000)%float = true /\
  (sf' = sf \/ askedOnce answer (chess_fen chess) thinkingTime sf sf') /\
  (sf' <> sf ->
   (exists n,
      written sf'
      = written sf ++ [PositionFen (chess_fen chess); GoMovetime thinkingTime]
          ++ replicate n IsReady) /\
   (fst (fst run) <> Unsettled -> fresh sf ∈ resolvedPromises sf')).
Proof.
  intros Hnan thinkingTime run sf'.
  destruct (thinkingTime_bounds difficulty Hnan) as [Hlow Hhigh].
  split; [exact Hlow|]. split; [exact Hhigh|].
  assert (sf' = sf \/
          (askedOnce answer (chess_fen chess) thinkingTime sf sf' /\
           (fst (fst run) <> Unsettled -> fresh sf ∈ resolvedPromises sf')))
    as Hclient.
  { subst sf' run. unfold makeAIMove.
    pose proof (fromBook_client chess sf) as Hc. unfold clientSound in Hc.
    destruct (fromBook _ _ _ _ _ chess sf) as [o c s|c s];
      cbn [withFallback clientOf snd fst] in *.
    - destruct Hc as [Hc|[Hasked Hres]]; [left; exact Hc|]. right.
      split; [exact Hasked|]. intros Hne. apply Hres.
      destruct o as [gm| |]; cbn [settledAttempt]; auto.
    - destruct (randomFallback draws c) as [o c1]. cbn [snd fst].
      destruct Hc as [Hc|[Hasked Hres]]; [left; exact Hc|]. right.
      split; [exact Hasked|]. intros _. apply Hres. exact I. }
  split; [destruct Hclient as [Heq|[Hasked _]]; [left|right]; assumption|].
  intros Hne. destruct Hclient as [Heq|[Hasked Hres]]; [contradiction|].
  split; [|exact Hres]. exact (askedOnce_written _ _ _ _ Hasked).
Qed.

(** ** Without an engine and without data *)

(** When the engine could not be started and nothing was learned about
    the position, the only candidate of [makeAIMove] is e2e4, whatever
    the position: the call returns it when the rules engine plays it,
    null when the rules engine returns null for it, and a random legal
    move when the rules engine throws. *)
Theorem makeAIMove_without_engine_or_data (chess : Chess) (sf : StockfishEngine) :
  engine sf = None -> isReady sf = true ->
  openingBook learningService !! normalizePosition (chess_fen chess) = None ->
  positionDatabase learningService !! normalizePosition (chess_fen chess) = None ->
  makeAIMove tanh learningService answer difficulty draws chess sf
  = match chess_move chess "e2e4" with
    | Moved obj after =>
        (Fulfilled (Some (mkGameMove (mo_san obj) "e2e4" (chess_fen after))), after, sf)
    | Refused after => (Fulfilled None, after, sf)
    | Thrown after => (randomFallback draws after, sf)
    end.
Proof.
  intros Hengine Hready Hbook Hdb.
  assert (fromStore learningService answer difficulty draws (chess_fen chess) chess sf
          = fromEngine answer difficulty (chess_fen chess) chess sf) as Hstore.
  { unfold fromStore, hasLearnedPosition. rewrite Hdb.
    rewrite bool_decide_eq_false_2; [reflexivity|]. intros [? ?]. discriminate. }
  assert (fromBook tanh learningService answer difficulty draws chess sf
          = fromEngine answer difficulty (chess_fen chess) chess sf) as Hb.
  { unfold fromBook, getBookMove. rewrite Hbook, Hstore.
    destruct (_ <? 15)%nat; reflexivity. }
  unfold makeAIMove. rewrite Hb. unfold fromEngine, getBestMove.
  rewrite Hready, Hengine. cbn [negb].
  destruct (chess_move chess "e2e4") as [obj next|next|next]; cbn [withFallback];
    [reflexivity..|].
  destruct (randomFallback draws next); reflexivity.
Qed.

End Selection.

Lemma makeAIMove_returns_played_move_witness :
  playedFrom (R := Toy.engine false) Toy.start
    (snd (makeMove (H := Toy.engine false) Toy.start "e4"))
    (mkGameMove "e4" "e2e4" "toy/e4 b - - 0 1").
Proof.
  assert (makeAIMove (H := Toy.engine false) Toy.tanhApprox blindService silent
            1600 sampleDraws Toy.start noEngine
          = (Fulfilled (Some (mkGameMove "e4" "e2e4" "toy/e4 b - - 0 1")),
             snd (makeMove (H := Toy.engine false) Toy.start "e4"), noEngine))
    as Hrun by (vm_compute; reflexivity).
  destruct (makeAIMove_returns_played_move (R := Toy.engine false)
              Toy.tanhApprox blindService silent 1600 sampleDraws Toy.start
              noEngine _ _ _ Hrun) as [_ Hplayed].
  apply Hplayed, ChessGameProps.toy_rejection_keeps_instance.
Defined.

(** After 1. e4 the move e2e4 is no move: without an engine and without
    data, the call returns null and the game is as it was. *)
Lemma makeAIMove_without_move_keeps_game_witness :
  makeAIMove (H := Toy.engine false) Toy.tanhApprox emptyService silent 1600
    sampleDraws e4Played noEngine
  = (Fulfilled None, e4Played, noEngine) /\
  getGameState (H := Toy.engine false) e4Played
  = getGameState (H := Toy.engine false) e4Played.
Proof.
  assert (makeAIMove (H := Toy.engine false) Toy.tanhApprox emptyService silent
            1600 sampleDraws e4Played noEngine
          = (Fulfilled None, e4Played, noEngine)) as Hrun by (vm_compute; reflexivity).
  split; [exact Hrun|].
  apply (makeAIMove_without_move_keeps_game (R := Toy.engine false)
           Toy.tanhApprox emptyService silent 1600 sampleDraws e4Played noEngine
           (Fulfilled None) e4Played noEngine
           (ChessGameProps.toy_rejection_keeps_instance false) Hrun).
  intros gm. discriminate.
Defined.

(** A ready engine that answers the request with [bestmove d2d4]: d4 is
    played, the request was written, and its promise, the first one of
    the client, has been resolved. *)
Lemma makeAIMove_asks_engine_once_witness :
  let sf := session (Some (mkProcess [])) started in
  let run :=
    makeAIMove (H := Toy.engine false) Toy.tanhApprox emptyService
      (fun _ => [chunkOf ["info depth 1"; "bestmove d2d4 ponder e7e5"]])
      1600 sampleDraws Toy.start sf in
  fst (fst run) = Fulfilled (Some (mkGameMove "d4" "d2d4" "toy/d4 b - - 0 1")) /\
  (exists n,
     written (snd run)
     = [Uci; IsReady; IsReady] ++
       [PositionFen (Toy.boardFen Toy.start); GoMovetime 1600] ++ replicate n IsReady) /\
  0%nat ∈ resolvedPromises (snd run).
Proof.
  intros sf run.
  assert (fst (fst run) = Fulfilled (Some (mkGameMove "d4" "d2d4" "toy/d4 b - - 0 1")))
    as Hrun by (vm_compute; reflexivity).
  destruct (makeAIMove_asks_engine_once (R := Toy.engine false) Toy.tanhApprox
              emptyService
              (fun _ => [chunkOf ["info depth 1"; "bestmove d2d4 ponder e7e5"]])
              1600 sampleDraws Toy.start sf eq_refl)
    as (_ & _ & _ & Hasked).
  assert (snd run <> sf) as Hne by (vm_compute; discriminate).
  destruct (Hasked Hne) as [Hwritten Hresolved].
  split; [exact Hrun|]. split; [exact Hwritten|].
  apply Hresolved. fold run. rewrite Hrun. discriminate.
Defined.

Lemma makeAIMove_without_engine_or_data_witness :
  makeAIMove (H := Toy.engine true) Toy.tanhApprox emptyService silent 1600
    sampleDraws e4Played noEngine
  = (randomFallback (H := Toy.engine true) sampleDraws e4Played, noEngine).
Proof.
  exact (makeAIMove_without_engine_or_data (R := Toy.engine true) Toy.tanhApprox
           emptyService silent 1600 sampleDraws e4Played noEngine
           eq_refl eq_refl (lookup_empty _) (lookup_empty _)).
Defined.

End SelectionProps.

(* ===================================================================== *)
(** * Properties of the routes of the games                                *)
(* ===================================================================== *)

Module RoutesProps.
Import JSString JSNumber Rules Learning ChessGame Stockfish Storage Routes.
Import ChessGameSpec SelectionSpec RoutesSpec.
Local Open Scope list_scope.

Lemma sameString_spec (a b : option string) :
  sameString a b = true <-> exists s, a = Some s /\ b = Some s.
Proof.
  destruct a as [x|], b as [y|]; simpl; split;
    try discriminate; try (intros (s & Ha & Hb); discriminate).
  - intros Heq. apply String.eqb_eq in Heq as ->. eauto.
  - intros (s & [= ->] & [= ->]). apply String.eqb_refl.
Qed.

(** Access is granted to the owner of the game only. *)
Lemma denied_owner (req : Request) (game : Game) :
  denied req game = Some false <-> owns req game.
Proof.
  unfold denied, owns. destruct (isGuest req).
  - destruct (sameString (g_guestId game) (guestId req)) eqn:Hsame;
      destruct (g_isGuestGame game); simpl; split;
      try discriminate; try (intros [? ?]; discriminate).
    + intros _. split; [reflexivity|]. apply sameString_spec. exact Hsame.
    + intros _. reflexivity.
    + intros [_ Hg]. apply sameString_spec in Hg. congruence.
  - destruct (userSub req) as [userId|].
    + destruct (sameString (g_whitePlayerId game) (Some userId)) eqn:Hw;
        destruct (sameString (g_blackPlayerId game) (Some userId)) eqn:Hb;
        simpl; split; try discriminate; try (intros _; reflexivity);
        try (intros _; exists userId; split; [reflexivity|];
             first [ left; apply sameString_spec in Hw as (s & -> & [= ->]); reflexivity
                   | right; apply sameString_spec in Hb as (s & -> & [= ->]); reflexivity ]).
      intros (u & [= <-] & [Hg|Hg]); exfalso.
      * assert (sameString (g_whitePlayerId game) (Some userId) = true)
          by (apply sameString_spec; eauto). congruence.
      * assert (sameString (g_blackPlayerId game) (Some userId) = true)
          by (apply sameString_spec; eauto). congruence.
    + split; [discriminate|]. intros (u & Hu & _). discriminate.
Qed.

Section Handlers.
Context {S : Type} {storage : IStorage S}.
Context {Chess : Type} {R : RulesEngine Chess}.
Variable tanh : number -> number.
Variable learningService : ChessLearningService number.
Variable answer : nat -> list string.
Variable draws : Draws.

Lemma playersTurn_spec (game : Game) (chess : Chess) :
  (String.eqb (gs_turn (getGameState chess)) "w" && String.eqb (g_playerColor game) "white")
  || (String.eqb (gs_turn (getGameState chess)) "b" && String.eqb (g_playerColor game) "black")
  = true <-> playersTurn game chess.
Proof.
  unfold playersTurn. cbn [getGameState gs_turn].
  rewrite orb_true_iff, !andb_true_iff, !String.eqb_eq. reflexivity.
Qed.

(** What [replyOfAI] does to the storage and to the engine client: it
    sends 200 or 500, or nothing yet. *)
Lemma replyOfAI_response st sf game gameId playerMove (chess : Chess) response st' sf' :
  replyOfAI tanh learningService answer draws st sf game gameId playerMove chess
  = (Some response, st', sf') ->
  statusCode response = 200%nat \/ statusCode response = 500%nat.
Proof.
  unfold replyOfAI.
  destruct (makeAIMove _ _ _ _ _ chess sf) as [[[aiMove| |] chess2] sf2];
    [| intros [= <- <- <-]; auto | discriminate].
  destruct aiMove as [aiMove|].
  - destruct (addMove st _) as [[m1 st1]|]; [|intros [= <- <- <-]; auto].
    destruct (updateGame st1 _ _) as [[g2 st2]|]; intros [= <- <- <-]; auto.
  - intros [= <- <- <-]. auto.
Qed.

(** A request for a move that is refused, with 404, 403 or 400, changes
    nothing: the storage and the engine client are as they were. And a
    request changes them only when the game exists, the requester owns
    it, it is the turn of the player of the game, and the rules engine
    has played the move. *)
Theorem postMove_changes_only_for_owner (st : S) (sf : StockfishEngine)
    (req : Request) (response : option Response) (st' : S) (sf' : StockfishEngine) :
  postMove tanh learningService answer draws st sf req = (response, st', sf') ->
  ((exists r, response = Some r /\ refused r) -> st' = st /\ sf' = sf) /\
  (st' <> st \/ sf' <> sf ->
   exists game playerMove chess,
     getGame st (paramsId req) = Some (Some game) /\
     owns req game /\
     playersTurn game (newChess (Some (g_currentFen game))) /\
     makeMove (newChess (Some (g_currentFen game))) (bodyMove req)
     = (Some playerMove, chess)).
Proof.
  unfold postMove, refused.
  destruct (getGame st (paramsId req)) as [[game|]|];
    [| intros [= <- <- <-]; split; [auto | intros [Hn|Hn]; congruence]..].
  destruct (denied req game) as [[|]|] eqn:Hdenied;
    [intros [= <- <- <-]; split; [auto | intros [Hn|Hn]; congruence]|
     |intros [= <- <- <-]; split; [auto | intros [Hn|Hn]; congruence]].
  apply denied_owner in Hdenied.
  destruct (_ || _) eqn:Hturn; cbn [negb];
    [|intros [= <- <- <-]; split; [auto | intros [Hn|Hn]; congruence]].
  apply playersTurn_spec in Hturn.
  destruct (makeMove _ (bodyMove req)) as [[playerMove|] chess1] eqn:Hmove;
    [|intros [= <- <- <-]; split; [auto | intros [Hn|Hn]; congruence]].
  intros Hrun. split; [|intros _; exists game, playerMove, chess1; auto].
  intros (r & -> & Href). exfalso.
  assert (statusCode r = 200%nat \/ statusCode r = 500%nat) as Hcode.
  { destruct (addMove st _) as [[m1 st1]|]; [|injection Hrun as <- _ _; auto].
    destruct (updateGame st1 _ _) as [[g2 st2]|]; [|injection Hrun as <- _ _; auto].
    destruct (gs_isGameOver _).
    - destruct (updateGame st2 _ _) as [[g3 st3]|]; injection Hrun as <- _ _; auto.
    - exact (replyOfAI_response _ _ _ _ _ _ _ _ _ Hrun). }
  destruct Hcode as [Hc|Hc], Href as [Hr|[Hr|Hr]]; congruence.
Qed.


(** A response with the code 200 carries the moves. *)
Lemma postMove_ok_body (st : S) (sf : StockfishEngine) (req : Request)
    (body : Body) (st' : S) (sf' : StockfishEngine) :
  postMove tanh learningService answer draws st sf req
  = (Some (mkResponse 200 body), st', sf') ->
  (exists move gameState, body = MoveOver move gameState) \/
  (exists playerMove aiMove gameState gameOver,
     body = MovePlayed playerMove aiMove gameState gameOver).
Proof.
  unfold postMove, notFound, accessDenied.
  destruct (getGame st (paramsId req)) as [[game|]|]; try discriminate.
  destruct (denied req game) as [[|]|]; try discriminate.
  destruct (_ || _); cbn [negb]; [|discriminate].
  destruct (makeMove _ (bodyMove req)) as [[playerMove|] chess1]; [|discriminate].
  destruct (addMove st _) as [[m1 st1]|]; [|discriminate].
  destruct (updateGame st1 _ _) as [[g2 st2]|]; [|discriminate].
  destruct (gs_isGameOver _).
  - destruct (updateGame st2 _ _) as [[g3 st3]|]; [|discriminate].
    intros [= <- _ _]. left. eauto.
  - unfold replyOfAI.
    destruct (makeAIMove _ _ _ _ _ chess1 sf) as [[[aiMove| |] chess2] sf2];
      try discriminate.
    destruct aiMove as [aiMove|].
    + destruct (addMove st2 _) as [[m3 st3]|]; [|discriminate].
      destruct (updateGame st3 _ _) as [[g4 st4]|]; [|discriminate].
      intros [= <- _ _]. right. eauto.
    + intros [= <- _ _]. right. eauto.
Qed.

(** A request to resign or to offer a draw changes the storage only when
    the game exists, the requester owns it and it is active; the update
    then sets the status completed, with the result 1/2-1/2 for a draw
    offer. A request answered with 404, 403 or 400 changes nothing. *)
Theorem game_completed_only_by_owner (st : S) (req : Request) :
  let resigned := postResign st req in
  let drawn := postOfferDraw st req in
  (refused (fst resigned) -> snd resigned = st) /\
  (refused (fst drawn) -> snd drawn = st) /\
  (snd resigned <> st \/ snd drawn <> st ->
   exists game,
     getGame st (paramsId req) = Some (Some game) /\
     owns req game /\
     g_status game = "active" /\
     (snd resigned <> st ->
      exists updated,
        updateGame st (paramsId req)
          (mkGameUpdate None None (Some "completed") (Some (resignResult req game)))
        = Some (updated, snd resigned)) /\
     (snd drawn <> st ->
      exists updated,
        updateGame st (paramsId req)
          (mkGameUpdate None None (Some "completed") (Some "1/2-1/2"))
        = Some (updated, snd drawn))).
Proof.
  intros resigned drawn. subst resigned drawn.
  unfold postResign, postOfferDraw, refused.
  destruct (getGame st (paramsId req)) as [[game|]|]; cbn [fst snd];
    [| repeat split; auto; intros [Hn|Hn]; congruence..].
  destruct (denied req game) as [[|]|] eqn:Hdenied; cbn [fst snd];
    [repeat split; auto; intros [Hn|Hn]; congruence|
     |repeat split; auto; intros [Hn|Hn]; congruence].
  apply denied_owner in Hdenied.
  destruct (String.eqb (g_status game) "active") eqn:Hactive; cbn [negb fst snd];
    [|repeat split; auto; intros [Hn|Hn]; congruence].
  apply String.eqb_eq in Hactive.
  split; [|split].
  - destruct (updateGame st _ (mkGameUpdate None None (Some "completed")
                                 (Some (resignResult req game)))) as [[g1 st1]|];
      cbn [fst snd statusCode]; [|reflexivity].
    intros [Hc|[Hc|Hc]]; discriminate.
  - destruct (updateGame st _ (mkGameUpdate None None (Some "completed")
                                 (Some "1/2-1/2"))) as [[g1 st1]|];
      cbn [fst snd statusCode]; [|reflexivity].
    intros [Hc|[Hc|Hc]]; discriminate.
  - intros _. exists game. repeat (split; [first [assumption | reflexivity]|]).
    split.
    + destruct (updateGame st _ (mkGameUpdate None None (Some "completed")
                                   (Some (resignResult req game)))) as [[g1 st1]|];
        cbn [fst snd]; [eauto | congruence].
    + destruct (updateGame st _ (mkGameUpdate None None (Some "completed")
                                   (Some "1/2-1/2"))) as [[g1 st1]|];
        cbn [fst snd]; [eauto | congruence].
Qed.

End Handlers.
(** ** The routes over the storage in memory *)

Section InMemory.
Variable nanoid : nat -> string.
Context {Chess : Type} {R : RulesEngine Chess}.
Variable tanh : number -> number.
Variable learningService : ChessLearningService number.
Variable answer : nat -> list string.
Variable draws : Draws.

Lemma mem_updateGame_found (st : MemStorage) id updates game :
  games st !! id = Some game ->
  mem_updateGame st id updates
  = Some (applyUpdate game updates,
          mkMemStorage (<[id := applyUpdate game updates]> (games st)) (moves st)
            (drawn st)).
Proof. intros Hgame. unfold mem_updateGame. rewrite Hgame. reflexivity. Qed.

Ltac update_found Hgame :=
  erewrite mem_updateGame_found
    by (cbn [games]; first [exact Hgame | apply lookup_insert_eq]);
  cbn [games moves drawn].

(** The storage after the move of the player and the reply of the AI
    have been stored. *)
Lemma postMove_played (st : MemStorage) (sf : StockfishEngine) (req : Request)
    (playerMove : GameMove) (aiMove : option GameMove) (gameState : GameState)
    (gameOver : bool) (st' : MemStorage) (sf' : StockfishEngine) :
  postMove (storage := memStorage nanoid) tanh learningService answer draws st sf req
  = (Some (mkResponse 200 (MovePlayed playerMove aiMove gameState gameOver)), st', sf') ->
  exists game chess1 chess2,
    games st !! paramsId req = Some game /\
    owns req game /\
    playersTurn game (newChess (Some (g_currentFen game))) /\
    makeMove (newChess (Some (g_currentFen game))) (bodyMove req)
    = (Some playerMove, chess1) /\
    gs_isGameOver (getGameState chess1) = false /\
    makeAIMove tanh learningService answer (g_aiDifficulty game) draws chess1 sf
    = (Fulfilled aiMove, chess2, sf') /\
    gameState = getGameState chess2 /\
    gameOver = gs_isGameOver (getGameState chess2) /\
    let playerRow :=
      storedMove (nanoid (drawn st)) (paramsId req) (moveNumberOf chess1)
        (chess_turn (newChess (Some (g_currentFen game)))) playerMove in
    match aiMove with
    | None =>
        st' = mkMemStorage
                (<[paramsId req :=
                     applyUpdate game
                       (mkGameUpdate (Some (fen playerMove))
                          (Some (chess_pgn chess1)) None None)]> (games st))
                (<[paramsId req :=
                     default [] (moves st !! paramsId req) ++ [playerRow]]> (moves st))
                (Datatypes.S (drawn st))
    | Some ai =>
        st' = mkMemStorage
                (<[paramsId req :=
                     applyUpdate game
                       (mkGameUpdate (Some (fen ai)) (Some (chess_pgn chess2)) None None)]>
                   (games st))
                (<[paramsId req :=
                     default [] (moves st !! paramsId req) ++
                     [playerRow;
                      storedMove (nanoid (Datatypes.S (drawn st))) (paramsId req)
                        (moveNumberOf chess2)
                        (if String.eqb (chess_turn chess2) "w" then "b" else "w") ai]]>
                   (moves st))
                (Datatypes.S (Datatypes.S (drawn st)))
    end.
Proof.
  unfold postMove. cbn [getGame memStorage mem_getGame].
  destruct (games st !! paramsId req) as [game|] eqn:Hgame; [|discriminate].
  destruct (denied req game) as [[|]|] eqn:Hdenied; try discriminate.
  apply denied_owner in Hdenied.
  destruct (_ || _) eqn:Hturn; cbn [negb]; [|discriminate].
  apply playersTurn_spec in Hturn.
  destruct (makeMove _ (bodyMove req)) as [[playerMove0|] chess1] eqn:Hmove;
    [|discriminate].
  cbn [addMove updateGame memStorage]. unfold mem_addMove.
  cbn [games moves drawn im_gameId im_moveNumber im_side im_san im_uci im_fen].
  update_found Hgame.
  destruct (gs_isGameOver (getGameState chess1)) eqn:Hover.
  { update_found Hgame. discriminate. }
  unfold replyOfAI.
  destruct (makeAIMove _ _ _ _ _ chess1 sf) as [[[ai| |] chess2] sf2] eqn:Hai;
    try discriminate.
  destruct ai as [ai|].
  - cbn [addMove updateGame memStorage]. unfold mem_addMove.
    cbn [games moves drawn im_gameId im_moveNumber im_side im_san im_uci im_fen].
    update_found Hgame.
    rewrite lookup_insert_eq. cbn [default].
    intros Heq. inversion Heq. subst. clear Heq.
    exists game, chess1, chess2.
    repeat (split; [first [assumption | reflexivity]|]).
    cbv zeta. unfold storedMove. f_equal.
    + rewrite !insert_insert_eq. reflexivity.
    + rewrite insert_insert_eq, <- app_assoc. reflexivity.
  - intros Heq. inversion Heq. subst. clear Heq.
    exists game, chess1, chess2.
    repeat (split; [first [assumption | reflexivity]|]).
    reflexivity.
Qed.


(** The storage after a move of the player that ends the game. *)
Lemma postMove_over (st : MemStorage) (sf : StockfishEngine) (req : Request)
    (move : GameMove) (gameState : GameState) (st' : MemStorage)
    (sf' : StockfishEngine) :
  postMove (storage := memStorage nanoid) tanh learningService answer draws st sf req
  = (Some (mkResponse 200 (MoveOver move gameState)), st', sf') ->
  exists game chess1,
    games st !! paramsId req = Some game /\
    owns req game /\
    playersTurn game (newChess (Some (g_currentFen game))) /\
    makeMove (newChess (Some (g_currentFen game))) (bodyMove req)
    = (Some move, chess1) /\
    gameState = getGameState chess1 /\
    gs_isGameOver gameState = true /\
    sf' = sf /\
    st' = mkMemStorage
            (<[paramsId req :=
                 applyUpdate
                   (applyUpdate game
                      (mkGameUpdate (Some (fen move)) (Some (chess_pgn chess1))
                         None None))
                   (mkGameUpdate None None (Some "completed")
                      (Some (gameOverResult
                               (getGameState (newChess (Some (g_currentFen game))))
                               gameState)))]> (games st))
            (<[paramsId req :=
                 default [] (moves st !! paramsId req) ++
                 [storedMove (nanoid (drawn st)) (paramsId req) (moveNumberOf chess1)
                    (chess_turn (newChess (Some (g_currentFen game)))) move]]>
               (moves st))
            (Datatypes.S (drawn st)).
Proof.
  unfold postMove. cbn [getGame memStorage mem_getGame].
  destruct (games st !! paramsId req) as [game|] eqn:Hgame; [|discriminate].
  destruct (denied req game) as [[|]|] eqn:Hdenied; try discriminate.
  apply denied_owner in Hdenied.
  destruct (_ || _) eqn:Hturn; cbn [negb]; [|discriminate].
  apply playersTurn_spec in Hturn.
  destruct (makeMove _ (bodyMove req)) as [[playerMove0|] chess1] eqn:Hmove;
    [|discriminate].
  cbn [addMove updateGame memStorage]. unfold mem_addMove.
  cbn [games moves drawn im_gameId im_moveNumber im_side im_san im_uci im_fen].
  update_found Hgame.
  destruct (gs_isGameOver (getGameState chess1)) eqn:Hover.
  - update_found Hgame.
    intros Heq. inversion Heq. subst. clear Heq.
    exists game, chess1.
    repeat (split; [first [assumption | reflexivity]|]).
    unfold storedMove. f_equal. rewrite insert_insert_eq. reflexivity.
  - unfold replyOfAI.
    destruct (makeAIMove _ _ _ _ _ chess1 sf) as [[[ai| |] chess2] sf2];
      try discriminate.
    destruct ai as [ai|]; [|discriminate].
    cbn [addMove updateGame memStorage]. unfold mem_addMove.
    cbn [games moves drawn im_gameId im_moveNumber im_side im_san im_uci im_fen].
    update_found Hgame. discriminate.
Qed.

(** After a move that the route has accepted and the AI has answered (or
    could not answer), the storage holds, after the rows the game had,
    the row of the move of the player and then the row of the move of the
    AI, each with the SAN, the UCI string and the position of the move
    in the response and without an evaluation; the row of the player has
    the side that was to move. The position stored for the game is the
    position of the last of these moves, which is the position in the
    response when the AI has moved. The other games and their rows are
    as they were. *)
Theorem postMove_stores_moves_in_order (st : MemStorage) (sf : StockfishEngine)
    (req : Request) (playerMove : GameMove) (aiMove : option GameMove)
    (gameState : GameState) (gameOver : bool) (st' : MemStorage)
    (sf' : StockfishEngine) :
  postMove (storage := memStorage nanoid) tanh learningService answer draws st sf req
  = (Some (mkResponse 200 (MovePlayed playerMove aiMove gameState gameOver)), st', sf') ->
  let gameId := paramsId req in
  let played := playerMove :: match aiMove with Some ai => [ai] | None => [] end in
  exists game game' rows,
    games st !! gameId = Some game /\
    mem_getGameMoves st' gameId
    = Some (default [] (mem_getGameMoves st gameId) ++ rows) /\
    map (fun m => (m_san m, m_uci m, m_fen m)) rows
    = map (fun gm => (san gm, uci gm, fen gm)) played /\
    Forall (fun m => m_gameId m = gameId /\ m_evaluation m = None) rows /\
    m_side <$> head rows = Some (chess_turn (newChess (Some (g_currentFen game)))) /\
    games st' !! gameId = Some game' /\
    Some (g_currentFen game') = fen <$> last played /\
    (aiMove <> None -> g_currentFen game' = gs_fen gameState) /\
    (forall other, other <> gameId ->
       games st' !! other = games st !! other /\
       moves st' !! other = moves st !! other).
Proof.
  intros Hrun gameId played. subst gameId played.
  destruct (postMove_played _ _ _ _ _ _ _ _ _ Hrun)
    as (game & chess1 & chess2 & Hgame & _ & _ & Hmove & _ & Hai & Hstate & _ & Hst).
  cbv zeta in Hst. unfold mem_getGameMoves. cbn [default].
  destruct aiMove as [ai|]; subst st'; cbn [games moves].
  - eexists game, _, _. split; [exact Hgame|].
    split; [rewrite lookup_insert_eq; reflexivity|].
    split; [reflexivity|].
    split; [repeat constructor|].
    split; [reflexivity|].
    split; [apply lookup_insert_eq|].
    split; [reflexivity|].
    split.
    + intros _. cbn [applyUpdate g_currentFen u_currentFen default].
      pose proof (SelectionProps.makeAIMove_sound _ _ _ _ _ _ _ _ _ _ Hai) as Hsound.
      cbn [outcomeSound] in Hsound. destruct Hsound as (from & _ & Hfen & _).
      rewrite Hstate. exact Hfen.
    + intros other Hne. rewrite !lookup_insert_ne by congruence. auto.
  - eexists game, _, _. split; [exact Hgame|].
    split; [rewrite lookup_insert_eq; reflexivity|].
    split; [reflexivity|].
    split; [repeat constructor|].
    split; [reflexivity|].
    split; [apply lookup_insert_eq|].
    split; [reflexivity|].
    split; [congruence|].
    intros other Hne. rewrite !lookup_insert_ne by congruence. auto.
Qed.

(** The reply of the AI never ends a game in the storage: after a
    response with both moves, the status and the result of the game are
    what they were, also when the response says that the game is over. *)
Theorem game_ended_by_AI_stays_open (st : MemStorage) (sf : StockfishEngine)
    (req : Request) (playerMove : GameMove) (aiMove : option GameMove)
    (gameState : GameState) (st' : MemStorage) (sf' : StockfishEngine) :
  postMove (storage := memStorage nanoid) tanh learningService answer draws st sf req
  = (Some (mkResponse 200 (MovePlayed playerMove aiMove gameState true)), st', sf') ->
  exists game game',
    mem_getGame st (paramsId req) = Some (Some game) /\
    mem_getGame st' (paramsId req) = Some (Some game') /\
    gs_isGameOver gameState = true /\
    g_status game' = g_status game /\
    g_result game' = g_result game.
Proof.
  intros Hrun.
  destruct (postMove_played _ _ _ _ _ _ _ _ _ Hrun)
    as (game & chess1 & chess2 & Hgame & _ & _ & _ & _ & _ & Hstate & Hover & Hst).
  cbv zeta in Hst. unfold mem_getGame.
  destruct aiMove as [ai|]; subst st'; cbn [games];
    eexists game, _; (split; [rewrite Hgame; reflexivity|]);
    (split; [rewrite lookup_insert_eq; reflexivity|]);
    (split; [rewrite Hstate; symmetry; exact Hover|]);
    split; reflexivity.
Qed.

(** When the move of the player ends the game, the engine is not asked,
    the row of the move is stored, and the game is stored as completed
    with the result that the route computes from the side that was to
    move before the move: for a checkmate, 0-1 when that side was White
    and 1-0 otherwise; 1/2-1/2 when the game is over without
    checkmate. *)
Theorem postMove_records_game_over (st : MemStorage) (sf : StockfishEngine)
    (req : Request) (move : GameMove) (gameState : GameState)
    (st' : MemStorage) (sf' : StockfishEngine) :
  postMove (storage := memStorage nanoid) tanh learningService answer draws st sf req
  = (Some (mkResponse 200 (MoveOver move gameState)), st', sf') ->
  exists game game' row,
    mem_getGame st (paramsId req) = Some (Some game) /\
    mem_getGame st' (paramsId req) = Some (Some game') /\
    sf' = sf /\
    gs_isGameOver gameState = true /\
    g_status game' = "completed" /\
    g_result game'
    = Some (if gs_isCheckmate gameState
            then (if String.eqb (chess_turn (newChess (Some (g_currentFen game)))) "w"
                  then "0-1" else "1-0")
            else "1/2-1/2") /\
    g_currentFen game' = fen move /\
    mem_getGameMoves st' (paramsId req)
    = Some (default [] (mem_getGameMoves st (paramsId req)) ++ [row]) /\
    (m_side row, m_san row, m_uci row, m_fen row)
    = (chess_turn (newChess (Some (g_currentFen game))), san move, uci move, fen move).
Proof.
  intros Hrun.
  destruct (postMove_over _ _ _ _ _ _ _ Hrun)
    as (game & chess1 & Hgame & _ & _ & _ & Hstate & Hover & Hsf & Hst).
  unfold mem_getGame, mem_getGameMoves. subst st'. cbn [games moves default].
  eexists game, _, _. split; [rewrite Hgame; reflexivity|].
  split; [rewrite lookup_insert_eq; reflexivity|].
  split; [exact Hsf|]. split; [exact Hover|].
  split; [reflexivity|]. split; [reflexivity|]. split; [reflexivity|].
  split; [rewrite lookup_insert_eq; reflexivity|].
  reflexivity.
Qed.


Lemma moveNumber_after_move (chess after : Chess) move obj :
  chess_move chess move = Moved obj after ->
  historyFromPosition ->
  moveNumberOf after = (Datatypes.S (length (chess_history chess)) / 2 + 1)%nat.
Proof.
  intros Hmove [_ Hgrow]. unfold moveNumberOf. cbn [getGameState gs_moves].
  rewrite length_map, (Hgrow chess move obj after Hmove). reflexivity.
Qed.

(** With a rules engine for which an instance made from a position
    string has no history (and which leaves the instance as it was when
    it turns a move down), the rows that the route stores are numbered 1
    for the move of the player and 2 for the move of the AI, whatever the
    number of moves played in the game so far. *)
Theorem stored_move_numbers (st : MemStorage) (sf : StockfishEngine)
    (req : Request) (playerMove : GameMove) (aiMove : option GameMove)
    (gameState : GameState) (gameOver : bool) (st' : MemStorage)
    (sf' : StockfishEngine) :
  historyFromPosition -> rejection_keeps_instance ->
  postMove (storage := memStorage nanoid) tanh learningService answer draws st sf req
  = (Some (mkResponse 200 (MovePlayed playerMove aiMove gameState gameOver)), st', sf') ->
  exists rows,
    mem_getGameMoves st' (paramsId req)
    = Some (default [] (mem_getGameMoves st (paramsId req)) ++ rows) /\
    map m_moveNumber rows
    = match aiMove with Some _ => [1; 2]%nat | None => [1]%nat end.
Proof.
  intros Hhistory Hkeep Hrun.
  destruct (postMove_played _ _ _ _ _ _ _ _ _ Hrun)
    as (game & chess1 & chess2 & Hgame & _ & _ & Hmove & _ & Hai & _ & _ & Hst).
  cbv zeta in Hst. unfold mem_getGameMoves. cbn [default].
  assert (moveNumberOf chess1 = 1%nat) as Hfirst.
  { unfold makeMove in Hmove.
    destruct (chess_move (newChess (Some (g_currentFen game))) (bodyMove req))
      as [obj next|next|next] eqn:Hcall; try discriminate.
    injection Hmove as _ <-.
    rewrite (moveNumber_after_move _ _ _ _ Hcall Hhistory).
    rewrite (proj1 Hhistory). reflexivity. }
  assert (length (chess_history chess1) = 1%nat) as Hlen.
  { unfold makeMove in Hmove.
    destruct (chess_move (newChess (Some (g_currentFen game))) (bodyMove req))
      as [obj next|next|next] eqn:Hcall; try discriminate.
    injection Hmove as _ <-.
    rewrite (proj2 Hhistory _ _ _ _ Hcall), (proj1 Hhistory). reflexivity. }
  destruct aiMove as [ai|]; subst st'; cbn [moves]; rewrite lookup_insert_eq;
    eexists; (split; [reflexivity|]); cbn [map storedMove m_moveNumber];
    rewrite Hfirst; [|reflexivity].
  pose proof (SelectionProps.makeAIMove_sound _ _ _ _ _ _ _ _ _ _ Hai) as Hsound.
  cbn [outcomeSound] in Hsound.
  destruct Hsound as (from & Hdown & _ & candidate & obj & Hcall & _).
  rewrite (SelectionProps.turnedDown_keeps _ _ Hkeep Hdown) in Hcall.
  rewrite (moveNumber_after_move _ _ _ _ Hcall Hhistory), Hlen. reflexivity.
Qed.

(** ** Resigning *)

(** The owner of an active game who resigns gets a response with the
    game stored as completed. The result is the loss of the colour of the
    player for a guest, and for a signed-in user who is the white player
    of the game; for a signed-in user who is not the white player (who
    plays Black against the AI, then) it is 1/2-1/2. Afterwards no
    request to resign or to offer a draw for this game succeeds, and
    none changes the storage. *)
Theorem postResign_result (st : MemStorage) (req : Request) (game : Game) :
  mem_getGame st (paramsId req) = Some (Some game) ->
  owns req game ->
  g_status game = "active" ->
  exists game' st' result,
    postResign (storage := memStorage nanoid) st req
    = (mkResponse 200 (Resigned game' result), st') /\
    mem_getGame st' (paramsId req) = Some (Some game') /\
    g_status game' = "completed" /\
    g_result game' = Some result /\
    (isGuest req = true \/ sameString (g_whitePlayerId game) (userSub req) = true ->
     result = if String.eqb (g_playerColor game) "white" then "0-1" else "1-0") /\
    (isGuest req = false -> sameString (g_whitePlayerId game) (userSub req) = false ->
     result = "1/2-1/2") /\
    (forall again,
       paramsId again = paramsId req ->
       statusCode (fst (postResign (storage := memStorage nanoid) st' again)) <> 200%nat /\
       snd (postResign (storage := memStorage nanoid) st' again) = st' /\
       statusCode (fst (postOfferDraw (storage := memStorage nanoid) st' again)) <> 200%nat /\
       snd (postOfferDraw (storage := memStorage nanoid) st' again) = st').
Proof.
  unfold mem_getGame. intros [= Hgame] Hown Hactive.
  apply denied_owner in Hown.
  eexists _, _, _. unfold postResign.
  cbn [getGame updateGame memStorage mem_getGame]. rewrite Hgame, Hown, Hactive.
  cbn [String.eqb Ascii.eqb Bool.eqb negb].
  rewrite (mem_updateGame_found st _ _ game Hgame).
  split; [reflexivity|]. cbn [games].
  split; [rewrite lookup_insert_eq; reflexivity|].
  split; [reflexivity|]. split; [reflexivity|].
  unfold resignResult. split; [|split].
  - intros [-> | ->]; [reflexivity|]. rewrite orb_true_r. reflexivity.
  - intros -> ->. reflexivity.
  - intros again Hagain. unfold postResign, postOfferDraw.
    cbn [getGame updateGame memStorage mem_getGame games]. rewrite Hagain.
    rewrite lookup_insert_eq.
    destruct (denied again _) as [[|]|]; simpl; repeat split; discriminate.
Qed.


(** ** Creating a game *)

(** The game that the route creates is stored under its identifier, as
    an active game on the initial position of the rules engine. A guest
    with a guest identifier owns the game they have created, and so does
    a signed-in user who asked for the white or for the black pieces; a
    signed-in user who asked for another colour does not own the game
    they have created: both players are the AI. *)
Theorem created_game_is_owned (st : MemStorage) (req : Request) (game : Game)
    (st' : MemStorage) :
  postGame (storage := memStorage nanoid) st req
  = (mkResponse 200 (GameBody game), st') ->
  mem_getGame st' (g_id game) = Some (Some game) /\
  g_status game = "active" /\
  g_result game = None /\
  g_currentFen game = chess_fen (newChess None) /\
  (isGuest req = true ->
   (exists guest, guestId req = Some guest /\ guest <> "") -> owns req game) /\
  (isGuest req = false ->
   bodyPlayerColor req = "white" \/ bodyPlayerColor req = "black" ->
   userSub req <> Some "" -> owns req game) /\
  (isGuest req = false ->
   bodyPlayerColor req <> "white" -> bodyPlayerColor req <> "black" ->
   userSub req <> Some "anveshai" -> ~ owns req game).
Proof.
  unfold postGame, owns, mem_getGame.
  cbn [createGame memStorage mem_createGame].
  destruct (isGuest req) eqn:Hguest.
  - cbn [mem_createGame]. intros [= <- <-]. cbn [games g_id g_status g_result
      g_currentFen g_isGuestGame g_guestId ig_guestId ig_isGuestGame ig_status
      ig_currentFen getGameState gs_fen].
    rewrite lookup_insert_eq.
    repeat (split; [reflexivity|]).
    split; [|split; discriminate].
    intros _ (guest & Hg & Hne). split; [reflexivity|].
    exists guest. rewrite Hg. cbn [orNull].
    apply String.eqb_neq in Hne. rewrite Hne. auto.
  - destruct (userSub req) as [userId|] eqn:Huser; [|discriminate].
    cbn [mem_createGame]. intros [= <- <-]. cbn [games g_id g_status g_result
      g_currentFen g_whitePlayerId g_blackPlayerId ig_whitePlayerId
      ig_blackPlayerId ig_status ig_currentFen getGameState gs_fen].
    rewrite lookup_insert_eq.
    repeat (split; [reflexivity|]).
    split; [discriminate|]. split.
    + intros _ Hcolor Hne. exists userId. split; [reflexivity|].
      assert (String.eqb userId "" = false) as He
        by (apply String.eqb_neq; congruence).
      destruct Hcolor as [-> | ->]; cbn [String.eqb Ascii.eqb Bool.eqb orNull];
        rewrite He; auto.
    + intros _ Hw Hb Hai (u & [= <-] & Hplayer).
      apply String.eqb_neq in Hw, Hb. rewrite Hw, Hb in Hplayer.
      cbn [orNull String.eqb Ascii.eqb Bool.eqb] in Hplayer.
      destruct Hplayer as [[= <-]|[= <-]]; congruence.
Qed.

End InMemory.

(** ** Examples *)

Lemma shortGame_history n : historyFromPosition (R := shortGame n).
Proof.
  split; [reflexivity|].
  intros chess move obj after. cbn [chess_move chess_history shortGame].
  unfold Toy.boardMove.
  destruct (List.find _ (Toy.openMoves chess)); [|discriminate].
  intros [= _ <-]. cbn [Toy.played]. rewrite length_app. cbn [length]. lia.
Qed.

Lemma shortGame_keeps n : rejection_keeps_instance (R := shortGame n).
Proof.
  intros chess move after. cbn [chess_move shortGame]. unfold Toy.boardMove.
  destruct (List.find _ (Toy.openMoves chess)); [intros [H|H]; discriminate|].
  intros [H|H]; congruence.
Qed.

(** Another guest asks for a move in the game of the guest: 403, and
    nothing has changed. *)
Lemma postMove_changes_only_for_owner_witness :
  fst (fst (sampleMove 4 otherGuest "e4")) = Some accessDenied /\
  snd (fst (sampleMove 4 otherGuest "e4")) = guestGameCreated 4 /\
  snd (sampleMove 4 otherGuest "e4") = readyEngine.
Proof.
  destruct (sampleMove 4 otherGuest "e4") as [[response st'] sf'] eqn:Hrun.
  pose proof Hrun as Hvalue. vm_compute in Hvalue.
  injection Hvalue as Hresponse _ _.
  destruct (postMove_changes_only_for_owner (storage := memStorage sampleId)
              (R := shortGame 4) _ _ _ _ _ _ _ _ _ _ Hrun) as [Hrefused _].
  cbn [fst snd]. split; [symmetry; exact Hresponse|].
  apply Hrefused. exists accessDenied. split; [symmetry; exact Hresponse|].
  right. left. reflexivity.
Defined.

(** The guest plays e4 and the AI answers d4. *)
Lemma postMove_stores_moves_in_order_witness :
  exists rows,
    mem_getGameMoves (snd (fst (sampleMove 4 whiteGuest "e4"))) (sampleId 0)
    = Some rows /\
    map (fun m => (m_san m, m_uci m, m_fen m)) rows
    = [("e4", "e2e4", "toy/e4 b - - 0 1"); ("d4", "d2d4", "toy/e4/d4 w - - 0 2")].
Proof.
  destruct (sampleMove 4 whiteGuest "e4") as [[response st'] sf'] eqn:Hrun.
  pose proof Hrun as Hvalue. vm_compute in Hvalue.
  injection Hvalue as Hresponse _ _.
  rewrite <- Hresponse in Hrun.
  destruct (postMove_stores_moves_in_order sampleId (R := shortGame 4)
              _ _ _ _ _ _ _ _ _ _ _ _ _ Hrun)
    as (game & game' & rows & _ & Hmoves & Hrows & _).
  cbn [fst snd]. exists rows. split; [exact Hmoves | exact Hrows].
Defined.

(** With a game that is over after two moves: the AI ends the game, and
    the game is still stored as active. *)
Lemma game_ended_by_AI_stays_open_witness :
  exists game',
    mem_getGame (snd (fst (sampleMove 2 whiteGuest "e4"))) (sampleId 0)
    = Some (Some game') /\
    g_status game' = "active" /\ g_result game' = None.
Proof.
  destruct (sampleMove 2 whiteGuest "e4") as [[response st'] sf'] eqn:Hrun.
  pose proof Hrun as Hvalue. vm_compute in Hvalue.
  injection Hvalue as Hresponse _ _.
  rewrite <- Hresponse in Hrun.
  destruct (game_ended_by_AI_stays_open sampleId (R := shortGame 2)
              _ _ _ _ _ _ _ _ _ _ _ _ Hrun)
    as (game & game' & Hgame & Hgame' & _ & Hstatus & Hresult).
  vm_compute in Hgame. injection Hgame as <-.
  cbn [fst snd]. exists game'. split; [exact Hgame'|].
  split; [exact Hstatus | exact Hresult].
Defined.

(** With a game that is over after one move: the guest, who plays White,
    gives checkmate, and the result stored is 0-1. *)
Lemma postMove_records_game_over_witness :
  exists game',
    mem_getGame (snd (fst (sampleMove 1 whiteGuest "e4"))) (sampleId 0)
    = Some (Some game') /\
    g_status game' = "completed" /\ g_result game' = Some "0-1".
Proof.
  destruct (sampleMove 1 whiteGuest "e4") as [[response st'] sf'] eqn:Hrun.
  pose proof Hrun as Hvalue. vm_compute in Hvalue.
  injection Hvalue as Hresponse _ _.
  rewrite <- Hresponse in Hrun.
  destruct (postMove_records_game_over sampleId (R := shortGame 1)
              _ _ _ _ _ _ _ _ _ _ _ Hrun)
    as (game & game' & row & Hgame & Hgame' & _ & _ & Hstatus & Hresult & _).
  cbn [fst snd]. exists game'. split; [exact Hgame'|].
  split; [exact Hstatus | exact Hresult].
Defined.

Lemma stored_move_numbers_witness :
  exists rows,
    mem_getGameMoves (snd (fst (sampleMove 4 whiteGuest "e4"))) (sampleId 0)
    = Some rows /\
    map m_moveNumber rows = [1; 2]%nat.
Proof.
  destruct (sampleMove 4 whiteGuest "e4") as [[response st'] sf'] eqn:Hrun.
  pose proof Hrun as Hvalue. vm_compute in Hvalue.
  injection Hvalue as Hresponse _ _.
  rewrite <- Hresponse in Hrun.
  destruct (stored_move_numbers sampleId (R := shortGame 4)
              _ _ _ _ _ _ _ _ _ _ _ _ _
              (shortGame_history 4) (shortGame_keeps 4) Hrun)
    as (rows & Hmoves & Hnumbers).
  cbn [fst snd]. exists rows. split; [exact Hmoves | exact Hnumbers].
Defined.

(** A signed-in user who plays Black resigns: the result is a draw. *)
Lemma postResign_result_witness :
  exists game' st',
    postResign (storage := memStorage sampleId) userGameCreated
      (forGame blackUser (sampleId 0) "")
    = (mkResponse 200 (Resigned game' "1/2-1/2"), st') /\
    g_result game' = Some "1/2-1/2".
Proof.
  destruct (postResign_result sampleId userGameCreated
              (forGame blackUser (sampleId 0) "")
              (mkGame (sampleId 0) (Some "anveshai") (Some "user-1") None false
                 "active" None "black" 1600 (Toy.boardFen Toy.start) ""))
    as (game' & st' & result & Hrun & _ & _ & Hresult & _ & Hdraw & _).
  - reflexivity.
  - exists "user-1". split; [reflexivity | right; reflexivity].
  - reflexivity.
  - rewrite (Hdraw eq_refl eq_refl) in Hrun, Hresult. eauto.
Defined.

Lemma created_game_is_owned_witness :
  exists game,
    mem_getGame (guestGameCreated 4) (sampleId 0) = Some (Some game) /\
    owns whiteGuest game.
Proof.
  destruct (postGame (storage := memStorage sampleId) (rules := shortGame 4)
              newMemStorage whiteGuest) as [response st'] eqn:Hrun.
  pose proof Hrun as Hvalue. vm_compute in Hvalue.
  injection Hvalue as Hresponse Hst.
  rewrite <- Hresponse in Hrun.
  destruct (created_game_is_owned sampleId (R := shortGame 4) _ _ _ _ Hrun)
    as (Hstored & _ & _ & _ & Hguest & _).
  eexists. split.
  - unfold guestGameCreated.
    change (snd (postGame (storage := memStorage sampleId) (rules := shortGame 4)
                   newMemStorage whiteGuest))
      with (snd (postGame (storage := memStorage sampleId) (rules := shortGame 4)
                   newMemStorage whiteGuest)).
    rewrite Hrun. exact Hstored.
  - apply Hguest; [reflexivity|]. exists "session-1". split; [reflexivity|discriminate].
Defined.

(** ** The rows, as the learning service reads them *)

Section Rows.
Variable nanoid : nat -> string.
Context {Chess : Type} {R : RulesEngine Chess}.
Variable tanh : number -> number.
Variable learningService : ChessLearningService number.
Variable answer : nat -> list string.
Variable draws : Draws.

Lemma letter_unmatched (m : Move) :
  m_side m = "w" \/ m_side m = "b" ->
  (m_side m = "w" \/ m_side m = "b") /\
  StoreSpec.sideUnmatched (rowOf m).
Proof.
  intros Hside. split; [exact Hside|]. unfold StoreSpec.sideUnmatched, rowOf.
  cbn [row_side]. destruct Hside as [-> | ->]; split; discriminate.
Qed.

(** Every row that the route stores for a move has the side 'w' or 'b',
    which is neither of the strings 'white' and 'black' that the
    learning service compares the side of a row with, and has no
    evaluation. *)
Theorem stored_rows_name_no_colour (st : MemStorage) (sf : StockfishEngine)
    (req : Request) (body : Body) (st' : MemStorage) (sf' : StockfishEngine) :
  postMove (storage := memStorage nanoid) tanh learningService answer draws st sf req
  = (Some (mkResponse 200 body), st', sf') ->
  exists rows,
    mem_getGameMoves st' (paramsId req)
    = Some (default [] (mem_getGameMoves st (paramsId req)) ++ rows) /\
    rows <> [] /\
    Forall (fun m => (m_side m = "w" \/ m_side m = "b") /\
                     StoreSpec.sideUnmatched (rowOf m) /\
                     row_evaluation (rowOf m) = None) rows.
Proof.
  intros Hrun.
  destruct (postMove_ok_body (storage := memStorage nanoid) _ _ _ _ _ _ _ _ _ _ Hrun)
    as [(move & gameState & ->)|(playerMove & aiMove & gameState & gameOver & ->)].
  - destruct (postMove_over nanoid _ _ _ _ _ _ _ _ _ _ _ Hrun)
      as (game & chess1 & _ & _ & Hturn & _ & _ & _ & _ & ->).
    unfold mem_getGameMoves. cbn [moves default]. rewrite lookup_insert_eq.
    eexists. split; [reflexivity|]. split; [discriminate|].
    constructor; [|constructor].
    assert (chess_turn (newChess (Some (g_currentFen game))) = "w" \/
            chess_turn (newChess (Some (g_currentFen game))) = "b") as Hside
      by (destruct Hturn as [[-> _]|[-> _]]; auto).
    destruct (letter_unmatched (storedMove (nanoid (drawn st)) (paramsId req)
                (moveNumberOf chess1)
                (chess_turn (newChess (Some (g_currentFen game)))) move) Hside)
      as [H1 H2].
    split; [exact H1|]. split; [exact H2 | reflexivity].
  - destruct (postMove_played nanoid _ _ _ _ _ _ _ _ _ _ _ _ _ Hrun)
      as (game & chess1 & chess2 & _ & _ & Hturn & _ & _ & _ & _ & _ & Hst).
    cbv zeta in Hst.
    assert (chess_turn (newChess (Some (g_currentFen game))) = "w" \/
            chess_turn (newChess (Some (g_currentFen game))) = "b") as Hside
      by (destruct Hturn as [[-> _]|[-> _]]; auto).
    pose proof (fun n => letter_unmatched (storedMove (nanoid (drawn st)) (paramsId req)
                n (chess_turn (newChess (Some (g_currentFen game)))) playerMove) Hside)
      as Hplayer.
    unfold mem_getGameMoves. cbn [default].
    destruct aiMove as [ai|]; subst st'; cbn [moves]; rewrite lookup_insert_eq;
      eexists; (split; [reflexivity|]); (split; [discriminate|]).
    + constructor; [|constructor; [|constructor]].
      * destruct (Hplayer (moveNumberOf chess1)) as [H1 H2].
        split; [exact H1|]. split; [exact H2 | reflexivity].
      * assert ((if String.eqb (chess_turn chess2) "w" then "b" else "w") = "w" \/
                (if String.eqb (chess_turn chess2) "w" then "b" else "w") = "b") as Hai
          by (destruct (String.eqb (chess_turn chess2) "w"); auto).
        destruct (letter_unmatched
                    (storedMove (nanoid (Datatypes.S (drawn st))) (paramsId req)
                       (moveNumberOf chess2)
                       (if String.eqb (chess_turn chess2) "w" then "b" else "w") ai) Hai)
          as [H1 H2].
        split; [exact H1|]. split; [exact H2 | reflexivity].
    + constructor; [|constructor].
      destruct (Hplayer (moveNumberOf chess1)) as [H1 H2].
      split; [exact H1|]. split; [exact H2 | reflexivity].
Qed.

(** ** The status of the game is not looked at *)

Lemma denied_withStatus (req : Request) (game : Game) status result :
  denied req
    (mkGame (g_id game) (g_whitePlayerId game) (g_blackPlayerId game)
       (g_guestId game) (g_isGuestGame game) status result (g_playerColor game)
       (g_aiDifficulty game) (g_currentFen game) (g_pgn game))
  = denied req game.
Proof. reflexivity. Qed.

(** The route for a move does not look at the status of the game: with
    other values in the columns status and result of the game, for one
    with a game that is stored as completed, the response and the engine
    client after the request are the same. *)
Theorem postMove_ignores_status (st : MemStorage) (sf : StockfishEngine)
    (req : Request) (status : string) (result : option string) :
  let run := postMove (storage := memStorage nanoid) tanh learningService answer draws in
  fst (fst (run (withStatus st (paramsId req) status result) sf req))
  = fst (fst (run st sf req)) /\
  snd (run (withStatus st (paramsId req) status result) sf req)
  = snd (run st sf req).
Proof.
  intros run. subst run. unfold postMove, withStatus.
  cbn [getGame memStorage mem_getGame games].
  destruct (games st !! paramsId req) as [game|] eqn:Hgame;
    [|rewrite Hgame; split; reflexivity].
  rewrite lookup_insert_eq, denied_withStatus.
  cbn [g_currentFen g_playerColor g_aiDifficulty].
  destruct (denied req game) as [[|]|]; try (split; reflexivity).
  destruct (_ || _); cbn [negb]; [|split; reflexivity].
  destruct (makeMove _ (bodyMove req)) as [[playerMove|] chess1];
    [|split; reflexivity].
  cbn [addMove updateGame memStorage]. unfold mem_addMove.
  cbn [games moves drawn im_gameId im_moveNumber im_side im_san im_uci im_fen].
  erewrite !mem_updateGame_found
    by (cbn [games]; first [exact Hgame | apply lookup_insert_eq]).
  cbn [games moves drawn].
  destruct (gs_isGameOver (getGameState chess1)).
  - split; reflexivity.
  - unfold replyOfAI. cbn [g_aiDifficulty].
    destruct (makeAIMove _ _ _ _ _ chess1 sf) as [[[ai| |] chess2] sf2];
      try (split; reflexivity).
    destruct ai as [ai|]; [|split; reflexivity].
    cbn [addMove updateGame memStorage]. unfold mem_addMove.
    cbn [games moves drawn im_gameId im_moveNumber im_side im_san im_uci im_fen].
    repeat (erewrite mem_updateGame_found by (cbn [games]; apply lookup_insert_eq)).
    split; reflexivity.
Qed.

End Rows.

Lemma stored_rows_name_no_colour_witness :
  exists rows,
    mem_getGameMoves (snd (fst (sampleMove 4 whiteGuest "e4"))) (sampleId 0)
    = Some rows /\
    map (fun m => row_side (rowOf m)) rows = ["w"; "b"] /\
    Forall (fun m => StoreSpec.sideUnmatched (rowOf m)) rows.
Proof.
  destruct (sampleMove 4 whiteGuest "e4") as [[response st'] sf'] eqn:Hrun.
  pose proof Hrun as Hvalue. vm_compute in Hvalue.
  injection Hvalue as Hresponse Hst _.
  rewrite <- Hresponse in Hrun.
  destruct (stored_rows_name_no_colour sampleId (R := shortGame 4)
              _ _ _ _ _ _ _ _ _ _ Hrun) as (rows & Hmoves & _ & Hall).
  cbn [fst snd]. exists rows. split; [exact Hmoves|]. split.
  - rewrite <- Hst in Hmoves. vm_compute in Hmoves. injection Hmoves as <-.
    reflexivity.
  - eapply Forall_impl; [exact Hall|]. intros m (_ & Hm & _). exact Hm.
Defined.

End RoutesProps.
